(** * api-test-framework: a shallow embedding of the load-test engine
      and of its report, with the properties of its specification.

    Sources embedded here:
    - [src/load-test-framework.js]: [addStep], [normalizeUrl],
      [runLoadTest], [runTest], [runStep], [openHttpRequest],
      [assertStatusCode], [applyUserAssertions], [abortTestIfNecessary];
    - [src/index.js]: [computeAvg], [computeAvgResponseTimeForTests],
      [countResponseCodes], the two distribution reports,
      [computeAvgResponseTimeForEachStep], [printReport];
    - [src/utilities.js]: [generateCurlFromStep].

    Modelling conventions.
    - JavaScript strings are [string]; integers are [Z].
    - A value that may be [null] or [undefined] is an [option]; in the
      argument objects [StepParams] and [LoadTestConfig], [None] is a
      property left out (or [undefined]), which is what makes a default
      apply.  A request body is kept as the text [JSON.stringify] gives
      for it.
    - The result of a division is a [jsnum]: an exact rational, an
      infinity or NaN.  Rounding of IEEE doubles and the sign of zero are
      not represented.
    - A promise chain is a computation over an explicit store that either
      fulfils or rejects ([Chain]); [then_], [tap] and [catch_] are the
      bluebird combinators of the same names.
    - Everything outside the repository (axios, the clock, uuid, the
      random jitter, the texts chai produces) is an explicit environment,
      so every statement below holds for every behaviour of the network.
    - An object used as a dictionary of numbers is the [gmap string _] of
      its own properties, written through [setNumber] and asked through
      [hasOwnProperty], which behave as a plain object does: a number
      assigned to [__proto__] is dropped, and once [hasOwnProperty] is an
      own property calling it throws.
    - An object whose keys are listed ([step.headers]) is the list of its
      own properties in the order [Object.keys] gives them.
    - [console.log] output is not part of the model, except the report
      record built by [printReport]; [generateResponseTimeReportForSteps]
      and [printTestDuration], which only print numbers, are left out. *)

From Stdlib Require Import ZArith QArith Qcanon String Ascii List Bool Lia.
From stdpp Require Import base option list gmap strings pretty sorting fin_maps.

Local Open Scope string_scope.
Local Open Scope Z_scope.

(** ** Strings *)

(** The one-character string holding a double quote. *)
Definition dquote : string := String (ascii_of_nat 34) EmptyString.

Definition quoted (s : string) : string := dquote ++ s ++ dquote.

(** [s.indexOf(pat) !== -1] *)
Definition includes (pat s : string) : bool :=
  match String.index 0 pat s with
  | Some _ => true
  | None => false
  end.

(** [`${x}`] for a nullable value. *)
Definition showNullable {A} (f : A -> string) (null : string) (x : option A) : string :=
  match x with
  | Some a => f a
  | None => null
  end.

(** ** Data model *)

(** What axios hands back: a status and a body.  [data] is the
    [JSON.stringify] text of the body, [None] when the response carries
    no [data]. *)
Record Response := {
  status : Z;
  data : option string;
}.

(** The outcome of one axios call: the promise fulfils with a response,
    or rejects with an error whose [response] field may be present (a
    status outside 2xx) or absent (no answer at all). *)
Inductive AxiosOutcome :=
| AxiosFulfilled (res : Response)
| AxiosRejected (errorResponse : option Response).

(** A user assertion receives [res]; [Some e] is the text of what it
    threw, [None] a normal return. *)
Definition Assertion := option Response -> option string.

Module Step.
Record t := {
  name : string;
  isHttps : bool;
  method : string;
  url : string;
  body : option string;
  headers : list (string * string);
  expectedResponseCode : Z;
  assertionFunction : Assertion;
  sleepBeforeNextStepInMs : Z;
}.
End Step.

Module StepData.
Record t := {
  responseTime : option Z;
  responseStatusCode : option Z;
  succeeded : bool;
  error : option string;
  step : Step.t;
}.
End StepData.

Module TestData.
Record t := {
  id : string;
  stepsData : list StepData.t;
  succeeded : bool;
  error : option string;
  repetition : option Z;
}.
End TestData.

(** ** Step registration ([addStep]) *)

(** The argument object of [addStep]; [None] is an omitted property. *)
Record StepParams := {
  p_name : option string;
  p_isHttps : option bool;
  p_method : option string;
  p_url : option string;
  p_body : option string;
  p_headers : option (list (string * string));
  p_expectedResponseCode : option Z;
  p_assertionFunction : option Assertion;
  p_sleepBeforeNextStepInMs : option Z;
}.

(** Texts chai puts in the errors it throws (external to the repository). *)
Inductive ChaiFailure :=
| NotExist (shown : string)
| NotEqual (actual expected : Z)
| NoProperty (prop : string).

Definition chaiError (f : ChaiFailure) : string :=
  "AssertionError: " ++
  match f with
  | NotExist shown => "expected " ++ shown ++ " to exist"
  | NotEqual a e => "expected " ++ pretty a ++ " to equal " ++ pretty e
  | NoProperty p => "expected response to have property '" ++ p ++ "'"
  end.

Definition defaultAssertionFunction : Assertion := fun res =>
  match res with
  | None => Some (chaiError (NotExist "undefined"))
  | Some r =>
      match data r with
      | None => Some (chaiError (NoProperty "data"))
      | Some _ => None
      end
  end.

Definition normalizeUrl (url protocol : string) : string :=
  let hasProtocol := includes "http" url in
  if hasProtocol then url else protocol ++ "://" ++ url.

Definition allowedMethods : list string :=
  ["get"; "head"; "post"; "put"; "patch"; "delete"].

Definition jsonHeaders : list (string * string) :=
  [("Content-Type", "application/json"); ("Accept-Type", "application/json")].

(** An object is kept as the list of its own properties in the order
    [Object.keys] lists them: the names that are array indices first, in
    ascending order, then the other names in the order they were
    created. *)

Definition isDigit (c : ascii) : bool :=
  let n := nat_of_ascii c in ((48 <=? n)%nat && (n <=? 57)%nat)%bool.

Fixpoint digitsValue (s : string) (acc : N) : option N :=
  match s with
  | EmptyString => Some acc
  | String c rest =>
      if isDigit c then digitsValue rest (10 * acc + N.of_nat (nat_of_ascii c - 48))%N
      else None
  end.

(** The array index a property name denotes: a decimal numeral without a
    leading zero, below [2^32 - 1]. *)
Definition arrayIndex (k : string) : option N :=
  match k with
  | EmptyString => None
  | String c rest =>
      if (Ascii.eqb c "0" && negb (String.eqb rest EmptyString))%bool then None
      else
        match digitsValue k 0 with
        | Some n => if (n <? 4294967295)%N then Some n else None
        | None => None
        end
  end.

(** Is a new property [k] listed before the existing property [k']? *)
Definition listedBefore (k k' : string) : bool :=
  match arrayIndex k, arrayIndex k' with
  | Some n, Some n' => (n <? n')%N
  | Some _, None => true
  | None, _ => false
  end.

Definition hasProp (k : string) (obj : list (string * string)) : bool :=
  existsb (fun kv => String.eqb k (fst kv)) obj.

(** An existing property keeps its place. *)
Definition replaceProp (k v : string) (obj : list (string * string))
  : list (string * string) :=
  map (fun kv => if String.eqb k (fst kv) then (k, v) else kv) obj.

Fixpoint insertProp (k v : string) (obj : list (string * string))
  : list (string * string) :=
  match obj with
  | [] => [(k, v)]
  | (k', v') :: rest =>
      if listedBefore k k' then (k, v) :: (k', v') :: rest
      else (k', v') :: insertProp k v rest
  end.

(** [obj[k] = v] for a string [v]; the setter of [__proto__] drops a
    value that is not an object. *)
Definition setProp (k v : string) (obj : list (string * string)) : list (string * string) :=
  if String.eqb k "__proto__" then obj
  else if hasProp k obj then replaceProp k v obj
  else insertProp k v obj.

(** [Object.assign(target, source)] *)
Definition objectAssign (target source : list (string * string)) : list (string * string) :=
  fold_left (fun acc kv => setProp (fst kv) (snd kv) acc) source target.

(** [!s] for a string parameter that may be missing. *)
Definition missing (s : option string) : bool :=
  match s with
  | None => true
  | Some s => String.eqb s EmptyString
  end.

Definition invalidResponseCode : string :=
  "Parameter " ++ quoted "expectedResponseCode"
  ++ " must be provided and be a valid HTTP Response Code".

(** [addStep] on the shared sequence [steps]: the new sequence, or the
    message of the [Error] thrown. *)
Definition addStep (params : StepParams) (steps : list Step.t) : string + list Step.t :=
  let isHttps := default false (p_isHttps params) in
  let headers := default [] (p_headers params) in
  let assertionFunction := default defaultAssertionFunction (p_assertionFunction params) in
  let sleepBeforeNextStepInMs := default 0 (p_sleepBeforeNextStepInMs params) in
  if missing (p_name params) then
    inl ("Parameter " ++ quoted "name" ++ " must be provided")
  else if missing (p_method params) then
    inl ("Parameter " ++ quoted "method" ++ " must be provided")
  else if missing (p_url params) then
    inl ("Parameter " ++ quoted "url" ++ " must be provided")
  else if sleepBeforeNextStepInMs <? 0 then
    inl ("Parameter " ++ quoted "sleepBeforeNextStepInMs"
           ++ " must be greather than  or equal 0")
  else
    let name := default EmptyString (p_name params) in
    let method := default EmptyString (p_method params) in
    let url := default EmptyString (p_url params) in
    let normalizedUrl := normalizeUrl url (if isHttps then "https" else "http") in
    match p_expectedResponseCode params with
    | None =>
        inl invalidResponseCode
    | Some expectedResponseCode =>
        if (expectedResponseCode =? 0) || (expectedResponseCode <? 100)
           || (600 <=? expectedResponseCode) then
          inl invalidResponseCode
        else if negb (existsb (String.eqb method) allowedMethods) then
          inl ("Parameter " ++ quoted "method"
                 ++ " must be a valid HTTP Verb in lower case")
        else
          inr (steps ++ [ {| Step.name := name;
                             Step.isHttps := isHttps;
                             Step.method := method;
                             Step.url := normalizedUrl;
                             Step.body := p_body params;
                             Step.headers := objectAssign jsonHeaders headers;
                             Step.expectedResponseCode := expectedResponseCode;
                             Step.assertionFunction := assertionFunction;
                             Step.sleepBeforeNextStepInMs := sleepBeforeNextStepInMs |} ])%list
    end.

(** ** Promise chains over an explicit store *)

(** A settled promise.  [Rejected e] carries the text [`${error}`] of the
    rejection reason. *)
Inductive Settled (A : Type) :=
| Fulfilled (a : A)
| Rejected (reason : string).
Arguments Fulfilled {A} a.
Arguments Rejected {A} reason.

(** [new Error(msg)] as it prints in a template string. *)
Definition newError (msg : string) : string := "Error: " ++ msg.

Definition Chain (S A : Type) : Type := S -> Settled A * S.

Section Combinators.
Context {S : Type}.

Definition resolve {A} (a : A) : Chain S A := fun s => (Fulfilled a, s).

Definition reject {A} (e : string) : Chain S A := fun s => (Rejected e, s).

(** [p.then(f)]: [f] runs only when [p] fulfils. *)
Definition then_ {A B} (p : Chain S A) (f : A -> Chain S B) : Chain S B :=
  fun s =>
    match p s with
    | (Fulfilled a, s') => f a s'
    | (Rejected e, s') => (Rejected e, s')
    end.

(** [p.tap(f)]: as [then], but the value of [p] is passed on. *)
Definition tap {A B} (p : Chain S A) (f : A -> Chain S B) : Chain S A :=
  then_ p (fun a => then_ (f a) (fun _ => resolve a)).

(** [p.catch(h)]: [h] runs only when [p] rejects. *)
Definition catch_ {A B} (p : Chain S A) (h : string -> Chain S B) : Chain S (A + B) :=
  fun s =>
    match p s with
    | (Fulfilled a, s') => (Fulfilled (inl a), s')
    | (Rejected e, s') =>
        match h e s' with
        | (Fulfilled b, s'') => (Fulfilled (inr b), s'')
        | (Rejected e', s'') => (Rejected e', s'')
        end
    end.

(** A synchronous statement that changes the store. *)
Definition modify (f : S -> S) : Chain S unit := fun s => (Fulfilled tt, f s).

Definition get : Chain S S := fun s => (Fulfilled s, s).
End Combinators.

(** A chain that owns an object [L] besides the world [W] it runs in. *)
Definition withLocal {W L A} (init : L) (c : Chain (W * L) A) : Chain W A :=
  fun w => let '(r, (w', _)) := c (w, init) in (r, w').

Definition inWorld {W L A} (c : Chain W A) : Chain (W * L) A :=
  fun '(w, l) => let '(r, w') := c w in (r, (w', l)).

Definition onLocal {W L} (f : L -> L) : Chain (W * L) unit :=
  modify (fun '(w, l) => (w, f l)).

Definition getLocal {W L} : Chain (W * L) L :=
  fun '(w, l) => (Fulfilled l, (w, l)).

(** ** The world of one virtual user *)

(** The argument of [axios]. *)
Record AxiosConfig := {
  ax_method : string;
  ax_url : string;
  ax_data : option string;
  ax_headers : list (string * string);
}.

(** What a virtual user does that the outside can observe, in order. *)
Inductive Event :=
| EvRequest (cfg : AxiosConfig)          (* [axios(cfg)] is called *)
| EvResponse (res : option Response)     (* [openHttpRequest] resolved with [res] *)
| EvSleep (ms : Z).                      (* a [sleep(ms)] promise resolved *)

Definition World := list Event.

(** The collaborators, as functions of the history so far. *)
Record Env := {
  axios : World -> AxiosConfig -> AxiosOutcome;
  computeElapsedTime : World -> Z;
  generateUid : string;
}.

Definition emit (e : Event) : Chain World unit := modify (fun w => (w ++ [e])%list).

Definition sleep (ms : Z) : Chain World unit := emit (EvSleep ms).

(** ** One step ([runStep]) *)

(** [!body] for a body kept as its JSON text: [null], [NaN], [0],
    [false] and the empty string are falsy. *)
Definition falsyJson (text : string) : bool :=
  existsb (String.eqb text) ["null"; "0"; "false"; quoted EmptyString].

Definition falsyBody (body : option string) : bool :=
  match body with
  | None => true
  | Some text => falsyJson text
  end.

(** [if (!params.data) delete params.data] *)
Definition deleteFalsyData (params : AxiosConfig) : AxiosConfig :=
  if falsyBody (ax_data params) then
    {| ax_method := ax_method params;
       ax_url := ax_url params;
       ax_data := None;
       ax_headers := ax_headers params |}
  else params.

(** [openHttpRequest]: never rejects; a rejection of axios resolves to
    the [response] of the error. *)
Definition openHttpRequest (env : Env) (sameParamsAxiosAccept : AxiosConfig)
  : Chain World (option Response) :=
  let sameParamsAxiosAccept := deleteFalsyData sameParamsAxiosAccept in
  then_ get (fun w =>
  then_ (emit (EvRequest sameParamsAxiosAccept)) (fun _ =>
    let res := match axios env w sameParamsAxiosAccept with
               | AxiosFulfilled r => Some r
               | AxiosRejected errorResponse => errorResponse
               end in
    then_ (emit (EvResponse res)) (fun _ => resolve res))).

(** [res ? JSON.stringify(res.data) : null] inside a template string. *)
Definition receivedBody (res : option Response) : string :=
  match res with
  | Some r => showNullable (fun s => s) "undefined" (data r)
  | None => "null"
  end.

Definition assertStatusCode {S} (res : option Response) (expectedStatusCode : Z)
  : Chain S (option Response) :=
  let thrown :=
    match res with
    | None => Some (chaiError (NotExist "undefined"))
    | Some r =>
        if status r =? expectedStatusCode then None
        else Some (chaiError (NotEqual (status r) expectedStatusCode))
    end in
  match thrown with
  | Some error =>
      reject (newError ("Got errors asserting the Status Code: " ++ error
                        ++ " -> Received body: " ++ receivedBody res))
  | None => resolve res
  end.

Definition applyUserAssertions {S} (res : option Response) (assertionFunction : Assertion)
  : Chain S (option Response) :=
  match assertionFunction res with
  | Some error =>
      reject (newError ("Got errors asserting Response: " ++ error
                        ++ " -> Received body: " ++ receivedBody res))
  | None => resolve res
  end.

Definition newStepData (step : Step.t) : StepData.t :=
  {| StepData.responseTime := None;
     StepData.responseStatusCode := None;
     StepData.succeeded := true;
     StepData.error := None;
     StepData.step := step |}.

(** The object [runStep] hands to [openHttpRequest]. *)
Definition requestParams (step : Step.t) : AxiosConfig :=
  {| ax_method := Step.method step;
     ax_url := Step.url step;
     ax_data := Step.body step;
     ax_headers := Step.headers step |}.

Definition runStep (env : Env) (step : Step.t) : Chain World StepData.t :=
  withLocal (newStepData step)
    (then_
       (catch_
          (then_
             (then_
                (tap (inWorld (openHttpRequest env (requestParams step)))
                   (fun res =>
                      then_ (inWorld get) (fun w =>
                      onLocal (fun stepData =>
                        {| StepData.responseTime := Some (computeElapsedTime env w);
                           StepData.responseStatusCode := option_map status res;
                           StepData.succeeded := StepData.succeeded stepData;
                           StepData.error := StepData.error stepData;
                           StepData.step := StepData.step stepData |}))))
                (fun res => assertStatusCode res (Step.expectedResponseCode step)))
             (fun res => applyUserAssertions res (Step.assertionFunction step)))
          (fun error =>
             then_
               (onLocal (fun stepData =>
                  {| StepData.responseTime := StepData.responseTime stepData;
                     StepData.responseStatusCode := StepData.responseStatusCode stepData;
                     StepData.succeeded := false;
                     StepData.error :=
                       Some ("Step " ++ quoted (Step.name step) ++ " failed: " ++ error);
                     StepData.step := StepData.step stepData |}))
               (fun _ => getLocal)))
       (fun _ => getLocal)).

(** ** One virtual user ([runTest]) *)

Definition storeStepData {W} (stepData : StepData.t) : Chain (W * TestData.t) unit :=
  onLocal (fun testData =>
    {| TestData.id := TestData.id testData;
       TestData.stepsData := (TestData.stepsData testData ++ [stepData])%list;
       TestData.succeeded := TestData.succeeded testData;
       TestData.error := TestData.error testData;
       TestData.repetition := TestData.repetition testData |}).

Definition abortTestIfNecessary {S} (stepData : StepData.t) : Chain S unit :=
  if StepData.succeeded stepData then resolve tt
  else reject (newError ("Aborting Test due a step error: "
                         ++ showNullable (fun s => s) "null" (StepData.error stepData))).

Definition newTestData (env : Env) : TestData.t :=
  {| TestData.id := generateUid env;
     TestData.stepsData := [];
     TestData.succeeded := true;
     TestData.error := None;
     TestData.repetition := None |}.

(** The body of the [reduce] callback of [runTest]. *)
Definition chainStep (env : Env) (testPromise : Chain (World * TestData.t) unit)
    (step : Step.t) : Chain (World * TestData.t) unit :=
  then_ testPromise (fun _ =>
    then_
      (then_
         (tap (inWorld (runStep env step)) (fun stepData => storeStepData stepData))
         (fun stepData => abortTestIfNecessary stepData))
      (fun _ => inWorld (sleep (Step.sleepBeforeNextStepInMs step)))).

Definition runTest (env : Env) (steps : list Step.t) : Chain World TestData.t :=
  if (Z.of_nat (length steps) <? 1) then
    reject (newError "Received no Steps to compose a Test")
  else
    withLocal (newTestData env)
      (let testPromise := fold_left (chainStep env) steps (resolve tt) in
       then_
         (catch_ testPromise
            (fun error =>
               then_
                 (onLocal (fun testData =>
                    {| TestData.id := TestData.id testData;
                       TestData.stepsData := TestData.stepsData testData;
                       TestData.succeeded := false;
                       TestData.error :=
                         Some ("Test " ++ quoted "undefined" ++ " failed: " ++ error);
                       TestData.repetition := TestData.repetition testData |}))
                 (fun _ => getLocal)))
         (fun _ => getLocal)).

(** ** The wave scheduler ([runLoadTest]) *)

(** The argument object of [runLoadTest]; [None] is an omitted property. *)
Record LoadTestConfig := {
  numOfThreads : option Z;
  numOfRepetitions : option Z;
  maxTimeBeforeStartingInMs : option Z;
}.

(** The collaborators of a whole load test: the environment met by the
    virtual user [i] of repetition [k], and the random integer drawn for
    it.  Virtual users of a wave interleave freely; whatever the
    interleaving, each of them meets some such environment. *)
Record LoadEnv := {
  userEnv : Z -> nat -> Env;
  getRandomIntUntil : Z -> nat -> Z -> Z;
}.

(** A call either throws synchronously or returns a promise. *)
Inductive Outcome (A : Type) :=
| Throws (msg : string)
| Returns (p : Settled A).
Arguments Throws {A} msg.
Arguments Returns {A} p.

(** [Promise.all]: the values in the order of the array, or the first
    rejection. *)
Fixpoint promiseAll {A} (ps : list (Settled A)) : Settled (list A) :=
  match ps with
  | [] => Fulfilled []
  | Fulfilled a :: rest =>
      match promiseAll rest with
      | Fulfilled l => Fulfilled (a :: l)
      | Rejected e => Rejected e
      end
  | Rejected e :: _ => Rejected e
  end.

Definition addFieldRepetition (testsData : list TestData.t) (repetitionIndex : Z)
  : list TestData.t :=
  map (fun testData =>
         {| TestData.id := TestData.id testData;
            TestData.stepsData := TestData.stepsData testData;
            TestData.succeeded := TestData.succeeded testData;
            TestData.error := TestData.error testData;
            TestData.repetition := Some repetitionIndex |}) testsData.

(** [sleep(timeBeforeStarting).then(() => runTest(this.steps))], run in a
    world of its own. *)
Definition virtualUser (lenv : LoadEnv) (steps : list Step.t)
    (maxTimeBeforeStartingInMs currentRepetition : Z) (i : nat) : Settled TestData.t :=
  let timeBeforeStarting :=
    getRandomIntUntil lenv currentRepetition i maxTimeBeforeStartingInMs in
  fst (then_ (sleep timeBeforeStarting)
             (fun _ => runTest (userEnv lenv currentRepetition i) steps) []).

(** The recursion of [runLoadTest] on [currentRepetition]; [fuel] bounds
    the number of waves still to run, [None] is fuel exhausted. *)
Fixpoint runLoadTestFrom (fuel : nat) (lenv : LoadEnv) (steps : list Step.t)
    (numOfThreads numOfRepetitions maxTimeBeforeStartingInMs : Z)
    (currentRepetition : Z) (testDataAccumulator : list TestData.t)
  : option (Outcome (list TestData.t)) :=
  if numOfThreads <? 1 then
    Some (Throws ("Parameter " ++ quoted "numOfThreads"
                  ++ " must be provided and greather than 0"))
  else if numOfRepetitions <? 1 then
    Some (Throws ("Parameter " ++ quoted "numOfRepetitions"
                  ++ " must be provided and greather than 0"))
  else if maxTimeBeforeStartingInMs <? 0 then
    Some (Throws ("Parameter " ++ quoted "maxTimeBeforeStartingInMs"
                  ++ " must be provided and greather than or equal 0"))
  else if currentRepetition >? numOfRepetitions then
    Some (Returns (Fulfilled testDataAccumulator))
  else
    match fuel with
    | O => None
    | S fuel' =>
        let testThreads :=
          map (virtualUser lenv steps maxTimeBeforeStartingInMs currentRepetition)
              (seq 0 (Z.to_nat numOfThreads)) in
        match promiseAll testThreads with
        | Rejected e => Some (Returns (Rejected e))
        | Fulfilled testsData =>
            let testsData := addFieldRepetition testsData currentRepetition in
            match runLoadTestFrom fuel' lenv steps numOfThreads numOfRepetitions
                    maxTimeBeforeStartingInMs (currentRepetition + 1)
                    (testDataAccumulator ++ testsData)%list with
            | Some (Throws msg) => Some (Returns (Rejected (newError msg)))
            | r => r
            end
        end
    end.

(** [runLoadTest(config)] with the defaults of its parameters; as many
    waves as there are repetitions is fuel enough. *)
Definition runLoadTest (lenv : LoadEnv) (steps : list Step.t) (config : LoadTestConfig)
  : option (Outcome (list TestData.t)) :=
  let n := default 64 (numOfThreads config) in
  let r := default 1 (numOfRepetitions config) in
  let m := default 8000 (maxTimeBeforeStartingInMs config) in
  runLoadTestFrom (Z.to_nat r) lenv steps n r m 1 [].

(** ** JavaScript numbers as far as the report needs them *)

Inductive jsnum :=
| Fin (q : Qc)
| Inf (negative : bool)
| NaN.

Definition ofZ (z : Z) : jsnum := Fin (Q2Qc (inject_Z z)).
Definition ofNat (n : nat) : jsnum := ofZ (Z.of_nat n).

Definition isZero (q : Qc) : bool := bool_decide (q = 0%Qc).
Definition isNegative (q : Qc) : bool := bool_decide (q < 0)%Qc.

Definition jsadd (x y : jsnum) : jsnum :=
  match x, y with
  | NaN, _ | _, NaN => NaN
  | Fin a, Fin b => Fin (a + b)%Qc
  | Inf s, Fin _ | Fin _, Inf s => Inf s
  | Inf s, Inf t => if Bool.eqb s t then Inf s else NaN
  end.

Definition jsmul (x y : jsnum) : jsnum :=
  match x, y with
  | NaN, _ | _, NaN => NaN
  | Fin a, Fin b => Fin (a * b)%Qc
  | Inf s, Fin b | Fin b, Inf s => if isZero b then NaN else Inf (xorb s (isNegative b))
  | Inf s, Inf t => Inf (xorb s t)
  end.

Definition jsdiv (x y : jsnum) : jsnum :=
  match x, y with
  | NaN, _ | _, NaN => NaN
  | Fin a, Fin b =>
      if isZero b then (if isZero a then NaN else Inf (isNegative a))
      else Fin (a / b)%Qc
  | Fin _, Inf _ => Fin 0%Qc
  | Inf s, Fin b => Inf (xorb s (isNegative b))
  | Inf _, Inf _ => NaN
  end.

(** [x] in a boolean position: 0 and NaN are falsy. *)
Definition truthy (x : jsnum) : bool :=
  match x with
  | Fin q => negb (isZero q)
  | Inf _ => true
  | NaN => false
  end.

(** A value shown in the report: a number, or a text put in its place. *)
Inductive Shown :=
| ShownNumber (x : jsnum)
| ShownText (s : string).

(** [x || text] *)
Definition orElse (x : jsnum) (text : string) : Shown :=
  if truthy x then ShownNumber x else ShownText text.

(** A [responseTime] in an addition: [null] counts as 0. *)
Definition timeOf (stepData : StepData.t) : Z :=
  default 0 (StepData.responseTime stepData).

(** ** The report ([index.js]) *)

Definition computeAvg (arr : list jsnum) : jsnum :=
  jsdiv (fold_left (fun acc value => jsadd acc value) arr (ofZ 0)) (ofNat (length arr)).

Definition computeAvgResponseTimeForTest (testData : TestData.t) : jsnum :=
  let stepsResponseTime :=
    map (fun stepData => ofZ (timeOf stepData)) (TestData.stepsData testData) in
  computeAvg stepsResponseTime.

Definition computeAvgResponseTimeForTests (testsData : list TestData.t) : jsnum :=
  let avgResponseTimes := map computeAvgResponseTimeForTest testsData in
  computeAvg avgResponseTimes.

(** [stepsData[stepsData.length - 1]]: [None] is [undefined]. *)
Definition getStepDataWithError (testData : TestData.t) : option StepData.t :=
  last (TestData.stepsData testData).

(** From here on [None] as a result is a [TypeError] thrown: on reading
    a property of [undefined], or on calling what is not a function. *)
Definition getStepWithError (testData : TestData.t) : option Step.t :=
  StepData.step <$> getStepDataWithError testData.

(** *** Plain objects as dictionaries of numbers

    A dictionary is the [{}] the code starts from, with the numbers put
    in it: the finite map of its own properties, on top of what every
    plain object inherits. *)

(** [obj[key] = v] for a number [v]: a new own property, or a new value
    for it; but [__proto__] is a setter every plain object inherits, and
    it drops a value that is not an object. *)
Definition setNumber {V} (key : string) (v : V) (obj : gmap string V) : gmap string V :=
  if String.eqb key "__proto__" then obj else <[key := v]> obj.

(** [obj.hasOwnProperty(key)]: the inherited method, as long as
    [hasOwnProperty] is not itself a key of the dictionary; once it is,
    the call is a call of the number stored under it, a [TypeError],
    which is [None]. *)
Definition hasOwnProperty {V} (obj : gmap string V) (key : string) : option bool :=
  match obj !! "hasOwnProperty" with
  | Some _ => None
  | None => Some (match obj !! key with Some _ => true | None => false end)
  end.

(** [if (!obj.hasOwnProperty(key)) obj[key] = 1; else obj[key]++]; in
    the second branch the property is an own one, which holds a count. *)
Definition tally (key : string) (obj : gmap string nat) : option (gmap string nat) :=
  match hasOwnProperty obj key with
  | None => None
  | Some false => Some (setNumber key 1%nat obj)
  | Some true => Some (setNumber key (S (default 0%nat (obj !! key))) obj)
  end.

Definition statusCodeKey (statusCode : option Z) : string :=
  "statusCode" ++ showNullable pretty "null" statusCode.

Definition countResponseCodes (testsData : list TestData.t) : option (gmap string nat) :=
  fold_left
    (fun acc testData =>
       numOfEachResponseCode ← acc;
       stepWithError ← getStepDataWithError testData;
       let statusCode := StepData.responseStatusCode stepWithError in
       tally (statusCodeKey statusCode) numOfEachResponseCode)
    testsData (Some ∅).

(** [Object.keys(obj).sort()]: without a comparator [sort] orders strings
    by their code units, which is [String.le]. *)
Definition sortedKeys {V} (obj : gmap string V) : list string :=
  merge_sort String.le (map fst (map_to_list obj)).

Definition newline : string := String (ascii_of_nat 10) EmptyString.

(** One line of a distribution, with the indentation of the next one. *)
Definition distributionLine (obj : gmap string nat) (key : string) : string :=
  key ++ ": " ++ showNullable pretty "undefined" (obj !! key) ++ newline ++ "      ".

Definition generateDistributionReportForStatusCode (testsData : list TestData.t)
  : option string :=
  numOfEachResponseCode ← countResponseCodes testsData;
  let errorCodes := sortedKeys numOfEachResponseCode in
  let errorCodesMsg :=
    fold_left (fun msg errorCode => msg ++ distributionLine numOfEachResponseCode errorCode)
              errorCodes EmptyString in
  Some (if String.eqb errorCodesMsg EmptyString then "N/A" else errorCodesMsg).

(** The tally built by the [reduce] of
    [generateDistributionReportForErroredSteps]. *)
Definition numOfEachStep (testsData : list TestData.t) : option (gmap string nat) :=
  stepNamesThatFailed ←
    mapM (fun testData =>
            stepData ← getStepDataWithError testData;
            Some (Step.name (StepData.step stepData))) testsData;
  fold_left (fun acc stepName => acc ← acc; tally stepName acc)
            stepNamesThatFailed (Some ∅).

Definition generateDistributionReportForErroredSteps (testsData : list TestData.t)
  : option string :=
  numOfEachStep ← numOfEachStep testsData;
  let stepNames := sortedKeys numOfEachStep in
  let errorStepsMsg :=
    fold_left (fun msg stepName => msg ++ distributionLine numOfEachStep stepName)
              stepNames EmptyString in
  Some (if String.eqb errorStepsMsg EmptyString then "N/A" else errorStepsMsg).

Definition findStepData (stepName : string) (testData : TestData.t) : option StepData.t :=
  List.find (fun stepData => String.eqb (Step.name (StepData.step stepData)) stepName)
            (TestData.stepsData testData).

(** The loop over the tests for one step name: [executionsOfStep[stepName]++]
    and [totalTimeOnStep[stepName] += responseTime] for each test that
    holds the step.  Whatever is not an own property when it is read here
    is [__proto__], and what is computed from it is dropped by the
    assignment. *)
Definition countStep (stepName : string) (testsData : list TestData.t)
    (counters : gmap string nat * gmap string Z) : gmap string nat * gmap string Z :=
  fold_left
    (fun '(executionsOfStep, totalTimeOnStep) testData =>
       match findStepData stepName testData with
       | Some currentStepOnTestData =>
           (setNumber stepName (S (default 0%nat (executionsOfStep !! stepName)))
              executionsOfStep,
            setNumber stepName (default 0 (totalTimeOnStep !! stepName)
                                + timeOf currentStepOnTestData) totalTimeOnStep)
       | None => (executionsOfStep, totalTimeOnStep)
       end)
    testsData counters.

(** The body of the loop over the step names: the two counters get
    their 0 unless they have the name already, then the tests are
    counted. *)
Definition stepCountersAt (testsData : list TestData.t)
    (counters : gmap string nat * gmap string Z) (stepName : string)
  : option (gmap string nat * gmap string Z) :=
  let '(executionsOfStep, totalTimeOnStep) := counters in
  match hasOwnProperty executionsOfStep stepName with
  | None => None
  | Some counted =>
      let executionsOfStep :=
        if counted : bool then executionsOfStep
        else setNumber stepName 0%nat executionsOfStep in
      match hasOwnProperty totalTimeOnStep stepName with
      | None => None
      | Some timed =>
          let totalTimeOnStep :=
            if timed : bool then totalTimeOnStep
            else setNumber stepName 0 totalTimeOnStep in
          Some (countStep stepName testsData (executionsOfStep, totalTimeOnStep))
      end
  end.

(** The two counters of [computeAvgResponseTimeForEachStep] after the
    loops over the step names and the tests. *)
Definition stepCounters (stepNames : list string) (testsData : list TestData.t)
  : option (gmap string nat * gmap string Z) :=
  fold_left
    (fun counters stepName =>
       counters ← counters; stepCountersAt testsData counters stepName)
    stepNames (Some (∅, ∅)).

(** [a[k] / b[k]]; a property that is not an own number gives NaN. *)
Definition ratioAt (totalTimeOnStep : gmap string Z) (executionsOfStep : gmap string nat)
    (stepName : string) : jsnum :=
  match totalTimeOnStep !! stepName, executionsOfStep !! stepName with
  | Some total, Some executions => jsdiv (ofZ total) (ofNat executions)
  | _, _ => NaN
  end.

Definition computeAvgResponseTimeForEachStep (testsData : list TestData.t)
  : option (gmap string jsnum) :=
  match testsData with
  | [] => None
  | first :: _ =>
      let stepNames :=
        map (fun stepData => Step.name (StepData.step stepData)) (TestData.stepsData first) in
      counters ← stepCounters stepNames testsData;
      let '(executionsOfStep, totalTimeOnStep) := counters in
      Some (fold_left
              (fun acc stepName =>
                 setNumber stepName (ratioAt totalTimeOnStep executionsOfStep stepName) acc)
              stepNames ∅)
  end.

(** [c.toUpperCase()] on the letters a-z. *)
Definition upperAscii (c : ascii) : ascii :=
  let n := nat_of_ascii c in
  if ((97 <=? n)%nat && (n <=? 122)%nat)%bool then ascii_of_nat (n - 32) else c.

Fixpoint toUpperCase (s : string) : string :=
  match s with
  | EmptyString => EmptyString
  | String c rest => String (upperAscii c) (toUpperCase rest)
  end.

(** [utilities.generateCurlFromStep] *)
Definition generateCurlFromStep (step : Step.t) : string :=
  let curl := "curl -i " in
  let curl :=
    curl ++ (if String.eqb (Step.method step) "head" then "--head "
             else "-X " ++ toUpperCase (Step.method step) ++ " ") in
  let curl :=
    fold_left (fun curl header =>
                 curl ++ "-H " ++ quoted (fst header ++ ": " ++ snd header) ++ " ")
              (Step.headers step) curl in
  let curl :=
    match Step.body step with
    | Some body => if falsyJson body then curl else curl ++ "-d '" ++ body ++ "' "
    | None => curl
    end in
  curl ++ quoted (Step.url step).

(** What [printReport] computes before it prints. *)
Record Report := {
  reproductionHint : option (string * string);
  numOfPerformedTests : nat;
  numOfSuccesses : nat;
  numOfFailures : nat;
  errorRate : jsnum;
  avgResponseTime_all : jsnum;
  avgResponseTime_successes : Shown;
  avgResponseTime_failures : Shown;
  avgResponseTime_steps : gmap string jsnum;
  stepFailureDistributionMsg : string;
  errorCodeDistributionMsg : string;
}.

Definition testsThatSucceeded (results : list TestData.t) : list TestData.t :=
  List.filter (fun result => TestData.succeeded result) results.

Definition testsThatFailed (results : list TestData.t) : list TestData.t :=
  List.filter (fun result => negb (TestData.succeeded result)) results.

Definition printReport (results : list TestData.t) : option Report :=
  let succeededTests := testsThatSucceeded results in
  let failedTests := testsThatFailed results in
  hint ←
    match failedTests with
    | [] => Some None
    | firstTestThatFailed :: _ =>
        stepWithError ← getStepWithError firstTestThatFailed;
        stepDataWithError ← getStepDataWithError firstTestThatFailed;
        Some (Some (generateCurlFromStep stepWithError,
                    showNullable (fun s => s) "null" (StepData.error stepDataWithError)))
    end;
  let numOfPerformedTests := length results in
  let numOfSuccesses := length succeededTests in
  let numOfFailures := length failedTests in
  let errorRate := jsmul (jsdiv (ofNat numOfFailures) (ofNat numOfPerformedTests)) (ofZ 100) in
  let all := computeAvgResponseTimeForTests results in
  let successes := orElse (computeAvgResponseTimeForTests succeededTests) "N/A" in
  let failures := orElse (computeAvgResponseTimeForTests failedTests) "N/A" in
  steps ← computeAvgResponseTimeForEachStep results;
  stepFailureDistributionMsg ← generateDistributionReportForErroredSteps failedTests;
  errorCodeDistributionMsg ← generateDistributionReportForStatusCode failedTests;
  Some {| reproductionHint := hint;
          numOfPerformedTests := numOfPerformedTests;
          numOfSuccesses := numOfSuccesses;
          numOfFailures := numOfFailures;
          errorRate := errorRate;
          avgResponseTime_all := all;
          avgResponseTime_successes := successes;
          avgResponseTime_failures := failures;
          avgResponseTime_steps := steps;
          stepFailureDistributionMsg := stepFailureDistributionMsg;
          errorCodeDistributionMsg := errorCodeDistributionMsg |}.

(** ** Sanity runs *)

Definition getStep : Step.t :=
  {| Step.name := "Google Page Loads";
     Step.isHttps := false;
     Step.method := "get";
     Step.url := "https://www.google.com";
     Step.body := None;
     Step.headers := jsonHeaders;
     Step.expectedResponseCode := 200;
     Step.assertionFunction := defaultAssertionFunction;
     Step.sleepBeforeNextStepInMs := 0 |}.

Definition okResponse (code : Z) : Response := {| status := code; data := Some "{}" |}.

(** A network that answers every request with [code] after [ms]. *)
Definition constEnv (code ms : Z) : Env :=
  {| axios := fun _ _ => if (200 <=? code) && (code <? 300)
                         then AxiosFulfilled (okResponse code)
                         else AxiosRejected (Some (okResponse code));
     computeElapsedTime := fun _ => ms;
     generateUid := "uid" |}.

(** A network that is down. *)
Definition deadEnv : Env :=
  {| axios := fun _ _ => AxiosRejected None;
     computeElapsedTime := fun _ => 3;
     generateUid := "uid" |}.

(** ** Notions used in the statements *)

(** *** A step and a virtual user told step by step *)

(** The configuration [axios] is called with for [step]. *)
Definition requestOf (step : Step.t) : AxiosConfig :=
  deleteFalsyData (requestParams step).

(** The value [openHttpRequest] resolves with in the world [w]. *)
Definition responseIn (env : Env) (w : World) (step : Step.t) : option Response :=
  match axios env w (requestOf step) with
  | AxiosFulfilled r => Some r
  | AxiosRejected errorResponse => errorResponse
  end.

(** The reason the two checks of [runStep] reject with, if they do. *)
Definition checksReject (step : Step.t) (res : option Response) : option string :=
  match res with
  | None =>
      Some (newError ("Got errors asserting the Status Code: "
                      ++ chaiError (NotExist "undefined")
                      ++ " -> Received body: " ++ receivedBody res))
  | Some r =>
      if status r =? Step.expectedResponseCode step then
        match Step.assertionFunction step res with
        | Some error =>
            Some (newError ("Got errors asserting Response: " ++ error
                            ++ " -> Received body: " ++ receivedBody res))
        | None => None
        end
      else
        Some (newError ("Got errors asserting the Status Code: "
                        ++ chaiError (NotEqual (status r) (Step.expectedResponseCode step))
                        ++ " -> Received body: " ++ receivedBody res))
  end.

Definition requestEvents (step : Step.t) (res : option Response) : list Event :=
  [EvRequest (requestOf step); EvResponse res].

(** The [stepData] of a step that met the response [res] in the world [w]. *)
Definition stepDataFor (env : Env) (w : World) (step : Step.t) (res : option Response)
  : StepData.t :=
  {| StepData.responseTime := Some (computeElapsedTime env (w ++ requestEvents step res)%list);
     StepData.responseStatusCode := option_map status res;
     StepData.succeeded := match checksReject step res with None => true | Some _ => false end;
     StepData.error :=
       match checksReject step res with
       | None => None
       | Some error => Some ("Step " ++ quoted (Step.name step) ++ " failed: " ++ error)
       end;
     StepData.step := step |}.

(** The chain of [runTest] after the first [steps] are taken off: the
    [reduce] unrolled. *)
Fixpoint stepsChain (env : Env) (steps : list Step.t) : Chain (World * TestData.t) unit :=
  match steps with
  | [] => resolve tt
  | step :: rest => then_ (chainStep env (resolve tt) step) (fun _ => stepsChain env rest)
  end.

(** The step results a virtual user collects, the world it leaves and
    whether it went through all the steps: the run told step by step. *)
Fixpoint walk (env : Env) (steps : list Step.t) (w : World)
  : list StepData.t * World * bool :=
  match steps with
  | [] => ([], w, true)
  | step :: rest =>
      let res := responseIn env w step in
      let stepData := stepDataFor env w step res in
      let w1 := (w ++ requestEvents step res)%list in
      if StepData.succeeded stepData then
        let '(more, w', ok) :=
          walk env rest (w1 ++ [EvSleep (Step.sleepBeforeNextStepInMs step)])%list in
        (stepData :: more, w', ok)
      else ([stepData], w1, false)
  end.

Definition withStepsData (testData : TestData.t) (stepsData : list StepData.t) : TestData.t :=
  {| TestData.id := TestData.id testData;
     TestData.stepsData := stepsData;
     TestData.succeeded := TestData.succeeded testData;
     TestData.error := TestData.error testData;
     TestData.repetition := TestData.repetition testData |}.

(** The reason [abortTestIfNecessary] rejects with. *)
Definition abortReason (stepData : StepData.t) : string :=
  newError ("Aborting Test due a step error: "
            ++ showNullable (fun s => s) "null" (StepData.error stepData)).

(** The [testData] a virtual user resolves to, in closed form. *)
Definition testDataFor (env : Env) (steps : list Step.t) (w : World) : TestData.t :=
  let '(stepsData, _, ok) := walk env steps w in
  {| TestData.id := generateUid env;
     TestData.stepsData := stepsData;
     TestData.succeeded := ok;
     TestData.error :=
       if ok then None
       else (fun stepData =>
               "Test " ++ quoted "undefined" ++ " failed: " ++ abortReason stepData)
              <$> last stepsData;
     TestData.repetition := None |}.

Definition stepOk (stepData : StepData.t) : Prop := StepData.succeeded stepData = true.

(** What the outside sees of one step: the request, its answer, and
    the pause that follows only when the step passed. *)
Definition stepEvents (stepData : StepData.t) (res : option Response) : list Event :=
  (requestEvents (StepData.step stepData) res
   ++ if StepData.succeeded stepData
      then [EvSleep (Step.sleepBeforeNextStepInMs (StepData.step stepData))]
      else [])%list.

(** *** The waves of a load test *)

(** The test run of the virtual user [i] of repetition [k]: it sleeps
    for its jitter, then runs the steps. *)
Definition userTestData (lenv : LoadEnv) (steps : list Step.t) (m : Z) (k : Z) (i : nat)
  : TestData.t :=
  testDataFor (userEnv lenv k i) steps [EvSleep (getRandomIntUntil lenv k i m)].

(** The test runs of repetition [k], in the order of the threads, with
    their repetition index. *)
Definition waveOf (lenv : LoadEnv) (steps : list Step.t) (n m : Z) (k : Z)
  : list TestData.t :=
  addFieldRepetition (map (userTestData lenv steps m k) (seq 0 (Z.to_nat n))) k.

(** The repetition indexes [first], [first + 1], ... ([count] of them). *)
Definition repetitionsFrom (first : Z) (count : nat) : list Z :=
  map (fun j => first + Z.of_nat j) (seq 0 count).

(** *** Tallies and their text *)

(** The dictionary with one more counted under [key]. *)
Definition oneMore (key : string) (obj : gmap string nat) : gmap string nat :=
  match obj !! key with
  | None => <[key := 1%nat]> obj
  | Some n => <[key := S n]> obj
  end.

(** The names a dictionary keeps: all but [__proto__]. *)
Definition keptNames (keys : list string) : list string :=
  filter (fun key => key <> "__proto__") keys.

(** The sum of the counts of a tally over all its keys. *)
Definition sumCounts (obj : gmap string nat) : nat :=
  map_fold (fun _ count total => (count + total)%nat) O obj.

(** How many of [keys] are [k]. *)
Definition occurrences (k : string) (keys : list string) : nat :=
  length (filter (fun key => key = k) keys).

(** [obj] holds, for each key, how often it occurs in [keys], and holds
    nothing for a key that does not occur. *)
Definition countsOf (keys : list string) (obj : gmap string nat) : Prop :=
  forall k, obj !! k = if decide (occurrences k keys = O) then None
                       else Some (occurrences k keys).

(** The key under which a failed run is counted in each distribution:
    the name of its last step result, and the status code of it. *)
Definition failedStepName (testData : TestData.t) : option string :=
  (fun stepData => Step.name (StepData.step stepData)) <$> getStepDataWithError testData.

Definition failedStatusCode (testData : TestData.t) : option string :=
  (fun stepData => statusCodeKey (StepData.responseStatusCode stepData))
    <$> getStepDataWithError testData.

(** A count as a tally holds it: no entry for zero. *)
Definition entryFor (n : nat) : option nat := if decide (n = O) then None else Some n.

(** The number of [testsData] counted under [k] by the key function [f]. *)
Definition runsUnder (f : TestData.t -> option string) (k : string)
    (testsData : list TestData.t) : nat :=
  length (filter (fun testData => f testData = Some k) testsData).

(** The lines of a distribution one after the other. *)
Definition joined (lines : list string) : string :=
  fold_right String.append EmptyString lines.

(** A distribution as the report shows it. *)
Definition distributionText (obj : gmap string nat) : string :=
  match sortedKeys obj with
  | [] => "N/A"
  | keys =>
      joined (map (fun key => key ++ ": " ++ pretty (default O (obj !! key))
                              ++ newline ++ "      ") keys)
  end.

(** *** Averages *)

(** A test run whose step results all took 0 ms (and that has one). *)
Definition allZeroTimes (testData : TestData.t) : Prop :=
  TestData.stepsData testData <> []
  /\ Forall (fun stepData => timeOf stepData = 0) (TestData.stepsData testData).

Definition stepNameOf (stepData : StepData.t) : string := Step.name (StepData.step stepData).

(** No step result of the run is named [name]. *)
Definition stepNamesAvoid (name : string) (testData : TestData.t) : Prop :=
  Forall (fun stepData => stepNameOf stepData <> name) (TestData.stepsData testData).

(** The runs that hold a step result named [stepName]. *)
Definition runsWith (stepName : string) (testsData : list TestData.t) : list TestData.t :=
  filter (fun testData => is_Some (findStepData stepName testData)) testsData.

(** The elapsed time of the step result named [stepName] in a run. *)
Definition elapsedIn (stepName : string) (testData : TestData.t) : Z :=
  from_option timeOf 0 (findStepData stepName testData).

Definition sumZ (l : list Z) : Z := fold_right Z.add 0 l.

(** The mean of the elapsed times of the step results named [stepName]
    over the runs that hold one. *)
Definition meanElapsed (stepName : string) (testsData : list TestData.t) : jsnum :=
  jsdiv (ofZ (sumZ (map (elapsedIn stepName) (runsWith stepName testsData))))
        (ofNat (length (runsWith stepName testsData))).

(** All the step results named [stepName], over all the runs. *)
Definition stepResultsNamed (stepName : string) (testsData : list TestData.t)
  : list StepData.t :=
  flat_map (fun testData =>
              filter (fun stepData => Step.name (StepData.step stepData) = stepName)
                     (TestData.stepsData testData)) testsData.

Definition meanOfStepResults (stepName : string) (testsData : list TestData.t) : jsnum :=
  jsdiv (ofZ (sumZ (map timeOf (stepResultsNamed stepName testsData))))
        (ofNat (length (stepResultsNamed stepName testsData))).

(** No two step results of the run have the same step name. *)
Definition distinctStepNames (testData : TestData.t) : Prop :=
  NoDup (map (fun stepData => Step.name (StepData.step stepData))
             (TestData.stepsData testData)).

(** The counters hold, for each name met [n > 0] times so far, [n]
    times the number of runs with the step and [n] times their total
    time, and nothing for the other names. *)
Definition countedSoFar (testsData : list TestData.t) (done : list string)
    (counters : gmap string nat * gmap string Z) : Prop :=
  forall k,
    fst counters !! k
    = (if decide (occurrences k done = O) then None
       else Some (occurrences k done * length (runsWith k testsData))%nat)
    /\ snd counters !! k
       = (if decide (occurrences k done = O) then None
          else Some (Z.of_nat (occurrences k done)
                     * sumZ (map (elapsedIn k) (runsWith k testsData)))).

(** *** Inputs of the examples *)

(** A step that expects 404, and a server that answers 404: axios
    rejects, and the error carries the response. *)
Definition notFoundStep : Step.t :=
  {| Step.name := "Missing Page";
     Step.isHttps := false;
     Step.method := "get";
     Step.url := "http://localhost/missing";
     Step.body := None;
     Step.headers := jsonHeaders;
     Step.expectedResponseCode := 404;
     Step.assertionFunction := defaultAssertionFunction;
     Step.sleepBeforeNextStepInMs := 0 |}.

(** Three threads, two repetitions, no jitter, a network that answers 200. *)
Definition steadyLoad : LoadEnv :=
  {| userEnv := fun _ _ => constEnv 200 50;
     getRandomIntUntil := fun _ _ _ => 0 |}.

Definition smallConfig : LoadTestConfig :=
  {| numOfThreads := Some 3; numOfRepetitions := Some 2; maxTimeBeforeStartingInMs := Some 0 |}.

(** One run that passed its only step in 0 ms. *)
Definition instantRuns : list TestData.t := [testDataFor (constEnv 200 0) [getStep] []].

(** A step on a host whose name contains the letters http, given
    without a scheme. *)
Definition httpbinParams : StepParams :=
  {| p_name := Some "Get";
     p_isHttps := None;
     p_method := Some "get";
     p_url := Some "httpbin.org/get";
     p_body := None;
     p_headers := None;
     p_expectedResponseCode := Some 200;
     p_assertionFunction := None;
     p_sleepBeforeNextStepInMs := None |}.

(** Two runs that failed on a 500 and one that got no answer. *)
Definition failingRuns : list TestData.t :=
  [testDataFor (constEnv 500 50) [getStep] [];
   testDataFor deadEnv [getStep] [];
   testDataFor (constEnv 200 60) [getStep] [];
   testDataFor (constEnv 500 70) [getStep] []].

(** Three runs that passed their only step in 50, 60 and 70 ms. *)
Definition scenarioRuns : list TestData.t :=
  [testDataFor (constEnv 200 50) [getStep] [];
   testDataFor (constEnv 200 60) [getStep] [];
   testDataFor (constEnv 200 70) [getStep] []].

(** The step [getStep] under another name, the argument of [addStep]
    that registers it, and the run of a virtual user that passes steps
    of these names, each in 50 ms. *)
Definition stepNamed (name : string) : Step.t :=
  {| Step.name := name;
     Step.isHttps := false;
     Step.method := "get";
     Step.url := "https://www.google.com";
     Step.body := None;
     Step.headers := jsonHeaders;
     Step.expectedResponseCode := 200;
     Step.assertionFunction := defaultAssertionFunction;
     Step.sleepBeforeNextStepInMs := 0 |}.

Definition paramsNamed (name : string) : StepParams :=
  {| p_name := Some name;
     p_isHttps := None;
     p_method := Some "get";
     p_url := Some "https://www.google.com";
     p_body := None;
     p_headers := None;
     p_expectedResponseCode := Some 200;
     p_assertionFunction := None;
     p_sleepBeforeNextStepInMs := None |}.

Definition passedRunOf (names : list string) : TestData.t :=
  testDataFor (constEnv 200 50) (map stepNamed names) [].

(** The run of a virtual user that meets a 500 at its only step. *)
Definition failedRunOn (name : string) : TestData.t :=
  testDataFor (constEnv 500 50) [stepNamed name] [].

(** A step that pauses 7 ms, and a step that expects 201 and would
    pause 9 ms. *)
Definition listStep : Step.t :=
  {| Step.name := "List";
     Step.isHttps := false;
     Step.method := "get";
     Step.url := "http://localhost/items";
     Step.body := None;
     Step.headers := jsonHeaders;
     Step.expectedResponseCode := 200;
     Step.assertionFunction := defaultAssertionFunction;
     Step.sleepBeforeNextStepInMs := 7 |}.

Definition createStep : Step.t :=
  {| Step.name := "Create";
     Step.isHttps := false;
     Step.method := "post";
     Step.url := "http://localhost/items";
     Step.body := Some "{}";
     Step.headers := jsonHeaders;
     Step.expectedResponseCode := 201;
     Step.assertionFunction := defaultAssertionFunction;
     Step.sleepBeforeNextStepInMs := 9 |}.

(** [createStep] with the number 0 as its body. *)
Definition zeroBodyStep : Step.t :=
  {| Step.name := "Create";
     Step.isHttps := false;
     Step.method := "post";
     Step.url := "http://localhost/items";
     Step.body := Some "0";
     Step.headers := jsonHeaders;
     Step.expectedResponseCode := 201;
     Step.assertionFunction := defaultAssertionFunction;
     Step.sleepBeforeNextStepInMs := 9 |}.

(** ** Notions used in the further properties *)

(** *** Registration *)

(** What [addStep] asks of its argument. *)
Definition acceptable (params : StepParams) : Prop :=
  missing (p_name params) = false
  /\ missing (p_url params) = false
  /\ 0 <= default 0 (p_sleepBeforeNextStepInMs params)
  /\ (exists code, p_expectedResponseCode params = Some code /\ 100 <= code < 600)
  /\ (exists method, p_method params = Some method /\ In method allowedMethods).

(** The step [addStep] stores for an acceptable argument. *)
Definition registeredStep (params : StepParams) : Step.t :=
  {| Step.name := default EmptyString (p_name params);
     Step.isHttps := default false (p_isHttps params);
     Step.method := default EmptyString (p_method params);
     Step.url := normalizeUrl (default EmptyString (p_url params))
                   (if default false (p_isHttps params) then "https" else "http");
     Step.body := p_body params;
     Step.headers := objectAssign jsonHeaders (default [] (p_headers params));
     Step.expectedResponseCode := default 0 (p_expectedResponseCode params);
     Step.assertionFunction :=
       default defaultAssertionFunction (p_assertionFunction params);
     Step.sleepBeforeNextStepInMs := default 0 (p_sleepBeforeNextStepInMs params) |}.

(** A step given three headers of its own: one named by an array
    index, one that replaces a JSON default, and [__proto__]. *)
Definition indexedHeaderParams : StepParams :=
  {| p_name := Some "Get";
     p_isHttps := None;
     p_method := Some "get";
     p_url := Some "http://localhost/items";
     p_body := None;
     p_headers := Some [("2", "two"); ("X-B", "b"); ("Content-Type", "text/plain");
                        ("__proto__", "p")];
     p_expectedResponseCode := Some 200;
     p_assertionFunction := None;
     p_sleepBeforeNextStepInMs := None |}.

(** [obj[k]]: the value of the property [k], [None] when there is none. *)
Fixpoint propOf (k : string) (obj : list (string * string)) : option string :=
  match obj with
  | [] => None
  | (k', v) :: rest => if String.eqb k k' then Some v else propOf k rest
  end.

(** *** The dictionaries of the report *)

(** The key [hasOwnProperty] is followed by another key: the dictionary
    built over [keys] is asked [hasOwnProperty] after a number was
    stored under that name. *)
Definition shadowedCall (keys : list string) : Prop :=
  exists before next after,
    keys = (before ++ "hasOwnProperty" :: next :: after)%list.

(** The step names of the first run, and the names the failed runs are
    counted under. *)
Definition firstRunNames (testsData : list TestData.t) : list string :=
  match testsData with
  | [] => []
  | first :: _ => map stepNameOf (TestData.stepsData first)
  end.

Definition failedNames (testsData : list TestData.t) : list string :=
  omap failedStepName (testsThatFailed testsData).

(** *** Events *)

Definition isRequest (e : Event) : bool :=
  match e with EvRequest _ => true | _ => false end.

Definition isSleep (e : Event) : bool :=
  match e with EvSleep _ => true | _ => false end.

(** *** Sums of rationals *)

Definition sumQc (qs : list Qc) : Qc := fold_right Qcplus 0%Qc qs.

(** The rational of a natural number. *)
Definition natQc (n : nat) : Qc := Q2Qc (inject_Z (Z.of_nat n)).

(** A number that is finite and lies between [lo] and [hi]. *)
Definition finiteWithin (lo hi : Z) (x : jsnum) : Prop :=
  exists q, x = Fin q /\ (Q2Qc (inject_Z lo) <= q)%Qc /\ (q <= Q2Qc (inject_Z hi))%Qc.

(** The elapsed times of a run all lie between [lo] and [hi], and there
    is at least one. *)
Definition timesWithin (lo hi : Z) (testData : TestData.t) : Prop :=
  TestData.stepsData testData <> []
  /\ Forall (fun stepData => lo <= timeOf stepData <= hi) (TestData.stepsData testData).

(** * Properties *)

(** ** Laws of promise chains *)

Section ChainLaws.
Context {S : Type}.

Lemma then_resolve_l {A B} (a : A) (f : A -> Chain S B) s :
  then_ (resolve a) f s = f a s.
Proof. reflexivity. Qed.

Lemma then_assoc {A B C} (p : Chain S A) (f : A -> Chain S B) (g : B -> Chain S C) s :
  then_ (then_ p f) g s = then_ p (fun a => then_ (f a) g) s.
Proof. unfold then_. destruct (p s) as [[a|e] s']; reflexivity. Qed.

Lemma then_ext {A B} (p : Chain S A) (f g : A -> Chain S B) s :
  (forall a s', f a s' = g a s') -> then_ p f s = then_ p g s.
Proof. intros H. unfold then_. destruct (p s) as [[a|e] s']; auto. Qed.

Lemma then_rejected {A B} (p : Chain S A) (f : A -> Chain S B) s e s' :
  p s = (Rejected e, s') -> then_ p f s = (Rejected e, s').
Proof. intros H. unfold then_. rewrite H. reflexivity. Qed.

Lemma then_fulfilled {A B} (p : Chain S A) (f : A -> Chain S B) s a s' :
  p s = (Fulfilled a, s') -> then_ p f s = f a s'.
Proof. intros H. unfold then_. rewrite H. reflexivity. Qed.
End ChainLaws.

(** ** What one step resolves to *)

Lemma runStep_eq env step w :
  runStep env step w =
  (Fulfilled (stepDataFor env w step (responseIn env w step)),
   (w ++ requestEvents step (responseIn env w step))%list).
Proof.
  unfold runStep, withLocal, stepDataFor, checksReject, responseIn, requestEvents,
    openHttpRequest.
  change (deleteFalsyData (requestParams step)) with (requestOf step).
  generalize (requestOf step). intros cfg.
  unfold then_, catch_, tap, then_, inWorld, onLocal, getLocal, get, emit, modify, resolve.
  cbn.
  destruct (axios env w cfg) as [r | [r|]]; cbn;
    rewrite <- ?app_assoc; cbn.
  - unfold assertStatusCode.
    destruct (status r =? Step.expectedResponseCode step); cbn.
    + unfold applyUserAssertions.
      destruct (Step.assertionFunction step (Some r)); reflexivity.
    + reflexivity.
  - unfold assertStatusCode.
    destruct (status r =? Step.expectedResponseCode step); cbn.
    + unfold applyUserAssertions.
      destruct (Step.assertionFunction step (Some r)); reflexivity.
    + reflexivity.
  - reflexivity.
Qed.

(** [runStep] never rejects. *)
Lemma runStep_fulfils env step w :
  exists stepData w', runStep env step w = (Fulfilled stepData, w').
Proof. rewrite runStep_eq. eauto. Qed.

(** ** What one virtual user resolves to *)

Lemma reduce_chainStep env steps : forall (p : Chain (World * TestData.t) unit) s,
  fold_left (chainStep env) steps p s = then_ p (fun _ => stepsChain env steps) s.
Proof.
  induction steps as [|step rest IH]; intros p s; cbn [fold_left stepsChain].
  - unfold then_, resolve. destruct (p s) as [[[]|e] s']; reflexivity.
  - rewrite IH. unfold chainStep. rewrite then_assoc.
    apply then_ext. intros [] s'. rewrite (then_assoc (resolve tt)). reflexivity.
Qed.

Lemma stepsChain_walk env steps : forall w testData,
  exists r,
    stepsChain env steps (w, testData) =
      (r, (snd (fst (walk env steps w)),
           withStepsData testData
             (TestData.stepsData testData ++ fst (fst (walk env steps w)))%list))
    /\ (snd (walk env steps w) = true -> r = Fulfilled tt)
    /\ (snd (walk env steps w) = false ->
        exists stepData, last (fst (fst (walk env steps w))) = Some stepData
                         /\ r = Rejected (abortReason stepData)).
Proof.
  induction steps as [|step rest IH]; intros w testData; cbn [stepsChain walk].
  - exists (Fulfilled tt). cbn. rewrite app_nil_r. destruct testData. repeat split; auto; discriminate.
  - unfold chainStep, then_ at 1 2 3 4, tap, then_ at 1 2, inWorld at 1, resolve.
    rewrite runStep_eq. cbn [storeStepData onLocal modify].
    set (res := responseIn env w step).
    set (stepData := stepDataFor env w step res).
    unfold abortTestIfNecessary.
    destruct (StepData.succeeded stepData) eqn:Hok.
    + cbn [resolve inWorld sleep emit modify].
      match goal with
      | |- context [stepsChain env rest (?w1, ?td1)] =>
          destruct (IH w1 td1) as (r & Hr & Ht & Hf); rewrite Hr
      end.
      destruct (walk env rest _) as [[more w'] ok] eqn:Hw. cbn in *.
      exists r. rewrite <- app_assoc. cbn. split; [reflexivity|]. split; [auto|].
      intros Hfalse. destruct (Hf Hfalse) as (sd & Hlast & ->).
      exists sd. split; [|reflexivity].
      destruct more; [discriminate|]. exact Hlast.
    + cbn. eexists. split; [reflexivity|]. split; [discriminate|eauto].
Qed.

Lemma runTest_eq env steps w :
  steps <> [] ->
  runTest env steps w = (Fulfilled (testDataFor env steps w), snd (fst (walk env steps w))).
Proof.
  intros Hne. unfold runTest.
  destruct steps as [|step rest]; [congruence|]. clear Hne.
  replace (Z.of_nat (length (step :: rest)) <? 1) with false
    by (symmetry; apply Z.ltb_ge; cbn [length]; lia).
  unfold withLocal, then_ at 1, catch_.
  rewrite reduce_chainStep. rewrite then_resolve_l.
  destruct (stepsChain_walk env (step :: rest) w (newTestData env)) as (r & Hr & Ht & Hf).
  rewrite Hr. unfold testDataFor.
  destruct (walk env (step :: rest) w) as [[stepsData w'] ok]. cbn in Ht, Hf |- *.
  destruct ok.
  - rewrite (Ht eq_refl). reflexivity.
  - destruct (Hf eq_refl) as (sd & Hlast & ->). cbn. rewrite Hlast. reflexivity.
Qed.

(** A virtual user with at least one step always resolves. *)
Lemma runTest_fulfils env steps w :
  steps <> [] -> exists testData w', runTest env steps w = (Fulfilled testData, w').
Proof. intros H. rewrite (runTest_eq env steps w H). eauto. Qed.

(** *** The shape of a run *)

Lemma walk_shape env steps : forall w stepsData w' ok,
  walk env steps w = (stepsData, w', ok) ->
  map StepData.step stepsData = take (length stepsData) steps
  /\ (ok = true -> Forall stepOk stepsData /\ length stepsData = length steps)
  /\ (ok = false ->
      exists before stepData,
        stepsData = (before ++ [stepData])%list
        /\ Forall stepOk before /\ StepData.succeeded stepData = false).
Proof.
  induction steps as [|step rest IH]; intros w stepsData w' ok; cbn [walk].
  - intros [= <- <- <-]. repeat split; auto; discriminate.
  - set (res := responseIn env w step).
    destruct (StepData.succeeded (stepDataFor env w step res)) eqn:Hok.
    + destruct (walk env rest _) as [[more w''] ok'] eqn:Hw.
      intros [= <- <- <-].
      destruct (IH _ _ _ _ Hw) as (Hpre & Ht & Hf).
      split; [cbn; f_equal; exact Hpre|]. split.
      * intros ->. destruct (Ht eq_refl) as [Hall Hlen].
        split; [constructor; assumption | cbn; congruence].
      * intros ->. destruct (Hf eq_refl) as (before & sd & -> & Hall & Hsd).
        exists (stepDataFor env w step res :: before), sd.
        repeat split; auto.
    + intros [= <- <- <-]. split; [reflexivity|]. split; [discriminate|].
      intros _. exists [], (stepDataFor env w step res). repeat split; auto.
Qed.

Lemma walk_nonempty env step rest w : fst (fst (walk env (step :: rest) w)) <> [].
Proof.
  cbn [walk]. destruct (StepData.succeeded _); [|discriminate].
  destruct (walk env rest _) as [[more w'] ok]. discriminate.
Qed.

Lemma runTest_inv env steps w testData w' :
  runTest env steps w = (Fulfilled testData, w') ->
  steps <> [] /\ walk env steps w = (TestData.stepsData testData, w', TestData.succeeded testData).
Proof.
  intros H. destruct steps as [|step rest]; [discriminate|].
  split; [discriminate|].
  rewrite runTest_eq in H by discriminate. unfold testDataFor in H.
  destruct (walk env (step :: rest) w) as [[sds w1] ok].
  injection H as <- <-. reflexivity.
Qed.

Lemma walk_app env before : forall w stepsData w1 rest,
  walk env before w = (stepsData, w1, true) ->
  walk env (before ++ rest) w =
    let '(more, w2, ok) := walk env rest w1 in ((stepsData ++ more)%list, w2, ok).
Proof.
  induction before as [|step before IH]; intros w stepsData w1 rest; cbn [walk app].
  - intros [= <- <-]. destruct (walk env rest w) as [[more w2] ok]. reflexivity.
  - destruct (StepData.succeeded _); [|discriminate].
    destruct (walk env before _) as [[sds wb] okb] eqn:Hw.
    intros [= <- <- ->]. rewrite (IH _ _ _ rest Hw).
    destruct (walk env rest wb) as [[more w2] ok]. reflexivity.
Qed.

Lemma stepEvents_passed stepData res :
  StepData.succeeded stepData = true ->
  stepEvents stepData res =
    (requestEvents (StepData.step stepData) res
     ++ [EvSleep (Step.sleepBeforeNextStepInMs (StepData.step stepData))])%list.
Proof. intros H. unfold stepEvents. rewrite H. reflexivity. Qed.

Lemma stepEvents_failed stepData res :
  StepData.succeeded stepData = false ->
  stepEvents stepData res = requestEvents (StepData.step stepData) res.
Proof. intros H. unfold stepEvents. rewrite H. apply app_nil_r. Qed.

Lemma walk_trace env steps : forall w stepsData w' ok,
  walk env steps w = (stepsData, w', ok) ->
  exists responses,
    length responses = length stepsData
    /\ w' = (w ++ concat (zip_with stepEvents stepsData responses))%list.
Proof.
  induction steps as [|step rest IH]; intros w stepsData w' ok; cbn [walk].
  - intros [= <- <- <-]. exists []. cbn. rewrite app_nil_r. auto.
  - set (res := responseIn env w step).
    destruct (StepData.succeeded (stepDataFor env w step res)) eqn:Hok.
    + destruct (walk env rest _) as [[more w''] ok'] eqn:Hw.
      intros [= <- <- <-].
      destruct (IH _ _ _ _ Hw) as (responses & Hlen & ->).
      exists (res :: responses). cbn [length zip_with concat].
      split; [congruence|].
      rewrite (stepEvents_passed _ _ Hok). cbn [StepData.step stepDataFor].
      rewrite <- !app_assoc. reflexivity.
    + intros [= <- <- <-]. exists [res]. cbn [length zip_with concat].
      split; [reflexivity|].
      rewrite (stepEvents_failed _ _ Hok). cbn [StepData.step stepDataFor].
      rewrite !app_nil_r. reflexivity.
Qed.

(** *** Properties of one virtual user *)

(** C2, as the code has it: a virtual user with at least one step
    resolves to a test run; the number of its step results never exceeds
    the number of registered steps, the results are those of the first
    registered steps in order, a run that succeeded has one result per
    registered step, a run with fewer results has failed, and a failed
    run ends with the result of the step that failed, whose position is
    thus the number of results (all of them when the last registered step
    is the one that failed). *)
Theorem runTest_stepsData_length env steps w :
  steps <> [] ->
  exists testData w',
    runTest env steps w = (Fulfilled testData, w')
    /\ let stepsData := TestData.stepsData testData in
       (length stepsData <= length steps)%nat
       /\ map StepData.step stepsData = take (length stepsData) steps
       /\ (TestData.succeeded testData = true -> length stepsData = length steps)
       /\ (length stepsData < length steps -> TestData.succeeded testData = false)%nat
       /\ (TestData.succeeded testData = false ->
           exists stepData,
             last stepsData = Some stepData
             /\ StepData.succeeded stepData = false
             /\ steps !! (length stepsData - 1)%nat = Some (StepData.step stepData)).
Proof.
  intros Hne. destruct (runTest_fulfils env steps w Hne) as (testData & w' & H).
  exists testData, w'. split; [exact H|]. intros stepsData.
  apply runTest_inv in H as [_ Hw].
  destruct (walk_shape _ _ _ _ _ _ Hw) as (Hpre & Ht & Hf). fold stepsData in Hpre, Ht, Hf.
  assert (Hle : (length stepsData <= length steps)%nat).
  { apply (f_equal length) in Hpre. rewrite length_map, length_take in Hpre. lia. }
  split; [exact Hle|]. split; [exact Hpre|]. split; [intros Hs; apply Ht, Hs|]. split.
  - intros Hlt. destruct (TestData.succeeded testData); [|reflexivity].
    destruct (Ht eq_refl) as [_ Heq]. lia.
  - intros Hs. destruct (Hf Hs) as (before & sd & Heq & Hall & Hsd).
    exists sd. split; [rewrite Heq; apply last_snoc|]. split; [exact Hsd|].
    assert (Hlook : map StepData.step stepsData !! (length stepsData - 1)%nat
                    = Some (StepData.step sd)).
    { rewrite list_lookup_fmap, Heq, length_app. cbn [length].
      replace (length before + 1 - 1)%nat with (length before) by lia.
      rewrite list_lookup_middle by reflexivity. reflexivity. }
    rewrite Hpre in Hlook. rewrite lookup_take_lt in Hlook; [exact Hlook|].
    rewrite Heq, length_app. cbn [length]. lia.
Qed.

(** C3: a virtual user with at least one step resolves to a test run
    that has at least one step result; the run is marked failed
    exactly when its last step result is, and in a failed run every step
    result before the last one succeeded. *)
Theorem testData_failed_iff_last_failed env steps w :
  steps <> [] ->
  exists testData w' before lastStepData,
    runTest env steps w = (Fulfilled testData, w')
    /\ TestData.stepsData testData = (before ++ [lastStepData])%list
    /\ (TestData.succeeded testData = false <-> StepData.succeeded lastStepData = false)
    /\ (TestData.succeeded testData = false -> Forall stepOk before).
Proof.
  intros Hne. destruct (runTest_fulfils env steps w Hne) as (testData & w' & H).
  exists testData, w'.
  enough (exists before lastStepData,
            TestData.stepsData testData = (before ++ [lastStepData])%list
            /\ (TestData.succeeded testData = false
                <-> StepData.succeeded lastStepData = false)
            /\ (TestData.succeeded testData = false -> Forall stepOk before))
    as (before & lastStepData & Hshape) by (exists before, lastStepData; auto).
  apply runTest_inv in H as [_ Hw].
  destruct (walk_shape _ _ _ _ _ _ Hw) as (_ & Ht & Hf).
  destruct (TestData.succeeded testData) eqn:Hs.
  - destruct (Ht eq_refl) as [Hall Hlen].
    destruct (TestData.stepsData testData) as [|sd sds] using rev_ind.
    + destruct steps; [congruence | discriminate].
    + exists sds, sd. split; [reflexivity|].
      destruct (proj1 (Forall_app stepOk sds [sd]) Hall) as [_ Hsd].
      inversion Hsd as [|? ? Hlast _]; subst. unfold stepOk in Hlast.
      split; [split; congruence | discriminate].
  - destruct (Hf eq_refl) as (before & sd & Heq & Hall & Hsd).
    exists before, sd. split; [exact Heq|]. split; [split; auto | auto].
Qed.

(** C8: a virtual user with at least one step resolves to a test run,
    and the events of the virtual user are those of its step results, one
    step after the other in the order of registration: the request of a
    step, its answer, then the pause configured for the step when it
    passed and nothing when it failed; only the last step result can be a
    failed one, so nothing follows a failed step and every later step
    starts after the pause of the step before it. *)
Theorem runTest_steps_in_sequence env steps w :
  steps <> [] ->
  exists testData w' responses,
    runTest env steps w = (Fulfilled testData, w')
    /\ let stepsData := TestData.stepsData testData in
       length responses = length stepsData
       /\ w' = (w ++ concat (zip_with stepEvents stepsData responses))%list
       /\ map StepData.step stepsData = take (length stepsData) steps
       /\ (forall i stepData,
             stepsData !! i = Some stepData ->
             StepData.succeeded stepData = false ->
             S i = length stepsData
             /\ forall res, stepEvents stepData res
                            = requestEvents (StepData.step stepData) res).
Proof.
  intros Hne. destruct (runTest_fulfils env steps w Hne) as (testData & w' & H).
  exists testData, w'.
  enough (let stepsData := TestData.stepsData testData in
          exists responses,
            length responses = length stepsData
            /\ w' = (w ++ concat (zip_with stepEvents stepsData responses))%list
            /\ map StepData.step stepsData = take (length stepsData) steps
            /\ (forall i stepData,
                  stepsData !! i = Some stepData ->
                  StepData.succeeded stepData = false ->
                  S i = length stepsData
                  /\ forall res, stepEvents stepData res
                                 = requestEvents (StepData.step stepData) res))
    as (responses & Hrest) by (exists responses; split; [exact H | exact Hrest]).
  intros stepsData. apply runTest_inv in H as [_ Hw].
  destruct (walk_trace _ _ _ _ _ _ Hw) as (responses & Hlen & Hw').
  destruct (walk_shape _ _ _ _ _ _ Hw) as (Hpre & Ht & Hf).
  exists responses. split; [exact Hlen|]. split; [exact Hw'|]. split; [exact Hpre|].
  intros i sd Hi Hsd. split.
  - destruct (TestData.succeeded testData).
    + destruct (Ht eq_refl) as [Hall _].
      rewrite Forall_lookup in Hall. specialize (Hall _ _ Hi).
      unfold stepOk in Hall. congruence.
    + destruct (Hf eq_refl) as (before & sd' & Heq & Hall & _).
      unfold stepsData in Hi |- *. rewrite Heq in Hi |- *.
      rewrite length_app. cbn [length].
      destruct (decide (i < length before)%nat) as [Hlt|Hge].
      * rewrite lookup_app_l in Hi by exact Hlt.
        rewrite Forall_lookup in Hall. specialize (Hall _ _ Hi).
        unfold stepOk in Hall. congruence.
      * apply lookup_lt_Some in Hi. rewrite length_app in Hi. cbn [length] in Hi. lia.
  - intros res. apply stepEvents_failed, Hsd.
Qed.

(** Two steps, the second expects 201 and gets 200: two step results,
    the pause of the first step and none after the second. *)
Example scenario_second_step_fails :
  exists testData first second,
    runTest (constEnv 200 50) [listStep; createStep] []
    = (Fulfilled testData,
       [EvRequest (requestOf listStep); EvResponse (Some (okResponse 200)); EvSleep 7;
        EvRequest (requestOf createStep); EvResponse (Some (okResponse 200))])
    /\ TestData.stepsData testData = [first; second]
    /\ StepData.succeeded first = true
    /\ StepData.succeeded second = false
    /\ TestData.succeeded testData = false.
Proof. eexists _, _, _. repeat split; reflexivity. Qed.

Lemma runTest_stepsData_length_witness :
  [getStep; getStep] <> []
  /\ exists testData w',
      runTest (constEnv 500 50) [getStep; getStep] [] = (Fulfilled testData, w')
      /\ (length (TestData.stepsData testData) <= length [getStep; getStep])%nat
      /\ (length (TestData.stepsData testData) < length [getStep; getStep]
          -> TestData.succeeded testData = false)%nat.
Proof.
  assert (Hne : [getStep; getStep] <> []) by discriminate.
  split; [exact Hne|].
  destruct (runTest_stepsData_length (constEnv 500 50) [getStep; getStep] [] Hne)
    as (testData & w' & Hrun & Hle & _ & _ & Hlt & _).
  exists testData, w'. repeat split; assumption.
Defined.

(** C2 as the specification words it fails: a run whose last registered
    step fails has as many step results as there are steps, and is not a
    run that succeeded. *)
Lemma stepsData_full_length_of_failed_run :
  ~ (forall env steps w testData w',
       runTest env steps w = (Fulfilled testData, w') ->
       (length (TestData.stepsData testData) <= length steps)%nat
       /\ (length (TestData.stepsData testData) = length steps
           <-> TestData.succeeded testData = true)).
Proof.
  intros H.
  destruct (H (constEnv 500 50) [getStep] []
              (testDataFor (constEnv 500 50) [getStep] [])
              (requestEvents getStep (Some (okResponse 500))) eq_refl) as [_ [Hlen _]].
  specialize (Hlen eq_refl). discriminate Hlen.
Qed.

Lemma testData_failed_iff_last_failed_witness :
  [getStep; getStep] <> []
  /\ exists testData w' before lastStepData,
      runTest deadEnv [getStep; getStep] [] = (Fulfilled testData, w')
      /\ TestData.stepsData testData = (before ++ [lastStepData])%list
      /\ (TestData.succeeded testData = false
          <-> StepData.succeeded lastStepData = false).
Proof.
  assert (Hne : [getStep; getStep] <> []) by discriminate.
  split; [exact Hne|].
  destruct (testData_failed_iff_last_failed deadEnv [getStep; getStep] [] Hne)
    as (testData & w' & before & lastStepData & Hrun & Hshape & Hiff & _).
  exists testData, w', before, lastStepData. repeat split; try assumption; apply Hiff.
Defined.

Lemma runTest_steps_in_sequence_witness :
  [listStep; createStep] <> []
  /\ exists testData w' responses,
      runTest (constEnv 200 50) [listStep; createStep] [] = (Fulfilled testData, w')
      /\ length responses = length (TestData.stepsData testData)
      /\ w' = ([] ++ concat (zip_with stepEvents (TestData.stepsData testData)
                                      responses))%list.
Proof.
  assert (Hne : [listStep; createStep] <> []) by discriminate.
  split; [exact Hne|].
  destruct (runTest_steps_in_sequence (constEnv 200 50) [listStep; createStep] [] Hne)
    as (testData & w' & responses & Hrun & Hlen & Hw & _).
  exists testData, w', responses. repeat split; assumption.
Defined.

(** *** Properties of the transport ([openHttpRequest], [runStep]) *)

(** C4 as the specification words it fails: axios rejects on a 404, the
    error carries the response, and the step that expected 404 passes
    with the status code 404 recorded. *)
Lemma rejected_request_with_response_passes :
  axios (constEnv 404 50) [] (requestOf notFoundStep)
  = AxiosRejected (Some (okResponse 404))
  /\ exists stepData w',
      runStep (constEnv 404 50) notFoundStep [] = (Fulfilled stepData, w')
      /\ StepData.succeeded stepData = true
      /\ StepData.responseStatusCode stepData = Some 404.
Proof.
  split; [reflexivity|].
  eexists _, _. split; [reflexivity|]. split; reflexivity.
Qed.

(** C4, as the code has it.  When axios rejects with an error that
    carries no response (connection refused), [openHttpRequest] resolves
    with no response, the step resolves to a failed step result with no
    status code, and a virtual user that reaches this step after passing
    the steps [before] it resolves to a failed test run that ends with
    that step result: no pause, no later step.  When the error carries a
    response, the step is run as if axios had fulfilled with it.  Neither
    the step nor a virtual user with at least one step ever rejects. *)
Theorem runStep_transport_rejection env step w :
  (axios env w (requestOf step) = AxiosRejected None ->
   exists stepData,
     runStep env step w = (Fulfilled stepData, (w ++ requestEvents step None)%list)
     /\ StepData.succeeded stepData = false
     /\ StepData.responseStatusCode stepData = None
     /\ is_Some (StepData.error stepData)
     /\ (forall w0 before after stepsData,
           walk env before w0 = (stepsData, w, true) ->
           exists testData,
             runTest env (before ++ step :: after) w0
             = (Fulfilled testData, (w ++ requestEvents step None)%list)
             /\ TestData.stepsData testData = (stepsData ++ [stepData])%list
             /\ TestData.succeeded testData = false
             /\ TestData.error testData
                = Some ("Test " ++ quoted "undefined" ++ " failed: "
                        ++ abortReason stepData)))
  /\ (forall r,
        axios env w (requestOf step) = AxiosRejected (Some r) ->
        runStep env step w
        = (Fulfilled (stepDataFor env w step (Some r)),
           (w ++ requestEvents step (Some r))%list)
        /\ StepData.responseStatusCode (stepDataFor env w step (Some r))
           = Some (status r))
  /\ (exists stepData w', runStep env step w = (Fulfilled stepData, w'))
  /\ (forall steps, steps <> [] ->
        exists testData w', runTest env steps w = (Fulfilled testData, w')).
Proof.
  split; [|split; [|split]].
  - intros Hax.
    assert (Hres : responseIn env w step = None) by (unfold responseIn; rewrite Hax; reflexivity).
    exists (stepDataFor env w step None).
    split; [rewrite runStep_eq, Hres; reflexivity|].
    split; [reflexivity|]. split; [reflexivity|]. split; [cbn; eauto|].
    intros w0 before after stepsData Hwalk.
    eexists. rewrite runTest_eq by (destruct before; discriminate).
    unfold testDataFor. rewrite (walk_app _ _ _ _ _ (step :: after) Hwalk).
    cbn [walk]. rewrite Hres. cbn [StepData.succeeded stepDataFor checksReject].
    cbn [fst snd TestData.stepsData TestData.succeeded TestData.error].
    rewrite last_snoc. repeat split; reflexivity.
  - intros r Hax.
    assert (Hres : responseIn env w step = Some r) by (unfold responseIn; rewrite Hax; reflexivity).
    rewrite runStep_eq, Hres. split; reflexivity.
  - apply runStep_fulfils.
  - intros steps Hne. apply runTest_fulfils, Hne.
Qed.

Lemma runStep_transport_rejection_witness :
  axios deadEnv [] (requestOf getStep) = AxiosRejected None
  /\ exists stepData,
      runStep deadEnv getStep [] = (Fulfilled stepData, ([] ++ requestEvents getStep None)%list)
      /\ StepData.succeeded stepData = false
      /\ StepData.responseStatusCode stepData = None.
Proof.
  split; [reflexivity|].
  destruct (proj1 (runStep_transport_rejection deadEnv getStep []) eq_refl)
    as (stepData & Hrun & Hfail & Hcode & _).
  exists stepData. repeat split; assumption.
Defined.

(** ** The wave scheduler *)

Lemma virtualUser_eq lenv steps m k i :
  steps <> [] ->
  virtualUser lenv steps m k i = Fulfilled (userTestData lenv steps m k i).
Proof.
  intros Hne. unfold virtualUser, userTestData, then_, sleep, emit, modify.
  cbn [app]. rewrite runTest_eq by exact Hne. reflexivity.
Qed.

Lemma promiseAll_fulfilled {A B} (f : B -> Settled A) (g : B -> A) (l : list B) :
  (forall b, f b = Fulfilled (g b)) ->
  promiseAll (map f l) = Fulfilled (map g l).
Proof.
  intros H. induction l as [|b l IH]; [reflexivity|].
  cbn [map promiseAll]. rewrite H, IH. reflexivity.
Qed.

Lemma length_waveOf lenv steps n m k : length (waveOf lenv steps n m k) = Z.to_nat n.
Proof. unfold waveOf, addFieldRepetition. rewrite !length_map, length_seq. reflexivity. Qed.

Lemma length_concat_waves lenv steps n m (ks : list Z) :
  length (concat (map (waveOf lenv steps n m) ks)) = (length ks * Z.to_nat n)%nat.
Proof.
  induction ks as [|k ks IH]; [reflexivity|].
  cbn [map concat length]. rewrite length_app, length_waveOf, IH. lia.
Qed.

Lemma repetitionsFrom_S first count :
  repetitionsFrom first (S count) = first :: repetitionsFrom (first + 1) count.
Proof.
  unfold repetitionsFrom. cbn [seq map]. f_equal; [lia|].
  rewrite <- seq_shift, map_map. apply map_ext. intros j. lia.
Qed.

Lemma runLoadTestFrom_waves lenv steps n r m :
  steps <> [] -> 1 <= n -> 1 <= r -> 0 <= m ->
  forall fuel currentRepetition testDataAccumulator,
    Z.of_nat fuel = r - currentRepetition + 1 ->
    runLoadTestFrom fuel lenv steps n r m currentRepetition testDataAccumulator
    = Some (Returns (Fulfilled
        (testDataAccumulator
         ++ concat (map (waveOf lenv steps n m)
                        (repetitionsFrom currentRepetition fuel)))%list)).
Proof.
  intros Hne Hn Hr Hm.
  assert (Hn' : (n <? 1) = false) by (apply Z.ltb_ge; lia).
  assert (Hr' : (r <? 1) = false) by (apply Z.ltb_ge; lia).
  assert (Hm' : (m <? 0) = false) by (apply Z.ltb_ge; lia).
  induction fuel as [|fuel IH]; intros cr acc Hfuel;
    cbn [runLoadTestFrom]; rewrite Hn', Hr', Hm'.
  - replace (cr >? r) with true by (symmetry; apply Z.gtb_lt; lia).
    cbn. rewrite app_nil_r. reflexivity.
  - replace (cr >? r) with false
      by (symmetry; rewrite Z.gtb_ltb; apply Z.ltb_ge; lia).
    rewrite (promiseAll_fulfilled _ (userTestData lenv steps m cr))
      by (intros i; apply virtualUser_eq, Hne).
    rewrite IH by lia.
    rewrite repetitionsFrom_S. cbn [map concat].
    rewrite <- app_assoc. reflexivity.
Qed.

(** [runLoadTest] never runs out of fuel. *)
Lemma runLoadTest_total lenv steps config : is_Some (runLoadTest lenv steps config).
Proof.
  unfold runLoadTest.
  generalize (default 64 (numOfThreads config)), (default 1 (numOfRepetitions config)),
    (default 8000 (maxTimeBeforeStartingInMs config)). intros n r m.
  assert (H : forall fuel cr acc, Z.of_nat fuel >= r - cr + 1 ->
                is_Some (runLoadTestFrom fuel lenv steps n r m cr acc)).
  { induction fuel as [|fuel IH]; intros cr acc Hfuel; cbn [runLoadTestFrom].
    - destruct (n <? 1); [eauto|]. destruct (r <? 1); [eauto|]. destruct (m <? 0); [eauto|].
      replace (cr >? r) with true by (symmetry; apply Z.gtb_lt; lia). eauto.
    - destruct (n <? 1); [eauto|]. destruct (r <? 1); [eauto|]. destruct (m <? 0); [eauto|].
      destruct (cr >? r); [eauto|].
      destruct (promiseAll _); [|eauto].
      destruct (IH (cr + 1) (acc ++ addFieldRepetition a cr)%list ltac:(lia)) as [[msg|p] ->];
        eauto. }
  apply H. lia.
Qed.

(** C1: with at least one registered step and a valid configuration
    (the defaults standing for what is omitted), [runLoadTest] resolves
    to the test runs of the waves 1, 2, ..., [numOfRepetitions] one after
    the other, each wave being the test runs of its [numOfThreads]
    virtual users stamped with the index of the wave; they are
    [numOfThreads * numOfRepetitions] in all. *)
Theorem runLoadTest_count lenv steps config :
  let n := default 64 (numOfThreads config) in
  let r := default 1 (numOfRepetitions config) in
  let m := default 8000 (maxTimeBeforeStartingInMs config) in
  steps <> [] -> 1 <= n -> 1 <= r -> 0 <= m ->
  exists waves,
    runLoadTest lenv steps config = Some (Returns (Fulfilled (concat waves)))
    /\ waves = map (waveOf lenv steps n m) (repetitionsFrom 1 (Z.to_nat r))
    /\ Z.of_nat (length waves) = r
    /\ Forall (fun wave => Z.of_nat (length wave) = n) waves
    /\ Z.of_nat (length (concat waves)) = n * r.
Proof.
  intros n r m Hne Hn Hr Hm.
  exists (map (waveOf lenv steps n m) (repetitionsFrom 1 (Z.to_nat r))).
  split.
  { unfold runLoadTest. fold n r m.
    rewrite (runLoadTestFrom_waves lenv steps n r m Hne Hn Hr Hm) by lia.
    reflexivity. }
  split; [reflexivity|]. split.
  { unfold repetitionsFrom. rewrite !length_map, length_seq. lia. }
  split.
  { apply Forall_forall. intros wave Hin.
    apply list_elem_of_In, in_map_iff in Hin as (k & <- & _). rewrite length_waveOf. lia. }
  rewrite length_concat_waves. unfold repetitionsFrom. rewrite length_map, length_seq. nia.
Qed.

(** Every test run of a wave holds at least one step result, so the
    report can read the last step result of each failed run. *)
Lemma waveOf_runs_have_step_results lenv steps n m k :
  steps <> [] ->
  Forall (fun testData => TestData.stepsData testData <> []) (waveOf lenv steps n m k).
Proof.
  intros Hne. unfold waveOf, addFieldRepetition. rewrite map_map.
  apply Forall_forall. intros testData Hin.
  apply list_elem_of_In, in_map_iff in Hin as (i & <- & _).
  cbn [TestData.stepsData]. unfold userTestData, testDataFor.
  destruct steps as [|step rest]; [congruence|].
  pose proof (walk_nonempty (userEnv lenv k i) step rest
                [EvSleep (getRandomIntUntil lenv k i m)]) as Hwalk.
  destruct (walk _ (step :: rest) _) as [[stepsData w'] ok]. exact Hwalk.
Qed.

Lemma runLoadTest_count_witness :
  exists waves,
    runLoadTest steadyLoad [getStep] smallConfig = Some (Returns (Fulfilled (concat waves)))
    /\ Z.of_nat (length (concat waves)) = 3 * 2.
Proof.
  destruct (runLoadTest_count steadyLoad [getStep] smallConfig)
    as (waves & Hrun & _ & _ & _ & Hlen).
  - discriminate.
  - cbn. lia.
  - cbn. lia.
  - cbn. lia.
  - exists waves. split; [exact Hrun | exact Hlen].
Defined.

(** ** Numbers *)

Lemma ofZ_inj a b : ofZ a = ofZ b -> a = b.
Proof.
  unfold ofZ. intros H.
  apply (f_equal (fun x => match x with Fin q => q | _ => 0%Qc end)) in H.
  apply Q2Qc_eq_iff in H. unfold Qeq in H. cbn in H. lia.
Qed.

Lemma isZero_ofZ z : isZero (Q2Qc (inject_Z z)) = bool_decide (z = 0).
Proof.
  unfold isZero. apply bool_decide_ext. split.
  - intros H. apply ofZ_inj. unfold ofZ. rewrite H. reflexivity.
  - intros ->. reflexivity.
Qed.

Lemma jsdiv_ofZ_ofNat total (n : nat) :
  n <> O -> jsdiv (ofZ total) (ofNat n)
            = Fin (Q2Qc (inject_Z total) / Q2Qc (inject_Z (Z.of_nat n)))%Qc.
Proof.
  intros Hn. unfold jsdiv, ofNat, ofZ. rewrite isZero_ofZ.
  rewrite bool_decide_false by lia. reflexivity.
Qed.

Lemma Fin_eq (a b : Qc) : (this a == this b)%Q -> Fin a = Fin b.
Proof. intros H. f_equal. apply Qc_is_canon, H. Qed.

Lemma computeAvg_nil : computeAvg [] = NaN.
Proof. reflexivity. Qed.

Lemma sum_of_zeros (arr : list jsnum) :
  Forall (fun x => x = ofZ 0) arr ->
  fold_left (fun acc value => jsadd acc value) arr (ofZ 0) = ofZ 0.
Proof.
  induction 1 as [|x arr -> _ IH]; [reflexivity|].
  cbn [fold_left].
  assert (Hsum : jsadd (ofZ 0) (ofZ 0) = ofZ 0).
  { reflexivity. }
  rewrite Hsum. exact IH.
Qed.

Lemma computeAvg_zeros (arr : list jsnum) :
  arr <> [] -> Forall (fun x => x = ofZ 0) arr -> computeAvg arr = ofZ 0.
Proof.
  intros Hne Hall. unfold computeAvg. rewrite (sum_of_zeros arr Hall).
  rewrite jsdiv_ofZ_ofNat by (destruct arr; [congruence | discriminate]).
  unfold ofZ. f_equal. unfold Qcdiv. apply Qcmult_0_l.
Qed.

Lemma truthy_NaN : truthy NaN = false.
Proof. reflexivity. Qed.

Lemma truthy_zero : truthy (ofZ 0) = false.
Proof. unfold truthy, ofZ. rewrite isZero_ofZ. reflexivity. Qed.

Lemma orElse_not_NaN x text : orElse x text <> ShownNumber NaN.
Proof.
  unfold orElse. destruct (truthy x) eqn:Hx; [|discriminate].
  intros [= ->]. discriminate Hx.
Qed.

(** ** The averages of the report *)

Lemma computeAvgResponseTimeForTests_zeros testsData :
  testsData <> [] -> Forall allZeroTimes testsData ->
  computeAvgResponseTimeForTests testsData = ofZ 0.
Proof.
  intros Hne Hall. unfold computeAvgResponseTimeForTests. apply computeAvg_zeros.
  - destruct testsData; [congruence | discriminate].
  - apply Forall_forall. intros x Hx.
    apply list_elem_of_In, in_map_iff in Hx as (testData & <- & Hin).
    rewrite Forall_forall in Hall. destruct (Hall testData) as [Hsteps Hzero].
    { apply list_elem_of_In, Hin. }
    unfold computeAvgResponseTimeForTest. apply computeAvg_zeros.
    + destruct (TestData.stepsData testData); [congruence | discriminate].
    + apply Forall_forall. intros y Hy.
      apply list_elem_of_In, in_map_iff in Hy as (stepData & <- & Hin').
      rewrite Forall_forall in Hzero. rewrite (Hzero stepData); [reflexivity|].
      apply list_elem_of_In, Hin'.
Qed.

Lemma printReport_averages results report :
  printReport results = Some report ->
  avgResponseTime_all report = computeAvgResponseTimeForTests results
  /\ avgResponseTime_successes report
     = orElse (computeAvgResponseTimeForTests (testsThatSucceeded results)) "N/A"
  /\ avgResponseTime_failures report
     = orElse (computeAvgResponseTimeForTests (testsThatFailed results)) "N/A".
Proof.
  unfold printReport. intros H.
  repeat match type of H with
         | mbind _ ?x = Some _ => destruct x; [cbn [mbind option_bind] in H | discriminate H]
         end.
  injection H as <-. cbn. auto.
Qed.

(** Three threads, one repetition, answers in 50, 60 and 70 ms. *)
Example scenario_three_successes :
  exists report,
    printReport scenarioRuns = Some report
    /\ numOfSuccesses report = 3%nat
    /\ numOfFailures report = 0%nat
    /\ errorRate report = ofZ 0
    /\ avgResponseTime_all report = ofZ 60
    /\ stepFailureDistributionMsg report = "N/A"
    /\ errorCodeDistributionMsg report = "N/A".
Proof.
  destruct (printReport scenarioRuns) as [report|] eqn:H; [|vm_compute in H; discriminate H].
  exists report. split; [reflexivity|].
  vm_compute in H. injection H as <-. cbn.
  repeat split; try reflexivity; apply Fin_eq; reflexivity.
Qed.

Lemma printReport_distributions results report :
  printReport results = Some report ->
  generateDistributionReportForErroredSteps (testsThatFailed results)
  = Some (stepFailureDistributionMsg report)
  /\ generateDistributionReportForStatusCode (testsThatFailed results)
     = Some (errorCodeDistributionMsg report)
  /\ computeAvgResponseTimeForEachStep results = Some (avgResponseTime_steps report).
Proof.
  unfold printReport. intros H.
  destruct (match testsThatFailed results with [] => _ | _ => _ end);
    [cbn [mbind option_bind] in H | discriminate H].
  destruct (computeAvgResponseTimeForEachStep results);
    [cbn [mbind option_bind] in H | discriminate H].
  destruct (generateDistributionReportForErroredSteps _);
    [cbn [mbind option_bind] in H | discriminate H].
  destruct (generateDistributionReportForStatusCode _);
    [cbn [mbind option_bind] in H | discriminate H].
  injection H as <-. cbn. auto.
Qed.

(** ** Step registration *)

Lemma normalizeUrl_without_http url protocol :
  includes "http" url = false -> normalizeUrl url protocol = protocol ++ "://" ++ url.
Proof. intros H. unfold normalizeUrl. rewrite H. reflexivity. Qed.

Lemma normalizeUrl_with_http url protocol :
  includes "http" url = true -> normalizeUrl url protocol = url.
Proof. intros H. unfold normalizeUrl. rewrite H. reflexivity. Qed.

(** C9 at [httpbin.org/get]: the URL has no scheme, [addStep] accepts
    it, and the URL is stored as it was given, with no scheme put in
    front of it, because the letters http occur in it. *)
Theorem addStep_httpbin_url_stored_unchanged :
  match addStep httpbinParams [] with
  | inr steps => map Step.url steps
  | inl _ => []
  end = ["httpbin.org/get"]
  /\ normalizeUrl "httpbin.org/get" "http" <> "http://httpbin.org/get".
Proof. split; [reflexivity | discriminate]. Qed.

(** ** The failure distributions *)

Lemma sumCounts_empty : sumCounts ∅ = O.
Proof. apply map_fold_empty. Qed.

Lemma sumCounts_insert_fresh key n (obj : gmap string nat) :
  obj !! key = None -> sumCounts (<[key := n]> obj) = (n + sumCounts obj)%nat.
Proof.
  intros H. unfold sumCounts. rewrite map_fold_insert_L; [reflexivity | | exact H].
  intros. lia.
Qed.

Lemma sumCounts_lookup key n (obj : gmap string nat) :
  obj !! key = Some n -> sumCounts obj = (n + sumCounts (delete key obj))%nat.
Proof.
  intros H. unfold sumCounts. rewrite (map_fold_delete_L _ _ key n obj); [reflexivity | | exact H].
  intros. lia.
Qed.

Lemma sumCounts_oneMore key (obj : gmap string nat) :
  sumCounts (oneMore key obj) = S (sumCounts obj).
Proof.
  unfold oneMore. destruct (obj !! key) as [n|] eqn:H.
  - rewrite (sumCounts_lookup key n obj H).
    rewrite <- insert_delete_eq.
    rewrite sumCounts_insert_fresh by apply lookup_delete_eq. lia.
  - rewrite sumCounts_insert_fresh by exact H. lia.
Qed.

Lemma occurrences_snoc k keys key :
  occurrences k (keys ++ [key])
  = (occurrences k keys + if decide (key = k) then 1 else 0)%nat.
Proof.
  unfold occurrences. rewrite filter_app, length_app. f_equal.
  rewrite filter_cons, filter_nil. destruct (decide (key = k)); reflexivity.
Qed.

Lemma occurrences_pos k keys : k ∈ keys <-> occurrences k keys <> O.
Proof.
  unfold occurrences. split.
  - intros Hin Hz. apply length_zero_iff_nil in Hz.
    assert (Hk : k ∈ filter (fun key => key = k) keys)
      by (apply list_elem_of_filter; auto).
    rewrite Hz in Hk. inversion Hk.
  - intros Hnz. destruct (filter (fun key => key = k) keys) as [|x l] eqn:Hf;
      [cbn in Hnz; congruence|].
    assert (Hx : x ∈ filter (fun key => key = k) keys) by (rewrite Hf; left).
    apply list_elem_of_filter in Hx as [-> Hin]. exact Hin.
Qed.

Lemma countsOf_nil : countsOf [] ∅.
Proof. intros k. rewrite lookup_empty. reflexivity. Qed.

Lemma countsOf_oneMore keys obj key :
  countsOf keys obj -> countsOf (keys ++ [key]) (oneMore key obj).
Proof.
  intros H k. rewrite occurrences_snoc. unfold oneMore.
  pose proof (H key) as Hkey. pose proof (H k) as Hk.
  destruct (decide (key = k)) as [->|Hne].
  - rewrite Hk. destruct (decide (occurrences k keys = O)) as [Hz|Hnz].
    + rewrite lookup_insert_eq, Hz. reflexivity.
    + rewrite lookup_insert_eq.
      destruct (decide _) as [Hz'|_]; [lia|]. f_equal. lia.
  - replace (occurrences k keys + 0)%nat with (occurrences k keys) by lia.
    destruct (obj !! key); rewrite lookup_insert_ne by exact Hne; exact Hk.
Qed.

Lemma oneMore_all keys2 : forall keys1 obj,
  countsOf keys1 obj ->
  countsOf (keys1 ++ keys2) (fold_left (fun acc key => oneMore key acc) keys2 obj)
  /\ sumCounts (fold_left (fun acc key => oneMore key acc) keys2 obj)
     = (length keys2 + sumCounts obj)%nat.
Proof.
  induction keys2 as [|key keys2 IH]; intros keys1 obj H; cbn [fold_left length].
  - rewrite app_nil_r. auto.
  - destruct (IH (keys1 ++ [key])%list (oneMore key obj) (countsOf_oneMore _ _ _ H)) as [Hc Hs].
    rewrite <- app_assoc in Hc. split; [exact Hc|].
    rewrite Hs, sumCounts_oneMore. lia.
Qed.

(** *** The dictionary where no name is special *)

Lemma setNumber_plain {V} key (v : V) (obj : gmap string V) :
  key <> "__proto__" -> setNumber key v obj = <[key := v]> obj.
Proof.
  intros Hne. unfold setNumber.
  destruct (String.eqb_spec key "__proto__"); [contradiction | reflexivity].
Qed.

Lemma setNumber_proto {V} (v : V) (obj : gmap string V) :
  setNumber "__proto__" v obj = obj.
Proof. reflexivity. Qed.

Lemma hasOwnProperty_callable {V} (obj : gmap string V) key :
  obj !! "hasOwnProperty" = None ->
  hasOwnProperty obj key = Some (match obj !! key with Some _ => true | None => false end).
Proof. intros H. unfold hasOwnProperty. rewrite H. reflexivity. Qed.

Lemma hasOwnProperty_shadowed {V} (obj : gmap string V) key :
  is_Some (obj !! "hasOwnProperty") -> hasOwnProperty obj key = None.
Proof. intros [v H]. unfold hasOwnProperty. rewrite H. reflexivity. Qed.

Lemma tally_plain key obj :
  key <> "__proto__" -> obj !! "hasOwnProperty" = None ->
  tally key obj = Some (oneMore key obj).
Proof.
  intros Hne Hcall. unfold tally, oneMore.
  rewrite (hasOwnProperty_callable _ _ Hcall).
  destruct (obj !! key); rewrite setNumber_plain by exact Hne; reflexivity.
Qed.

Lemma tally_proto obj :
  obj !! "hasOwnProperty" = None -> tally "__proto__" obj = Some obj.
Proof.
  intros Hcall. unfold tally. rewrite (hasOwnProperty_callable _ _ Hcall).
  destruct (obj !! "__proto__"); rewrite setNumber_proto; reflexivity.
Qed.

Lemma oneMore_other key k obj : key <> k -> oneMore key obj !! k = obj !! k.
Proof.
  intros Hne. unfold oneMore. destruct (obj !! key); apply lookup_insert_ne, Hne.
Qed.

Lemma keptNames_cons key keys :
  keptNames (key :: keys)
  = if decide (key = "__proto__") then keptNames keys else key :: keptNames keys.
Proof.
  unfold keptNames. rewrite filter_cons.
  destruct (decide (key = "__proto__")) as [Heq|Hne].
  - rewrite decide_False by (intros H; exact (H Heq)). reflexivity.
  - rewrite decide_True by exact Hne. reflexivity.
Qed.

(** As long as no name is [hasOwnProperty], the [reduce] over the names
    goes through and counts every name but [__proto__]. *)
Lemma tally_names keys : forall obj,
  "hasOwnProperty" ∉ keys ->
  obj !! "hasOwnProperty" = None ->
  fold_left (fun acc key => acc ← acc; tally key acc) keys (Some obj)
  = Some (fold_left (fun acc key => oneMore key acc) (keptNames keys) obj).
Proof.
  induction keys as [|key keys IH]; intros obj Hnotin Hcall; [reflexivity|].
  apply not_elem_of_cons in Hnotin as [Hne Hnotin].
  cbn [fold_left mbind option_bind]. rewrite keptNames_cons.
  destruct (decide (key = "__proto__")) as [->|Hproto].
  - rewrite (tally_proto _ Hcall). apply IH; assumption.
  - rewrite (tally_plain _ _ Hproto Hcall). cbn [fold_left].
    apply IH; [exact Hnotin|].
    rewrite oneMore_other by congruence. exact Hcall.
Qed.

Lemma tally_thrown (keys : list string) :
  fold_left (fun acc key => acc ← acc; tally key acc) keys None = None.
Proof. induction keys as [|key keys IH]; [reflexivity | exact IH]. Qed.

Lemma statusCodeKey_ordinary statusCode :
  statusCodeKey statusCode <> "__proto__" /\ statusCodeKey statusCode <> "hasOwnProperty".
Proof.
  unfold statusCodeKey. generalize (showNullable pretty "null" statusCode). intros text.
  split; intros H; discriminate H.
Qed.

Lemma countResponseCodes_eq testsData :
  countResponseCodes testsData
  = (fun keys => fold_left (fun acc key => oneMore key acc) keys ∅)
      <$> mapM failedStatusCode testsData.
Proof.
  unfold countResponseCodes, failedStatusCode.
  assert (Hcall : (∅ : gmap string nat) !! "hasOwnProperty" = None) by apply lookup_empty.
  revert Hcall. generalize (∅ : gmap string nat).
  induction testsData as [|testData rest IH]; intros obj Hcall; [reflexivity|].
  cbn [fold_left mapM].
  destruct (getStepDataWithError testData) as [stepData|]; cbn.
  - destruct (statusCodeKey_ordinary (StepData.responseStatusCode stepData)) as [Hproto Hown].
    rewrite (tally_plain _ _ Hproto Hcall).
    rewrite IH by (rewrite oneMore_other by congruence; exact Hcall).
    destruct (mapM _ rest); reflexivity.
  - clear IH. induction rest as [|x rest IH]; [reflexivity | exact IH].
Qed.

Lemma mapM_failedStepName testsData :
  mapM (fun testData =>
          stepData ← getStepDataWithError testData;
          Some (Step.name (StepData.step stepData))) testsData
  = mapM failedStepName testsData.
Proof.
  unfold failedStepName.
  induction testsData as [|testData rest IH]; [reflexivity|].
  cbn [mapM]. rewrite IH.
  destruct (getStepDataWithError testData); reflexivity.
Qed.

(** The tally of the step names, when none of them is [hasOwnProperty]. *)
Lemma numOfEachStep_eq testsData keys :
  mapM failedStepName testsData = Some keys ->
  "hasOwnProperty" ∉ keys ->
  numOfEachStep testsData
  = Some (fold_left (fun acc key => oneMore key acc) (keptNames keys) ∅).
Proof.
  intros Hkeys Hnotin. unfold numOfEachStep.
  rewrite mapM_failedStepName, Hkeys. cbn [mbind option_bind].
  apply tally_names; [exact Hnotin | apply lookup_empty].
Qed.

Lemma keys_of_runs (f : TestData.t -> option string) testsData :
  Forall (fun testData => is_Some (f testData)) testsData ->
  exists keys,
    mapM f testsData = Some keys
    /\ length keys = length testsData
    /\ forall k, occurrences k keys = runsUnder f k testsData.
Proof.
  induction 1 as [|testData rest [key Hkey] _ (keys & Hmap & Hlen & Hocc)].
  - exists []. repeat split; reflexivity.
  - exists (key :: keys). cbn [mapM]. rewrite Hkey, Hmap. cbn.
    split; [reflexivity|]. split; [congruence|].
    intros k. unfold occurrences, runsUnder in *. rewrite Hkey.
    destruct (decide (key = k)) as [->|Hne].
    + rewrite decide_True by reflexivity. cbn [length]. rewrite Hocc. reflexivity.
    + rewrite decide_False by congruence. apply Hocc.
Qed.

Lemma append_nil_r (s : string) : s ++ EmptyString = s.
Proof.
  induction s as [|c s IH]; [reflexivity|].
  change (String c (s ++ EmptyString) = String c s). rewrite IH. reflexivity.
Qed.

Lemma append_assoc (s1 s2 s3 : string) : (s1 ++ s2) ++ s3 = s1 ++ (s2 ++ s3).
Proof.
  induction s1 as [|c s1 IH]; [reflexivity|].
  change (String c ((s1 ++ s2) ++ s3) = String c (s1 ++ (s2 ++ s3))).
  rewrite IH. reflexivity.
Qed.

Lemma append_empty (s1 s2 : string) : s1 ++ s2 = EmptyString -> s1 = EmptyString.
Proof. destruct s1; [reflexivity | discriminate]. Qed.

Lemma append_empty_r (s1 s2 : string) : s1 ++ s2 = EmptyString -> s2 = EmptyString.
Proof. destruct s1; [intros H; exact H | discriminate]. Qed.

Lemma fold_left_append {A} (f : A -> string) keys : forall msg,
  fold_left (fun msg key => msg ++ f key) keys msg = msg ++ joined (map f keys).
Proof.
  induction keys as [|key keys IH]; intros msg; cbn [fold_left map joined fold_right].
  - symmetry. apply append_nil_r.
  - rewrite IH. apply append_assoc.
Qed.

Lemma distributionLine_eq (obj : gmap string nat) key :
  is_Some (obj !! key) ->
  distributionLine obj key
  = key ++ ": " ++ pretty (default O (obj !! key)) ++ newline ++ "      ".
Proof. intros [n Hn]. unfold distributionLine. rewrite Hn. reflexivity. Qed.

Lemma sortedKeys_elem {V} (obj : gmap string V) key :
  key ∈ sortedKeys obj <-> is_Some (obj !! key).
Proof.
  unfold sortedKeys. rewrite merge_sort_Permutation.
  rewrite list_elem_of_fmap. split.
  - intros [[k v] [-> Hin]]. apply elem_of_map_to_list in Hin. eauto.
  - intros [v Hv]. exists (key, v). split; [reflexivity|].
    apply elem_of_map_to_list, Hv.
Qed.

Lemma sortedKeys_sorted {V} (obj : gmap string V) :
  StronglySorted String.le (sortedKeys obj) /\ NoDup (sortedKeys obj).
Proof.
  unfold sortedKeys. split.
  - apply StronglySorted_merge_sort; apply _.
  - rewrite merge_sort_Permutation. apply NoDup_fst_map_to_list.
Qed.

Lemma sortedKeys_nil {V} (obj : gmap string V) : sortedKeys obj = [] <-> obj = ∅.
Proof.
  split.
  - intros H. apply map_eq. intros key. rewrite lookup_empty.
    destruct (obj !! key) as [v|] eqn:Hv; [|reflexivity].
    assert (Hin : key ∈ sortedKeys obj) by (apply sortedKeys_elem; eauto).
    rewrite H in Hin. inversion Hin.
  - intros ->. unfold sortedKeys. rewrite map_to_list_empty. reflexivity.
Qed.

(** The text built by the two [generateDistributionReport...] loops. *)
Lemma rendered_distribution (obj : gmap string nat) :
  (let msg := fold_left (fun msg key => msg ++ distributionLine obj key)
                        (sortedKeys obj) EmptyString in
   if String.eqb msg EmptyString then "N/A" else msg)
  = distributionText obj.
Proof.
  cbv zeta. rewrite fold_left_append.
  match goal with
  | |- context [EmptyString ++ ?x] => change (EmptyString ++ x) with x
  end.
  unfold distributionText.
  assert (Hlines : map (distributionLine obj) (sortedKeys obj)
                   = map (fun key => key ++ ": " ++ pretty (default O (obj !! key))
                                     ++ newline ++ "      ") (sortedKeys obj)).
  { apply map_ext_in. intros key Hin. apply distributionLine_eq.
    apply sortedKeys_elem, list_elem_of_In, Hin. }
  rewrite Hlines. destruct (sortedKeys obj) as [|key keys]; [reflexivity|].
  cbn [map joined fold_right append].
  destruct (String.eqb _ EmptyString) eqn:Heq; [|reflexivity].
  apply String.eqb_eq in Heq.
  apply append_empty in Heq. apply append_empty_r in Heq. discriminate Heq.
Qed.

Lemma counts_of_runs (f : TestData.t -> option string) testsData :
  Forall (fun testData => is_Some (f testData)) testsData ->
  exists obj,
    (fun keys => fold_left (fun acc key => oneMore key acc) keys ∅) <$> mapM f testsData
    = Some obj
    /\ (forall k, obj !! k = entryFor (runsUnder f k testsData))
    /\ sumCounts obj = length testsData
    /\ (testsData = [] <-> obj = ∅).
Proof.
  intros H. destruct (keys_of_runs f testsData H) as (keys & Hmap & Hlen & Hocc).
  destruct (oneMore_all keys [] ∅ countsOf_nil) as [Hcounts Hsum].
  eexists. rewrite Hmap. split; [reflexivity|].
  assert (Hlook : forall k, fold_left (fun acc key => oneMore key acc) keys ∅ !! k
                            = entryFor (runsUnder f k testsData)).
  { intros k. rewrite (Hcounts k). cbn [app]. rewrite Hocc. reflexivity. }
  assert (Hlength : sumCounts (fold_left (fun acc key => oneMore key acc) keys ∅)
                    = length testsData).
  { rewrite Hsum, sumCounts_empty. lia. }
  split; [exact Hlook|]. split; [exact Hlength|]. split.
  - intros ->. apply map_eq. intros k. rewrite Hlook, lookup_empty. reflexivity.
  - intros Hempty. rewrite Hempty, sumCounts_empty in Hlength.
    destruct testsData; [reflexivity | discriminate].
Qed.

Lemma last_is_Some {A} (l : list A) : l <> [] -> is_Some (last l).
Proof.
  destruct l as [|x l] using rev_ind; [congruence|].
  intros _. rewrite last_snoc. eauto.
Qed.

Lemma failed_runs_have_keys testsData :
  Forall (fun testData => TestData.stepsData testData <> []) testsData ->
  Forall (fun testData => is_Some (failedStepName testData)) testsData
  /\ Forall (fun testData => is_Some (failedStatusCode testData)) testsData.
Proof.
  intros Hsteps. split.
  - eapply Forall_impl; [exact Hsteps|]. intros testData Hne.
    unfold failedStepName, getStepDataWithError.
    destruct (last_is_Some _ Hne) as [sd ->]. cbn. eauto.
  - eapply Forall_impl; [exact Hsteps|]. intros testData Hne.
    unfold failedStatusCode, getStepDataWithError.
    destruct (last_is_Some _ Hne) as [sd ->]. cbn. eauto.
Qed.

Lemma mapM_elem {A B} (f : A -> option B) (l : list A) keys k :
  mapM f l = Some keys -> k ∈ keys -> exists x, x ∈ l /\ f x = Some k.
Proof.
  intros H Hin. apply mapM_Some in H.
  apply list_elem_of_lookup in Hin as [i Hi].
  destruct (Forall2_lookup_r _ _ _ _ _ H Hi) as (x & Hx & Hfx).
  exists x. split; [apply (list_elem_of_lookup_2 _ _ _ Hx) | exact Hfx].
Qed.

Lemma failedStepName_elem testData name :
  failedStepName testData = Some name ->
  name ∈ map stepNameOf (TestData.stepsData testData).
Proof.
  unfold failedStepName, getStepDataWithError.
  destruct (TestData.stepsData testData) as [|stepData l] using rev_ind; [discriminate|].
  rewrite last_snoc. cbn. intros [= <-].
  rewrite map_app. apply elem_of_app. right. left.
Qed.

Lemma stepNamesAvoid_elem name testData :
  stepNamesAvoid name testData <-> name ∉ map stepNameOf (TestData.stepsData testData).
Proof.
  unfold stepNamesAvoid. rewrite Forall_forall. split.
  - intros H Hin. apply list_elem_of_fmap in Hin as (stepData & -> & Hin).
    apply (H stepData); [exact Hin | reflexivity].
  - intros H stepData Hin Heq. apply H, list_elem_of_fmap.
    exists stepData. split; [symmetry; exact Heq | exact Hin].
Qed.

(** The names the failed runs are counted under avoid a name that all
    their step results avoid. *)
Lemma failed_names_avoid name testsData keys :
  Forall (stepNamesAvoid name) testsData ->
  mapM failedStepName testsData = Some keys ->
  name ∉ keys.
Proof.
  intros Havoid Hkeys Hin.
  destruct (mapM_elem _ _ _ _ Hkeys Hin) as (testData & HtestData & Hname).
  rewrite Forall_forall in Havoid.
  apply (proj1 (stepNamesAvoid_elem name testData));
    [apply Havoid, HtestData | apply failedStepName_elem, Hname].
Qed.

Lemma occurrences_keptNames k keys :
  occurrences k (keptNames keys)
  = if decide (k = "__proto__") then O else occurrences k keys.
Proof.
  induction keys as [|key keys IH].
  - destruct (decide _); reflexivity.
  - rewrite keptNames_cons. unfold occurrences in *.
    destruct (decide (key = "__proto__")) as [->|Hne].
    + rewrite IH, filter_cons. destruct (decide (k = "__proto__")) as [->|Hk].
      * reflexivity.
      * rewrite decide_False by congruence. reflexivity.
    + rewrite !filter_cons. destruct (decide (key = k)) as [<-|Hkey].
      * cbn [length]. rewrite IH. rewrite !decide_False by exact Hne. reflexivity.
      * exact IH.
Qed.

Lemma length_keptNames keys :
  (length (keptNames keys) + occurrences "__proto__" keys)%nat = length keys.
Proof.
  induction keys as [|key keys IH]; [reflexivity|].
  rewrite keptNames_cons. unfold occurrences in *. rewrite filter_cons.
  destruct (decide (key = "__proto__")) as [->|Hne]; cbn [length]; lia.
Qed.

Example failingRuns_status_codes :
  generateDistributionReportForStatusCode (testsThatFailed failingRuns)
  = Some ("statusCode500: 2" ++ newline ++ "      "
          ++ "statusCodenull: 1" ++ newline ++ "      ").
Proof. vm_compute. reflexivity. Qed.

Example failingRuns_step_names :
  generateDistributionReportForErroredSteps (testsThatFailed failingRuns)
  = Some ("Google Page Loads: 3" ++ newline ++ "      ").
Proof. vm_compute. reflexivity. Qed.

(** One step that expects 200 and gets 500. *)
Example scenario_one_failure :
  numOfEachStep [testDataFor (constEnv 500 50) [getStep] []]
  = Some {[ "Google Page Loads" := 1%nat ]}
  /\ countResponseCodes [testDataFor (constEnv 500 50) [getStep] []]
     = Some {[ "statusCode500" := 1%nat ]}.
Proof. split; reflexivity. Qed.

(** C6 at a step named [__proto__], and at two failures on a step
    named [hasOwnProperty]: a run that met a 500 at its only step, named
    [__proto__], is one [addStep] and [runTest] produce, and it failed;
    yet the tally of the step names of the collection of that run is
    empty (its counts sum to 0, with one failed run) and the step
    distribution reads N/A, while the status-code distribution counts
    the run.  For two such runs on a step named [hasOwnProperty] no
    tally of the step names is built: the second call of
    [hasOwnProperty] throws. *)
Theorem failure_distributions_miss_reserved_names :
  addStep (paramsNamed "__proto__") [] = inr [stepNamed "__proto__"]
  /\ fst (runTest (constEnv 500 50) [stepNamed "__proto__"] [])
     = Fulfilled (failedRunOn "__proto__")
  /\ testsThatFailed [failedRunOn "__proto__"] = [failedRunOn "__proto__"]
  /\ failedStepName (failedRunOn "__proto__") = Some "__proto__"
  /\ numOfEachStep [failedRunOn "__proto__"] = Some ∅
  /\ sumCounts (default ∅ (numOfEachStep [failedRunOn "__proto__"])) = O
  /\ length (testsThatFailed [failedRunOn "__proto__"]) = 1%nat
  /\ generateDistributionReportForErroredSteps [failedRunOn "__proto__"] = Some "N/A"
  /\ generateDistributionReportForStatusCode [failedRunOn "__proto__"]
     = Some ("statusCode500: 1" ++ newline ++ "      ")
  /\ testsThatFailed [failedRunOn "hasOwnProperty"; failedRunOn "hasOwnProperty"]
     = [failedRunOn "hasOwnProperty"; failedRunOn "hasOwnProperty"]
  /\ numOfEachStep [failedRunOn "hasOwnProperty"; failedRunOn "hasOwnProperty"] = None
  /\ generateDistributionReportForErroredSteps
       [failedRunOn "hasOwnProperty"; failedRunOn "hasOwnProperty"] = None.
Proof. repeat split; vm_compute; reflexivity. Qed.

(** ** The average of each step *)

Lemma countStep_eq stepName testsData : forall executions total e t,
  stepName <> "__proto__" ->
  executions !! stepName = Some e ->
  total !! stepName = Some t ->
  countStep stepName testsData (executions, total)
  = (<[stepName := (e + length (runsWith stepName testsData))%nat]> executions,
     <[stepName := t + sumZ (map (elapsedIn stepName) (runsWith stepName testsData))]> total).
Proof.
  unfold countStep, runsWith.
  induction testsData as [|testData rest IH]; intros executions total e t Hne He Ht.
  - cbn. rewrite Nat.add_0_r, Z.add_0_r, !insert_id by assumption. reflexivity.
  - cbn [fold_left]. rewrite filter_cons.
    destruct (findStepData stepName testData) as [stepData|] eqn:Hfind.
    + rewrite decide_True by eauto.
      rewrite !setNumber_plain by exact Hne.
      rewrite (IH _ _ (S e) (t + timeOf stepData))
        by (try exact Hne; rewrite ?He, ?Ht; apply lookup_insert_eq).
      rewrite !insert_insert_eq. cbn [length map sumZ fold_right].
      unfold elapsedIn at 2. rewrite Hfind. cbn [from_option].
      unfold sumZ. f_equal; f_equal; lia.
    + rewrite decide_False by (intros [? ?]; discriminate).
      apply IH; assumption.
Qed.

(** Nothing is counted under [__proto__]. *)
Lemma countStep_proto testsData : forall counters,
  countStep "__proto__" testsData counters = counters.
Proof.
  unfold countStep.
  induction testsData as [|testData rest IH]; intros [executions total]; [reflexivity|].
  cbn [fold_left]. destruct (findStepData "__proto__" testData).
  - rewrite !setNumber_proto. apply IH.
  - apply IH.
Qed.

Lemma countedSoFar_step testsData done stepName counters :
  stepName <> "__proto__" ->
  countedSoFar testsData done counters ->
  countedSoFar testsData (done ++ [stepName])
    (countStep stepName testsData
       (match fst counters !! stepName with
        | None => <[stepName := 0%nat]> (fst counters)
        | Some _ => fst counters
        end,
        match snd counters !! stepName with
        | None => <[stepName := 0]> (snd counters)
        | Some _ => snd counters
        end)).
Proof.
  intros Hproto H. destruct counters as [executions total]. cbn [fst snd].
  destruct (H stepName) as [He Ht]. cbn [fst snd] in He, Ht.
  set (n := occurrences stepName done) in *.
  rewrite (countStep_eq stepName testsData _ _
             (n * length (runsWith stepName testsData))%nat
             (Z.of_nat n * sumZ (map (elapsedIn stepName) (runsWith stepName testsData)))).
  - intros k. cbn [fst snd]. rewrite occurrences_snoc.
    destruct (decide (stepName = k)) as [<-|Hne].
    + rewrite !lookup_insert_eq. fold n.
      destruct (decide (n + 1 = 0)%nat) as [?|_]; [lia|].
      split; f_equal; nia.
    + destruct (H k) as [Hek Htk]. cbn [fst snd] in Hek, Htk.
      replace (occurrences k done + 0)%nat with (occurrences k done) by lia.
      rewrite !lookup_insert_ne by exact Hne.
      destruct (executions !! stepName), (total !! stepName);
        rewrite ?lookup_insert_ne by exact Hne; auto.
  - exact Hproto.
  - rewrite He. destruct (decide (n = O)) as [->|_].
    + apply lookup_insert_eq.
    + exact He.
  - rewrite Ht. destruct (decide (n = O)) as [->|_].
    + rewrite lookup_insert_eq. reflexivity.
    + exact Ht.
Qed.

(** As long as no step name is [hasOwnProperty], the loops over the step
    names go through, and the counters hold the counts of every name
    but [__proto__]. *)
Lemma stepCounters_counted testsData stepNames :
  "hasOwnProperty" ∉ stepNames ->
  exists counters,
    stepCounters stepNames testsData = Some counters
    /\ countedSoFar testsData (keptNames stepNames) counters.
Proof.
  intros Hnotin. unfold stepCounters.
  assert (H : forall done counters,
            countedSoFar testsData done counters ->
            "hasOwnProperty" ∉ done ->
            exists counters',
              fold_left
                (fun counters stepName =>
                   counters ← counters; stepCountersAt testsData counters stepName)
                stepNames (Some counters) = Some counters'
              /\ countedSoFar testsData (done ++ keptNames stepNames) counters').
  { induction stepNames as [|stepName rest IH]; intros done counters Hc Hdone.
    - exists counters. split; [reflexivity|]. cbn. rewrite app_nil_r. exact Hc.
    - apply not_elem_of_cons in Hnotin as [Hne Hrest].
      cbn [fold_left mbind option_bind]. destruct counters as [executions total].
      unfold stepCountersAt at 2.
      destruct (Hc "hasOwnProperty") as [He Ht]. cbn [fst snd] in He, Ht.
      rewrite decide_True in He
        by (destruct (occurrences "hasOwnProperty" done) eqn:Hocc;
            [reflexivity | exfalso; apply Hdone, occurrences_pos; congruence]).
      rewrite decide_True in Ht
        by (destruct (occurrences "hasOwnProperty" done) eqn:Hocc;
            [reflexivity | exfalso; apply Hdone, occurrences_pos; congruence]).
      rewrite (hasOwnProperty_callable _ _ He), (hasOwnProperty_callable _ _ Ht).
      rewrite keptNames_cons.
      destruct (decide (stepName = "__proto__")) as [->|Hproto].
      + rewrite countStep_proto.
        assert (Hsame : (if match executions !! "__proto__" with
                            | Some _ => true | None => false end
                         then executions else setNumber "__proto__" 0%nat executions,
                         if match total !! "__proto__" with
                            | Some _ => true | None => false end
                         then total else setNumber "__proto__" 0 total)
                        = (executions, total)).
        { destruct (executions !! "__proto__"), (total !! "__proto__"); reflexivity. }
        rewrite Hsame. apply (IH Hrest done (executions, total) Hc Hdone).
      + pose proof (countedSoFar_step testsData done stepName (executions, total) Hproto Hc)
          as Hstep. cbn [fst snd] in Hstep.
        assert (Hsame : (if match executions !! stepName with
                            | Some _ => true | None => false end
                         then executions else setNumber stepName 0%nat executions,
                         if match total !! stepName with
                            | Some _ => true | None => false end
                         then total else setNumber stepName 0 total)
                        = (match executions !! stepName with
                           | None => <[stepName := 0%nat]> executions
                           | Some _ => executions
                           end,
                           match total !! stepName with
                           | None => <[stepName := 0]> total
                           | Some _ => total
                           end)).
        { destruct (executions !! stepName), (total !! stepName);
            rewrite ?setNumber_plain by exact Hproto; reflexivity. }
        rewrite Hsame.
        destruct (IH Hrest (done ++ [stepName])%list _ Hstep) as (counters' & Hfold & Hc').
        { rewrite elem_of_app, list_elem_of_singleton. intros [?|?]; [auto | congruence]. }
        exists counters'. split; [exact Hfold|].
        rewrite <- app_assoc in Hc'. exact Hc'. }
  destruct (H [] (∅, ∅)) as (counters & Hfold & Hc).
  - intros k. cbn. rewrite !lookup_empty. auto.
  - apply not_elem_of_nil.
  - exists counters. split; [exact Hfold | exact Hc].
Qed.

Lemma fold_setNumber {V} (g : string -> V) (keys : list string) : forall (acc : gmap string V),
  fold_left (fun acc key => setNumber key (g key) acc) keys acc
  = fold_left (fun acc key => <[key := g key]> acc) (keptNames keys) acc.
Proof.
  induction keys as [|key keys IH]; intros acc; [reflexivity|].
  cbn [fold_left]. rewrite keptNames_cons.
  destruct (decide (key = "__proto__")) as [->|Hne].
  - rewrite setNumber_proto. apply IH.
  - rewrite setNumber_plain by exact Hne. apply IH.
Qed.

Lemma elem_of_keptNames k keys : k ∈ keptNames keys <-> k ∈ keys /\ k <> "__proto__".
Proof. unfold keptNames. rewrite list_elem_of_filter. tauto. Qed.

Lemma lookup_fold_insert {V} (g : string -> V) (keys : list string) : forall (acc : gmap string V) k,
  fold_left (fun acc key => <[key := g key]> acc) keys acc !! k
  = if decide (k ∈ keys) then Some (g k) else acc !! k.
Proof.
  induction keys as [|key keys IH]; intros acc k; cbn [fold_left].
  - rewrite decide_False by apply not_elem_of_nil. reflexivity.
  - rewrite IH. destruct (decide (k ∈ keys)) as [Hin|Hnin].
    + rewrite decide_True by (right; exact Hin). reflexivity.
    + destruct (decide (key = k)) as [->|Hne].
      * rewrite decide_True by left. apply lookup_insert_eq.
      * rewrite decide_False by (rewrite elem_of_cons; intros [?|?]; congruence).
        apply lookup_insert_ne, Hne.
Qed.

(** Scaling both the total and the count leaves the quotient as it is. *)
Lemma quotient_scaled (n : nat) (total : Z) (count : nat) :
  n <> O -> count <> O ->
  jsdiv (ofZ (Z.of_nat n * total)) (ofNat (n * count))
  = jsdiv (ofZ total) (ofNat count).
Proof.
  intros Hn Hc.
  assert (Hnc : (n * count)%nat <> O) by (apply Nat.neq_mul_0; auto).
  rewrite !jsdiv_ofZ_ofNat by assumption. f_equal.
  apply Qc_is_canon. unfold Qcdiv, Qcmult, Qcinv, Q2Qc, this.
  rewrite !Qred_correct. rewrite Nat2Z.inj_mul, !inject_Z_mult.
  field. split; intros H; unfold Qeq in H; cbn in H; lia.
Qed.

Lemma findStepData_named stepName testData :
  stepName ∈ map stepNameOf (TestData.stepsData testData)
  <-> is_Some (findStepData stepName testData).
Proof.
  unfold findStepData. induction (TestData.stepsData testData) as [|stepData rest IH];
    cbn [map List.find].
  - split; [intros H; inversion H | intros [? ?]; discriminate].
  - destruct (String.eqb_spec (Step.name (StepData.step stepData)) stepName) as [Heq|Hne].
    + split; [eauto | intros _; apply elem_of_cons; left; symmetry; exact Heq].
    + rewrite <- IH. rewrite elem_of_cons. unfold stepNameOf at 1.
      split; [intros [?|?]; congruence | auto].
Qed.

Lemma named_once stepName testData :
  distinctStepNames testData ->
  filter (fun stepData => Step.name (StepData.step stepData) = stepName)
         (TestData.stepsData testData)
  = option_list (findStepData stepName testData).
Proof.
  unfold distinctStepNames, findStepData.
  induction (TestData.stepsData testData) as [|stepData rest IH]; intros Hnd;
    [reflexivity|].
  cbn [map] in Hnd. apply NoDup_cons in Hnd as [Hnotin Hnd].
  cbn [List.find]. rewrite filter_cons.
  destruct (String.eqb_spec (Step.name (StepData.step stepData)) stepName) as [Heq|Hne].
  - rewrite decide_True by exact Heq. cbn [option_list]. f_equal.
    rewrite IH by exact Hnd.
    destruct (List.find _ rest) as [other|] eqn:Hfind; [|reflexivity].
    exfalso. apply Hnotin. rewrite Heq.
    apply (findStepData_named stepName
             {| TestData.id := EmptyString; TestData.stepsData := rest;
                TestData.succeeded := true; TestData.error := None;
                TestData.repetition := None |}).
    unfold findStepData. cbn [TestData.stepsData]. rewrite Hfind. eauto.
  - rewrite decide_False by exact Hne. apply IH, Hnd.
Qed.

Lemma stepResultsNamed_once stepName testsData :
  Forall distinctStepNames testsData ->
  map timeOf (stepResultsNamed stepName testsData)
  = map (elapsedIn stepName) (runsWith stepName testsData).
Proof.
  unfold stepResultsNamed, runsWith.
  induction 1 as [|testData rest Hd _ IH]; [reflexivity|].
  cbn [flat_map]. rewrite map_app, IH, (named_once _ _ Hd), filter_cons.
  destruct (findStepData stepName testData) as [stepData|] eqn:Hfind.
  - rewrite decide_True by eauto. cbn [map option_list app]. f_equal.
    unfold elapsedIn. rewrite Hfind. reflexivity.
  - rewrite decide_False by (intros [? ?]; discriminate). reflexivity.
Qed.

Lemma runsWith_first stepName first rest :
  stepName ∈ map stepNameOf (TestData.stepsData first) ->
  runsWith stepName (first :: rest) <> [].
Proof.
  intros Hin. unfold runsWith. rewrite filter_cons.
  rewrite decide_True by (apply findStepData_named, Hin). discriminate.
Qed.

(** As long as no step name of the first run is [hasOwnProperty], the
    averages are built: one for each step name of the first run but
    [__proto__], the mean of the elapsed times under that name. *)
Lemma averages_by_name first rest :
  "hasOwnProperty" ∉ map stepNameOf (TestData.stepsData first) ->
  exists averages,
    computeAvgResponseTimeForEachStep (first :: rest) = Some averages
    /\ forall stepName,
         averages !! stepName
         = if decide (stepName ∈ keptNames (map stepNameOf (TestData.stepsData first)))
           then Some (meanElapsed stepName (first :: rest))
           else None.
Proof.
  intros Hnotin. unfold computeAvgResponseTimeForEachStep.
  change (map (fun stepData => Step.name (StepData.step stepData)) (TestData.stepsData first))
    with (map stepNameOf (TestData.stepsData first)).
  set (stepNames := map stepNameOf (TestData.stepsData first)) in *.
  set (testsData := first :: rest).
  destruct (stepCounters_counted testsData stepNames Hnotin)
    as ([executions total] & -> & Hcounted).
  cbn [mbind option_bind]. eexists. split; [reflexivity|].
  intros stepName. rewrite fold_setNumber, lookup_fold_insert, lookup_empty.
  destruct (decide (stepName ∈ keptNames stepNames)) as [Hin|Hnin]; [|reflexivity].
  f_equal. destruct (Hcounted stepName) as [He Ht]. cbn [fst snd] in He, Ht.
  pose proof (proj1 (occurrences_pos stepName (keptNames stepNames)) Hin) as Hocc.
  rewrite decide_False in He by exact Hocc.
  rewrite decide_False in Ht by exact Hocc.
  unfold ratioAt. rewrite He, Ht. unfold meanElapsed.
  apply quotient_scaled; [exact Hocc|].
  apply elem_of_keptNames in Hin as [Hin _].
  pose proof (runsWith_first stepName first rest Hin) as Hwith. fold testsData in Hwith.
  destruct (runsWith stepName testsData); [congruence | discriminate].
Qed.

Lemma mean_of_distinct_names stepName testsData :
  Forall distinctStepNames testsData ->
  meanElapsed stepName testsData = meanOfStepResults stepName testsData.
Proof.
  intros Hdistinct. unfold meanElapsed, meanOfStepResults.
  pose proof (stepResultsNamed_once stepName testsData Hdistinct) as Htimes.
  assert (Hlen : length (stepResultsNamed stepName testsData)
                 = length (runsWith stepName testsData)).
  { apply (f_equal length) in Htimes. rewrite !length_map in Htimes. exact Htimes. }
  rewrite <- Htimes, Hlen. reflexivity.
Qed.

(** C5 at a step named [__proto__], and at a step named
    [hasOwnProperty] followed by another: a run that passed its only
    step, named [__proto__], in 50 ms is one [addStep] and [runTest]
    produce; the mean of the elapsed times under that name is 50, yet the
    averages computed for the collection of that run hold no entry at
    all.  For a run of a step named [hasOwnProperty] and then another
    step, no averages are computed: the call throws. *)
Theorem per_step_average_misses_reserved_names :
  addStep (paramsNamed "__proto__") [] = inr [stepNamed "__proto__"]
  /\ fst (runTest (constEnv 200 50) [stepNamed "__proto__"] [])
     = Fulfilled (passedRunOf ["__proto__"])
  /\ map stepNameOf (TestData.stepsData (passedRunOf ["__proto__"])) = ["__proto__"]
  /\ meanElapsed "__proto__" [passedRunOf ["__proto__"]] = ofZ 50
  /\ computeAvgResponseTimeForEachStep [passedRunOf ["__proto__"]] = Some ∅
  /\ fst (runTest (constEnv 200 50) [stepNamed "hasOwnProperty"; getStep] [])
     = Fulfilled (passedRunOf ["hasOwnProperty"; "Google Page Loads"])
  /\ computeAvgResponseTimeForEachStep [passedRunOf ["hasOwnProperty"; "Google Page Loads"]]
     = None.
Proof.
  split; [reflexivity|]. split; [reflexivity|]. split; [reflexivity|].
  split; [apply Fin_eq; reflexivity|]. split; [reflexivity|].
  split; reflexivity.
Qed.

Lemma Forall_testsThatFailed (P : TestData.t -> Prop) results :
  Forall P results -> Forall P (testsThatFailed results).
Proof.
  intros H. apply Forall_forall. intros x Hin.
  apply list_elem_of_In, filter_In in Hin as [Hin _].
  rewrite Forall_forall in H. apply H, list_elem_of_In, Hin.
Qed.

(** [printReport] goes through (no [TypeError]) on every collection
    that is not empty, whose failed runs hold a step result, and where no
    step result is named [hasOwnProperty]. *)
Lemma printReport_defined results :
  results <> [] ->
  Forall (fun testData => TestData.stepsData testData <> []) (testsThatFailed results) ->
  Forall (stepNamesAvoid "hasOwnProperty") results ->
  is_Some (printReport results).
Proof.
  intros Hne Hsteps Havoid. destruct (failed_runs_have_keys _ Hsteps) as [Hname Hcode].
  destruct (keys_of_runs _ _ Hname) as (names & Hnames & _).
  pose proof (failed_names_avoid _ _ _ (Forall_testsThatFailed _ _ Havoid) Hnames) as Hplain.
  pose proof (numOfEachStep_eq _ _ Hnames Hplain) as HbyStep.
  destruct (counts_of_runs _ _ Hcode) as (byCode & HbyCode & _).
  rewrite <- countResponseCodes_eq in HbyCode.
  unfold printReport.
  assert (Hhint : is_Some
            (match testsThatFailed results with
             | [] => Some None
             | firstTestThatFailed :: _ =>
                 stepWithError ← getStepWithError firstTestThatFailed;
                 stepDataWithError ← getStepDataWithError firstTestThatFailed;
                 Some (Some (generateCurlFromStep stepWithError,
                             showNullable (fun s => s) "null"
                               (StepData.error stepDataWithError)))
             end)).
  { destruct (testsThatFailed results) as [|firstTestThatFailed others]; [eauto|].
    inversion Hsteps as [|? ? Hfirst _]; subst.
    unfold getStepWithError, getStepDataWithError.
    destruct (last_is_Some _ Hfirst) as [sd ->]. cbn. eauto. }
  destruct Hhint as [hint ->]. cbn [mbind option_bind].
  destruct results as [|first rest]; [congruence|].
  inversion Havoid as [|? ? Hfirst _]; subst.
  destruct (averages_by_name first rest (proj1 (stepNamesAvoid_elem _ _) Hfirst))
    as (averages & -> & _).
  cbn [mbind option_bind].
  unfold generateDistributionReportForErroredSteps, generateDistributionReportForStatusCode.
  rewrite HbyStep, HbyCode. cbn [mbind option_bind]. eauto.
Qed.

(** ** What the report shows for the averages *)

(** C7: for a collection that is not empty, whose failed runs hold a
    step result and where no step result is named [hasOwnProperty],
    [printReport] builds its report; in it the average
    response time of the succeeded runs is the text N/A when no run
    succeeded, the one of the failed runs is the text N/A when no run
    failed, and neither is ever NaN (the average of no run at all is
    0 / 0, which is NaN and therefore falsy, so that N/A is put in its
    place). *)
Theorem empty_partition_average_not_applicable results :
  results <> [] ->
  Forall (fun testData => TestData.stepsData testData <> []) (testsThatFailed results) ->
  Forall (stepNamesAvoid "hasOwnProperty") results ->
  exists report,
    printReport results = Some report
    /\ computeAvgResponseTimeForTests [] = NaN
    /\ orElse (computeAvgResponseTimeForTests []) "N/A" = ShownText "N/A"
    /\ (testsThatSucceeded results = [] ->
        avgResponseTime_successes report = ShownText "N/A")
    /\ (testsThatFailed results = [] ->
        avgResponseTime_failures report = ShownText "N/A")
    /\ avgResponseTime_successes report <> ShownNumber NaN
    /\ avgResponseTime_failures report <> ShownNumber NaN.
Proof.
  intros Hne Hsteps Havoid.
  destruct (printReport_defined results Hne Hsteps Havoid) as [report H].
  exists report. split; [exact H|].
  destruct (printReport_averages _ _ H) as (_ & Hs & Hf).
  split; [reflexivity|]. split; [reflexivity|]. rewrite Hs, Hf.
  split; [intros ->; reflexivity|]. split; [intros ->; reflexivity|].
  split; apply orElse_not_NaN.
Qed.

(** C10: for a collection that is not empty, whose failed runs hold a
    step result and where no step result is named [hasOwnProperty],
    [printReport] builds its report; when some run
    succeeded and every step result of the succeeded runs took 0 ms,
    their average is the number 0 and the report shows the text N/A in
    its place; likewise for the failed runs. *)
Theorem zero_average_shown_not_applicable results :
  results <> [] ->
  Forall (fun testData => TestData.stepsData testData <> []) (testsThatFailed results) ->
  Forall (stepNamesAvoid "hasOwnProperty") results ->
  exists report,
    printReport results = Some report
    /\ (testsThatSucceeded results <> [] ->
        Forall allZeroTimes (testsThatSucceeded results) ->
        computeAvgResponseTimeForTests (testsThatSucceeded results) = Fin 0%Qc
        /\ avgResponseTime_successes report = ShownText "N/A")
    /\ (testsThatFailed results <> [] ->
        Forall allZeroTimes (testsThatFailed results) ->
        computeAvgResponseTimeForTests (testsThatFailed results) = Fin 0%Qc
        /\ avgResponseTime_failures report = ShownText "N/A").
Proof.
  intros Hne Hsteps Havoid.
  destruct (printReport_defined results Hne Hsteps Havoid) as [report H].
  exists report. split; [exact H|].
  destruct (printReport_averages _ _ H) as (_ & Hs & Hf).
  rewrite Hs, Hf. split; intros Hsome Hall;
    rewrite (computeAvgResponseTimeForTests_zeros _ Hsome Hall);
    (split; [reflexivity | unfold orElse; rewrite truthy_zero; reflexivity]).
Qed.

Lemma empty_partition_average_not_applicable_witness :
  instantRuns <> []
  /\ Forall (fun testData => TestData.stepsData testData <> []) (testsThatFailed instantRuns)
  /\ Forall (stepNamesAvoid "hasOwnProperty") instantRuns
  /\ testsThatFailed instantRuns = []
  /\ exists report,
      printReport instantRuns = Some report
      /\ avgResponseTime_failures report = ShownText "N/A".
Proof.
  assert (Hne : instantRuns <> []) by discriminate.
  assert (Hsteps : Forall (fun testData => TestData.stepsData testData <> [])
                          (testsThatFailed instantRuns)) by constructor.
  assert (Havoid : Forall (stepNamesAvoid "hasOwnProperty") instantRuns).
  { repeat constructor. discriminate. }
  split; [exact Hne|]. split; [exact Hsteps|]. split; [exact Havoid|]. split; [reflexivity|].
  destruct (empty_partition_average_not_applicable instantRuns Hne Hsteps Havoid)
    as (report & Hreport & _ & _ & _ & Hfailures & _).
  exists report. split; [exact Hreport|]. apply Hfailures. reflexivity.
Defined.

Lemma zero_average_shown_not_applicable_witness :
  instantRuns <> []
  /\ Forall (fun testData => TestData.stepsData testData <> []) (testsThatFailed instantRuns)
  /\ Forall (stepNamesAvoid "hasOwnProperty") instantRuns
  /\ testsThatSucceeded instantRuns <> []
  /\ Forall allZeroTimes (testsThatSucceeded instantRuns)
  /\ exists report,
      printReport instantRuns = Some report
      /\ avgResponseTime_successes report = ShownText "N/A".
Proof.
  assert (Hne : instantRuns <> []) by discriminate.
  assert (Hsteps : Forall (fun testData => TestData.stepsData testData <> [])
                          (testsThatFailed instantRuns)) by constructor.
  assert (Havoid : Forall (stepNamesAvoid "hasOwnProperty") instantRuns).
  { repeat constructor. discriminate. }
  assert (Hsome : testsThatSucceeded instantRuns <> []) by discriminate.
  assert (Hall : Forall allZeroTimes (testsThatSucceeded instantRuns)).
  { repeat constructor. discriminate. }
  split; [exact Hne|]. split; [exact Hsteps|]. split; [exact Havoid|].
  split; [exact Hsome|]. split; [exact Hall|].
  destruct (zero_average_shown_not_applicable instantRuns Hne Hsteps Havoid)
    as (report & Hreport & Hsuccesses & _).
  exists report. split; [exact Hreport|]. apply (Hsuccesses Hsome Hall).
Defined.

(** * Further properties of the code *)

(** ** Registration of steps *)

Lemma existsb_allowedMethods method :
  existsb (String.eqb method) allowedMethods = true <-> In method allowedMethods.
Proof.
  rewrite existsb_exists. split.
  - intros (x & Hin & Heq). apply String.eqb_eq in Heq. subst. exact Hin.
  - intros Hin. exists method. split; [exact Hin | apply String.eqb_refl].
Qed.

Lemma allowed_method_not_missing method :
  In method allowedMethods -> missing (Some method) = false.
Proof.
  cbn. intros H. repeat (destruct H as [<-|H]; [reflexivity|]). destruct H.
Qed.

(** [addStep] either appends exactly the step made of its argument to
    the shared sequence, leaving the steps registered before as they
    are, and it does so exactly when the name and the URL are given and
    not empty, the method is one of the six lower-case verbs, the pause
    is not negative and the expected code lies in 100..599; or it throws
    and the sequence is not changed. *)
Theorem addStep_appends_iff_acceptable params steps :
  match addStep params steps with
  | inr steps' => acceptable params /\ steps' = (steps ++ [registeredStep params])%list
  | inl _ => ~ acceptable params
  end.
Proof.
  unfold addStep, acceptable.
  destruct (missing (p_name params)) eqn:Hname.
  { intros (H & _). discriminate H. }
  destruct (missing (p_method params)) eqn:Hmethod.
  { intros (_ & _ & _ & _ & method & Hm & Hin).
    rewrite Hm, (allowed_method_not_missing _ Hin) in Hmethod. discriminate. }
  destruct (missing (p_url params)) eqn:Hurl.
  { intros (_ & H & _). discriminate H. }
  destruct (default 0 (p_sleepBeforeNextStepInMs params) <? 0) eqn:Hsleep.
  { apply Z.ltb_lt in Hsleep. intros (_ & _ & H & _). lia. }
  apply Z.ltb_ge in Hsleep.
  destruct (p_expectedResponseCode params) as [code|] eqn:Hcode.
  2:{ intros (_ & _ & _ & (code & H & _) & _). discriminate H. }
  destruct ((code =? 0) || (code <? 100) || (600 <=? code)) eqn:Hrange.
  { intros (_ & _ & _ & (code' & [= <-] & Hc) & _).
    apply orb_true_iff in Hrange as [Hrange|Hrange];
      [apply orb_true_iff in Hrange as [Hrange|Hrange]|]; lia. }
  apply orb_false_iff in Hrange as [Hrange H600].
  apply orb_false_iff in Hrange as [H0 H100].
  destruct (p_method params) as [method|] eqn:Hm; [|discriminate Hmethod].
  cbn [default from_option]. unfold id.
  destruct (existsb (String.eqb method) allowedMethods) eqn:Hallowed; cbn [negb].
  - apply existsb_allowedMethods in Hallowed.
    split; [|unfold registeredStep; rewrite Hcode, Hm; reflexivity].
    repeat split; try assumption; try lia.
    + exists code. split; [reflexivity | lia].
    + exists method. split; [reflexivity | exact Hallowed].
  - intros (_ & _ & _ & _ & method' & [= <-] & Hin).
    apply existsb_allowedMethods in Hin. congruence.
Qed.

Lemma propOf_replaceProp_same k v obj :
  hasProp k obj = true -> propOf k (replaceProp k v obj) = Some v.
Proof.
  unfold hasProp, replaceProp.
  induction obj as [|[k' v'] rest IH]; cbn [existsb map propOf fst]; [discriminate|].
  destruct (String.eqb k k') eqn:Heq; cbn [orb propOf].
  - intros _. rewrite String.eqb_refl. reflexivity.
  - intros H. rewrite Heq. apply IH, H.
Qed.

Lemma propOf_replaceProp_other k k' v obj :
  k <> k' -> propOf k' (replaceProp k v obj) = propOf k' obj.
Proof.
  intros Hne. unfold replaceProp.
  induction obj as [|[k0 v0] rest IH]; cbn [map propOf fst]; [reflexivity|].
  destruct (String.eqb_spec k k0) as [<-|Hk]; cbn [propOf].
  - assert (Hk' : String.eqb k' k = false) by (apply String.eqb_neq; congruence).
    rewrite Hk'. exact IH.
  - rewrite IH. reflexivity.
Qed.

Lemma propOf_insertProp_same k v obj :
  hasProp k obj = false -> propOf k (insertProp k v obj) = Some v.
Proof.
  unfold hasProp.
  induction obj as [|[k' v'] rest IH]; cbn [existsb insertProp propOf fst].
  - intros _. rewrite String.eqb_refl. reflexivity.
  - intros H. apply orb_false_iff in H as [Heq Hrest].
    destruct (listedBefore k k'); cbn [propOf].
    + rewrite String.eqb_refl. reflexivity.
    + rewrite Heq. apply IH, Hrest.
Qed.

Lemma propOf_insertProp_other k k' v obj :
  k <> k' -> propOf k' (insertProp k v obj) = propOf k' obj.
Proof.
  intros Hne.
  assert (Hk' : String.eqb k' k = false) by (apply String.eqb_neq; congruence).
  induction obj as [|[k0 v0] rest IH]; cbn [insertProp propOf].
  - rewrite Hk'. reflexivity.
  - destruct (listedBefore k k0); cbn [propOf].
    + rewrite Hk'. reflexivity.
    + rewrite IH. reflexivity.
Qed.

Lemma propOf_setProp_same k v obj :
  k <> "__proto__" -> propOf k (setProp k v obj) = Some v.
Proof.
  intros Hne. unfold setProp.
  destruct (String.eqb_spec k "__proto__"); [contradiction|].
  destruct (hasProp k obj) eqn:Hhas.
  - apply propOf_replaceProp_same, Hhas.
  - apply propOf_insertProp_same, Hhas.
Qed.

Lemma propOf_setProp_other k k' v obj :
  k <> k' -> propOf k' (setProp k v obj) = propOf k' obj.
Proof.
  intros Hne. unfold setProp.
  destruct (String.eqb k "__proto__"); [reflexivity|].
  destruct (hasProp k obj).
  - apply propOf_replaceProp_other, Hne.
  - apply propOf_insertProp_other, Hne.
Qed.

Lemma keys_replaceProp k v obj :
  hasProp k obj = true -> map fst (replaceProp k v obj) = map fst obj.
Proof.
  intros _. unfold replaceProp. rewrite map_map. apply map_ext.
  intros [k0 v0]. cbn [fst]. destruct (String.eqb_spec k k0) as [->|]; reflexivity.
Qed.

(** A name that is no array index goes last. *)
Lemma insertProp_named k v obj :
  arrayIndex k = None -> insertProp k v obj = (obj ++ [(k, v)])%list.
Proof.
  intros Hk. induction obj as [|[k' v'] rest IH]; cbn [insertProp app]; [reflexivity|].
  unfold listedBefore. rewrite Hk. rewrite IH. reflexivity.
Qed.

(** An array index goes among the array indices that come first. *)
Lemma insertProp_index k v n : forall indices obj name names,
  arrayIndex k = Some n ->
  arrayIndex name = None ->
  Forall (fun key => is_Some (arrayIndex key)) indices ->
  map fst obj = (indices ++ name :: names)%list ->
  exists indices',
    map fst (insertProp k v obj) = (indices' ++ name :: names)%list
    /\ Forall (fun key => is_Some (arrayIndex key)) indices'.
Proof.
  intros indices obj name names Hk Hname.
  revert obj. induction indices as [|index indices IH]; intros obj Hindices Hobj.
  - destruct obj as [|[k0 v0] rest]; [discriminate|].
    cbn [map fst app] in Hobj. injection Hobj as -> Hrest.
    cbn [insertProp]. unfold listedBefore. rewrite Hk, Hname.
    exists [k]. cbn [map fst app]. rewrite Hrest.
    split; [reflexivity|]. repeat constructor. eauto.
  - destruct obj as [|[k0 v0] rest]; [discriminate|].
    cbn [map fst app] in Hobj. injection Hobj as -> Hrest.
    apply Forall_cons in Hindices as [Hindex Hindices].
    cbn [insertProp]. destruct (listedBefore k index).
    + exists (k :: index :: indices). cbn [map fst app]. rewrite Hrest.
      split; [reflexivity|]. repeat constructor; eauto.
    + destruct (IH rest Hindices Hrest) as (indices' & Hkeys & Hall).
      exists (index :: indices'). cbn [map fst app]. rewrite Hkeys.
      split; [reflexivity|]. constructor; assumption.
Qed.

(** [Object.assign(target, source)] reads, at every property but
    [__proto__], the value [source] gives it (the last one if it gives
    several) and else the value [target] had. *)
Lemma objectAssign_reads target source k :
  k <> "__proto__" ->
  propOf k (objectAssign target source)
  = match propOf k (rev source) with
    | Some v => Some v
    | None => propOf k target
    end.
Proof.
  intros Hproto. unfold objectAssign. revert target.
  induction source as [|[k0 v0] rest IH] using rev_ind; intros target; [reflexivity|].
  rewrite fold_left_app, rev_app_distr. cbn [fold_left rev app propOf fst snd].
  destruct (String.eqb k k0) eqn:Heq.
  - apply String.eqb_eq in Heq. subst k0. apply propOf_setProp_same, Hproto.
  - rewrite propOf_setProp_other by (apply String.eqb_neq; rewrite String.eqb_sym; exact Heq).
    apply IH.
Qed.

(** [Object.assign] never gives its target a property [__proto__]. *)
Lemma objectAssign_proto target source :
  propOf "__proto__" (objectAssign target source) = propOf "__proto__" target.
Proof.
  unfold objectAssign. revert target.
  induction source as [|[k0 v0] rest IH] using rev_ind; intros target; [reflexivity|].
  rewrite fold_left_app. cbn [fold_left fst snd].
  destruct (String.eqb_spec k0 "__proto__") as [->|Hne].
  - unfold setProp. cbn. apply IH.
  - rewrite propOf_setProp_other by exact Hne. apply IH.
Qed.

(** The keys of [Object.assign(target, source)], for a target that lists
    two names that are no array indices: the array indices [source]
    brings come first, the names of the target keep their places, and
    the other names [source] brings follow. *)
Lemma objectAssign_keys first second v1 v2 source :
  arrayIndex first = None ->
  arrayIndex second = None ->
  exists indices others,
    map fst (objectAssign [(first, v1); (second, v2)] source)
    = (indices ++ first :: second :: others)%list
    /\ Forall (fun key => is_Some (arrayIndex key)) indices
    /\ Forall (fun key => arrayIndex key = None) others.
Proof.
  intros Hfirst Hsecond. unfold objectAssign.
  induction source as [|[k v] rest (indices & others & Hkeys & Hindices & Hothers)]
    using rev_ind.
  - exists [], []. cbn. auto.
  - rewrite fold_left_app. cbn [fold_left fst snd].
    set (obj := fold_left (fun acc kv => setProp (fst kv) (snd kv) acc) rest
                          [(first, v1); (second, v2)]) in *.
    unfold setProp. destruct (String.eqb k "__proto__"); [eauto|].
    destruct (hasProp k obj) eqn:Hhas.
    + rewrite (keys_replaceProp _ _ _ Hhas). eauto.
    + destruct (arrayIndex k) as [n|] eqn:Hk.
      * destruct (insertProp_index k v n indices obj first (second :: others)
                    Hk Hfirst Hindices Hkeys) as (indices' & Hkeys' & Hindices').
        exists indices', others. auto.
      * rewrite (insertProp_named _ _ _ Hk), map_app, Hkeys. cbn [map fst].
        exists indices, (others ++ [k])%list.
        split; [rewrite <- app_assoc; reflexivity|]. split; [exact Hindices|].
        apply Forall_app. split; [exact Hothers | repeat constructor; exact Hk].
Qed.

Lemma addStep_accepted params steps steps' :
  addStep params steps = inr steps' ->
  steps' = (steps ++ [registeredStep params])%list.
Proof.
  unfold addStep, registeredStep.
  destruct (missing (p_name params)); [discriminate|].
  destruct (missing (p_method params)); [discriminate|].
  destruct (missing (p_url params)); [discriminate|].
  destruct (default 0 (p_sleepBeforeNextStepInMs params) <? 0); [discriminate|].
  destruct (p_expectedResponseCode params) as [code|]; [|discriminate].
  destruct ((code =? 0) || (code <? 100) || (600 <=? code)); [discriminate|].
  destruct (negb _); [discriminate|].
  intros [= <-]. reflexivity.
Qed.

(** The headers of a step [addStep] has stored: each header but
    [__proto__] reads the value the caller gave it (the last one if
    several were given) and else the JSON default, so a header of the
    caller replaces the default of the same name; there is no header
    [__proto__]; and the headers are listed with the caller's names
    that are array indices first, then the two JSON headers in their
    order, then the other names of the caller. *)
Theorem addStep_headers params steps steps' :
  addStep params steps = inr steps' ->
  exists step,
    last steps' = Some step
    /\ (forall k,
          k <> "__proto__" ->
          propOf k (Step.headers step)
          = match propOf k (rev (default [] (p_headers params))) with
            | Some v => Some v
            | None => propOf k jsonHeaders
            end)
    /\ propOf "__proto__" (Step.headers step) = None
    /\ exists indices others,
        map fst (Step.headers step)
        = (indices ++ "Content-Type" :: "Accept-Type" :: others)%list
        /\ Forall (fun key => is_Some (arrayIndex key)) indices
        /\ Forall (fun key => arrayIndex key = None) others.
Proof.
  intros H. apply addStep_accepted in H as ->.
  exists (registeredStep params). split; [apply last_snoc|].
  cbn [Step.headers registeredStep]. split; [|split].
  - intros k Hk. apply objectAssign_reads, Hk.
  - apply objectAssign_proto.
  - apply objectAssign_keys; reflexivity.
Qed.

Lemma addStep_headers_witness :
  exists steps' step,
    addStep indexedHeaderParams [] = inr steps'
    /\ last steps' = Some step
    /\ propOf "Content-Type" (Step.headers step) = Some "text/plain"
    /\ propOf "Accept-Type" (Step.headers step) = Some "application/json"
    /\ propOf "__proto__" (Step.headers step) = None.
Proof.
  destruct (addStep_headers indexedHeaderParams [] [registeredStep indexedHeaderParams] eq_refl)
    as (step & Hlast & Hread & Hproto & _).
  exists [registeredStep indexedHeaderParams], step.
  split; [reflexivity|]. split; [exact Hlast|].
  split; [rewrite Hread by discriminate; reflexivity|].
  split; [rewrite Hread by discriminate; reflexivity | exact Hproto].
Defined.

Example indexed_header_listed_first :
  map fst (Step.headers (registeredStep indexedHeaderParams))
  = ["2"; "Content-Type"; "Accept-Type"; "X-B"].
Proof. reflexivity. Qed.

Lemma includes_http_prefix rest :
  includes "http" (String "h" (String "t" (String "t" (String "p" rest)))) = true.
Proof. unfold includes. destruct rest; reflexivity. Qed.

(** With the protocol [addStep] passes (http or https), the URL
    [normalizeUrl] returns always contains the letters http, and
    normalising it again changes nothing. *)
Theorem normalizeUrl_idempotent url (isHttps : bool) :
  let protocol := if isHttps then "https" else "http" in
  includes "http" (normalizeUrl url protocol) = true
  /\ normalizeUrl (normalizeUrl url protocol) protocol = normalizeUrl url protocol.
Proof.
  intros protocol.
  assert (H : includes "http" (normalizeUrl url protocol) = true).
  { unfold normalizeUrl. destruct (includes "http" url) eqn:Hurl; [exact Hurl|].
    unfold protocol. destruct isHttps; apply includes_http_prefix. }
  split; [exact H|].
  unfold normalizeUrl at 1. rewrite H. reflexivity.
Qed.

(** ** The engine *)

Lemma promiseAll_first_rejected {A} (f : nat -> Settled A) e (count : nat) :
  (forall i, f i = Rejected e) -> count <> O ->
  promiseAll (map f (seq 0 count)) = Rejected e.
Proof.
  intros Hf Hcount. destruct count as [|count]; [congruence|].
  cbn [seq map promiseAll]. rewrite Hf. reflexivity.
Qed.

(** [runLoadTest] checks its configuration before anything else and
    throws on the first value out of range (threads, then repetitions,
    then jitter, the defaults standing for what is omitted); with a
    valid configuration and no registered step, it returns a promise
    rejected by the first virtual user for want of steps. *)
Theorem runLoadTest_refuses lenv steps config :
  let n := default 64 (numOfThreads config) in
  let r := default 1 (numOfRepetitions config) in
  let m := default 8000 (maxTimeBeforeStartingInMs config) in
  (n < 1 ->
   runLoadTest lenv steps config
   = Some (Throws ("Parameter " ++ quoted "numOfThreads"
                   ++ " must be provided and greather than 0")))
  /\ (1 <= n -> r < 1 ->
      runLoadTest lenv steps config
      = Some (Throws ("Parameter " ++ quoted "numOfRepetitions"
                      ++ " must be provided and greather than 0")))
  /\ (1 <= n -> 1 <= r -> m < 0 ->
      runLoadTest lenv steps config
      = Some (Throws ("Parameter " ++ quoted "maxTimeBeforeStartingInMs"
                      ++ " must be provided and greather than or equal 0")))
  /\ (1 <= n -> 1 <= r -> 0 <= m -> steps = [] ->
      runLoadTest lenv steps config
      = Some (Returns (Rejected (newError "Received no Steps to compose a Test")))).
Proof.
  intros n r m. unfold runLoadTest. fold n r m.
  split; [|split; [|split]].
  - intros Hn. destruct (Z.to_nat r); cbn [runLoadTestFrom];
      rewrite (proj2 (Z.ltb_lt n 1) Hn); reflexivity.
  - intros Hn Hr. destruct (Z.to_nat r); cbn [runLoadTestFrom];
      rewrite (proj2 (Z.ltb_ge n 1) Hn), (proj2 (Z.ltb_lt r 1) Hr); reflexivity.
  - intros Hn Hr Hm. destruct (Z.to_nat r); cbn [runLoadTestFrom];
      rewrite (proj2 (Z.ltb_ge n 1) Hn), (proj2 (Z.ltb_ge r 1) Hr),
        (proj2 (Z.ltb_lt m 0) Hm); reflexivity.
  - intros Hn Hr Hm ->.
    destruct (Z.to_nat r) as [|fuel] eqn:Hfuel; [lia|].
    cbn [runLoadTestFrom].
    rewrite (proj2 (Z.ltb_ge n 1) Hn), (proj2 (Z.ltb_ge r 1) Hr), (proj2 (Z.ltb_ge m 0) Hm).
    replace (1 >? r) with false by (symmetry; rewrite Z.gtb_ltb; apply Z.ltb_ge; lia).
    rewrite (promiseAll_first_rejected _
               (newError "Received no Steps to compose a Test")); [reflexivity| |lia].
    intros i. reflexivity.
Qed.

Lemma runLoadTest_refuses_witness :
  runLoadTest steadyLoad []
    {| numOfThreads := Some 2; numOfRepetitions := Some 3;
       maxTimeBeforeStartingInMs := Some 0 |}
  = Some (Returns (Rejected (newError "Received no Steps to compose a Test")))
  /\ runLoadTest steadyLoad [getStep]
       {| numOfThreads := Some 0; numOfRepetitions := None;
          maxTimeBeforeStartingInMs := None |}
     = Some (Throws ("Parameter " ++ quoted "numOfThreads"
                     ++ " must be provided and greather than 0")).
Proof.
  split.
  - apply (runLoadTest_refuses steadyLoad []
             {| numOfThreads := Some 2; numOfRepetitions := Some 3;
                maxTimeBeforeStartingInMs := Some 0 |}); cbn; (lia || reflexivity).
  - apply (runLoadTest_refuses steadyLoad [getStep]
             {| numOfThreads := Some 0; numOfRepetitions := None;
                maxTimeBeforeStartingInMs := None |}); cbn; lia.
Defined.

(** A step always resolves, to a step result that holds a copy of the
    step, the elapsed time and the status code of the response if there
    was one; the step result is marked succeeded exactly when a response
    came, its status code is the expected one and the assertion of the
    step did not throw on it, and it carries an error message exactly
    when it is not marked succeeded. *)
Theorem runStep_succeeds_iff env step w :
  exists stepData w',
    runStep env step w = (Fulfilled stepData, w')
    /\ StepData.step stepData = step
    /\ is_Some (StepData.responseTime stepData)
    /\ StepData.responseStatusCode stepData = status <$> responseIn env w step
    /\ (StepData.succeeded stepData = true
        <-> exists r, responseIn env w step = Some r
                      /\ status r = Step.expectedResponseCode step
                      /\ Step.assertionFunction step (Some r) = None)
    /\ (StepData.succeeded stepData = true <-> StepData.error stepData = None).
Proof.
  eexists _, _. split; [apply runStep_eq|].
  split; [reflexivity|]. split; [cbn; eauto|]. split; [reflexivity|].
  cbn [StepData.succeeded StepData.error stepDataFor]. unfold checksReject.
  destruct (responseIn env w step) as [r|].
  - destruct (Z.eqb_spec (status r) (Step.expectedResponseCode step)) as [Heq|Hne].
    + destruct (Step.assertionFunction step (Some r)) as [e|] eqn:Ha.
      * split; split; try discriminate.
        intros (r' & [= <-] & _ & H). congruence.
      * split; split; auto. intros _. exists r. auto.
    + split; split; try discriminate.
      intros (r' & [= <-] & H & _). congruence.
  - split; split; try discriminate. intros (r' & H & _). discriminate H.
Qed.

Lemma walk_Forall env (P : StepData.t -> Prop) steps :
  (forall w step res, P (stepDataFor env w step res)) ->
  forall w, Forall P (fst (fst (walk env steps w))).
Proof.
  intros HP. induction steps as [|step rest IH]; intros w; cbn [walk].
  - constructor.
  - destruct (StepData.succeeded _).
    + specialize (IH (w ++ requestEvents step (responseIn env w step)
                        ++ [EvSleep (Step.sleepBeforeNextStepInMs step)])%list).
      rewrite app_assoc in IH.
      destruct (walk env rest _) as [[more w'] ok]. cbn [fst] in *.
      constructor; [apply HP | exact IH].
    + cbn [fst]. constructor; [apply HP | constructor].
Qed.

(** The test run a virtual user resolves to carries the uuid drawn for
    it and no repetition index yet; each of its step results holds an
    elapsed time, and an error message exactly when it failed; the run
    itself has no error message when it succeeded, and when it failed its
    message names the test as undefined (the template reads a property
    [i] the run does not have) and quotes the abort of its last step
    result. *)
Theorem runTest_records env steps w :
  steps <> [] ->
  exists testData w',
    runTest env steps w = (Fulfilled testData, w')
    /\ TestData.id testData = generateUid env
    /\ TestData.repetition testData = None
    /\ Forall (fun stepData =>
                 is_Some (StepData.responseTime stepData)
                 /\ (StepData.succeeded stepData = true
                     <-> StepData.error stepData = None))
              (TestData.stepsData testData)
    /\ (TestData.succeeded testData = true -> TestData.error testData = None)
    /\ (TestData.succeeded testData = false ->
        exists stepData,
          last (TestData.stepsData testData) = Some stepData
          /\ TestData.error testData
             = Some ("Test " ++ quoted "undefined" ++ " failed: "
                     ++ newError ("Aborting Test due a step error: "
                                  ++ default "null" (StepData.error stepData)))).
Proof.
  intros Hne. eexists _, _. split; [apply (runTest_eq env steps w Hne)|].
  pose proof (walk_Forall env
                (fun stepData =>
                   is_Some (StepData.responseTime stepData)
                   /\ (StepData.succeeded stepData = true
                       <-> StepData.error stepData = None)) steps) as Hall.
  specialize (Hall ltac:(intros w0 step res; cbn; split; [eauto|];
                         destruct (checksReject step res); split; congruence) w).
  destruct steps as [|step rest]; [congruence|].
  pose proof (walk_nonempty env step rest w) as Hnonempty.
  unfold testDataFor.
  destruct (walk env (step :: rest) w) as [[stepsData w'] ok]. cbn [fst] in Hall, Hnonempty.
  cbn [TestData.id TestData.repetition TestData.stepsData TestData.succeeded TestData.error].
  split; [reflexivity|]. split; [reflexivity|]. split; [exact Hall|]. split.
  - intros ->. reflexivity.
  - intros ->. destruct (last_is_Some _ Hnonempty) as [sd Hsd].
    exists sd. split; [exact Hsd|]. rewrite Hsd. cbn. unfold abortReason.
    destruct (StepData.error sd); reflexivity.
Qed.

Lemma runTest_records_witness :
  [getStep] <> []
  /\ exists testData w',
      runTest deadEnv [getStep] [] = (Fulfilled testData, w')
      /\ TestData.id testData = generateUid deadEnv.
Proof.
  assert (Hne : [getStep] <> []) by discriminate.
  split; [exact Hne|].
  destruct (runTest_records deadEnv [getStep] [] Hne) as (testData & w' & Hrun & Hid & _).
  exists testData, w'. split; assumption.
Defined.

Lemma repetition_in_wave lenv steps n m k testData :
  testData ∈ waveOf lenv steps n m k -> TestData.repetition testData = Some k.
Proof.
  unfold waveOf, addFieldRepetition. intros Hin.
  apply list_elem_of_In, in_map_iff in Hin as (x & <- & _). reflexivity.
Qed.

Lemma lookup_in_waves lenv steps n m (ks : list Z) : forall j testData,
  Z.to_nat n <> O ->
  concat (map (waveOf lenv steps n m) ks) !! j = Some testData ->
  exists k, ks !! (j / Z.to_nat n)%nat = Some k
            /\ TestData.repetition testData = Some k.
Proof.
  induction ks as [|k ks IH]; intros j testData Hn Hj; [discriminate Hj|].
  cbn [map concat] in Hj.
  destruct (decide (j < Z.to_nat n)%nat) as [Hlt|Hge].
  - rewrite lookup_app_l in Hj by (rewrite length_waveOf; exact Hlt).
    exists k. rewrite Nat.div_small by exact Hlt. split; [reflexivity|].
    apply (repetition_in_wave lenv steps n m), list_elem_of_lookup. eauto.
  - rewrite lookup_app_r in Hj by (rewrite length_waveOf; lia).
    rewrite length_waveOf in Hj.
    destruct (IH _ _ Hn Hj) as (k' & Hk' & Hrep).
    exists k'. split; [|exact Hrep].
    replace j with ((j - Z.to_nat n) + 1 * Z.to_nat n)%nat at 1 by lia.
    rewrite Nat.div_add by exact Hn.
    replace ((j - Z.to_nat n) / Z.to_nat n + 1)%nat
      with (S ((j - Z.to_nat n) / Z.to_nat n)) by lia.
    exact Hk'.
Qed.

(** In the collection [runLoadTest] resolves to, the runs come wave
    after wave: the run at position [j] (from 0) was stamped with the
    repetition index [j / numOfThreads + 1]. *)
Theorem runLoadTest_repetition_of_position lenv steps config :
  let n := default 64 (numOfThreads config) in
  let r := default 1 (numOfRepetitions config) in
  let m := default 8000 (maxTimeBeforeStartingInMs config) in
  steps <> [] -> 1 <= n -> 1 <= r -> 0 <= m ->
  exists results,
    runLoadTest lenv steps config = Some (Returns (Fulfilled results))
    /\ forall j testData,
        results !! j = Some testData ->
        TestData.repetition testData = Some (Z.of_nat (j / Z.to_nat n) + 1).
Proof.
  intros n r m Hne Hn Hr Hm. eexists. split.
  { unfold runLoadTest. fold n r m.
    rewrite (runLoadTestFrom_waves lenv steps n r m Hne Hn Hr Hm) by lia.
    reflexivity. }
  intros j testData Hj. cbn [app] in Hj.
  destruct (lookup_in_waves lenv steps n m _ j testData ltac:(lia) Hj) as (k & Hk & Hrep).
  rewrite Hrep. f_equal.
  unfold repetitionsFrom in Hk. rewrite list_lookup_fmap in Hk.
  destruct (seq 0 (Z.to_nat r) !! (j / Z.to_nat n)%nat) as [i|] eqn:Hi; [|discriminate Hk].
  apply lookup_seq in Hi as [-> _]. cbn in Hk. injection Hk as <-. lia.
Qed.

Lemma runLoadTest_repetition_of_position_witness :
  exists results,
    runLoadTest steadyLoad [getStep] smallConfig = Some (Returns (Fulfilled results))
    /\ forall testData,
        results !! 4%nat = Some testData -> TestData.repetition testData = Some 2.
Proof.
  destruct (runLoadTest_repetition_of_position steadyLoad [getStep] smallConfig)
    as (results & Hrun & Hrep).
  - discriminate.
  - cbn. lia.
  - cbn. lia.
  - cbn. lia.
  - exists results. split; [exact Hrun|].
    intros testData H. apply (Hrep 4%nat testData H).
Defined.

Lemma count_stepEvents (stepsData : list StepData.t) : forall responses,
  length responses = length stepsData ->
  length (List.filter isRequest (concat (zip_with stepEvents stepsData responses)))
  = length stepsData
  /\ length (List.filter isSleep (concat (zip_with stepEvents stepsData responses)))
     = length (List.filter StepData.succeeded stepsData).
Proof.
  induction stepsData as [|stepData rest IH]; intros [|res responses] Hlen;
    try discriminate Hlen; [split; reflexivity|].
  cbn [zip_with concat]. rewrite !List.filter_app, !length_app.
  destruct (IH responses ltac:(cbn in Hlen; lia)) as [Hreq Hsleep].
  rewrite Hreq, Hsleep. unfold stepEvents, requestEvents.
  cbn [List.filter]. destruct (StepData.succeeded stepData); cbn; auto.
Qed.

(** A virtual user sends exactly one request for each step result it
    records, hence never more requests than there are registered steps
    and none after a step that failed, and it pauses exactly once for
    each step result that succeeded. *)
Theorem runTest_one_request_per_step_result env steps :
  steps <> [] ->
  exists testData w',
    runTest env steps [] = (Fulfilled testData, w')
    /\ length (List.filter isRequest w') = length (TestData.stepsData testData)
    /\ (length (List.filter isRequest w') <= length steps)%nat
    /\ length (List.filter isSleep w')
       = length (List.filter StepData.succeeded (TestData.stepsData testData)).
Proof.
  intros Hne. destruct (runTest_fulfils env steps [] Hne) as (testData & w' & H).
  exists testData, w'. split; [exact H|].
  apply runTest_inv in H as [_ Hw].
  destruct (walk_trace _ _ _ _ _ _ Hw) as (responses & Hlen & ->).
  destruct (walk_shape _ _ _ _ _ _ Hw) as (Hpre & _ & _).
  cbn [app]. destruct (count_stepEvents _ _ Hlen) as [Hreq Hsleep].
  rewrite Hreq, Hsleep. split; [reflexivity|]. split; [|reflexivity].
  apply (f_equal length) in Hpre. rewrite length_map, length_take in Hpre. lia.
Qed.

Lemma runTest_one_request_per_step_result_witness :
  [listStep; createStep] <> []
  /\ exists testData w',
      runTest (constEnv 200 50) [listStep; createStep] [] = (Fulfilled testData, w')
      /\ length (List.filter isRequest w') = length (TestData.stepsData testData).
Proof.
  assert (Hne : [listStep; createStep] <> []) by discriminate.
  split; [exact Hne|].
  destruct (runTest_one_request_per_step_result (constEnv 200 50) [listStep; createStep] Hne)
    as (testData & w' & Hrun & Hreq & _).
  exists testData, w'. split; assumption.
Defined.

(** ** The numbers of the report *)

Lemma sum_of_finite (qs : list Qc) : forall a,
  fold_left (fun acc value => jsadd acc value) (map Fin qs) (Fin a)
  = Fin (a + sumQc qs)%Qc.
Proof.
  induction qs as [|q qs IH]; intros a; cbn [map fold_left sumQc fold_right].
  - rewrite Qcplus_0_r. reflexivity.
  - cbn [jsadd]. rewrite IH. f_equal. fold (sumQc qs). symmetry. apply Qcplus_assoc.
Qed.

Lemma Q2Qc_inject_Z z : Q2Qc (inject_Z z) = Qc_of_Z z.
Proof. apply Qc_is_canon. cbn. apply Qred_correct. Qed.

Lemma natQc_pos n : n <> O -> (0 < natQc n)%Qc.
Proof.
  intros Hn. unfold natQc. rewrite Q2Qc_inject_Z.
  apply (proj1 (Z2Qc_inj_lt 0 (Z.of_nat n))). lia.
Qed.

Lemma natQc_S n : natQc (S n) = (natQc n + 1)%Qc.
Proof.
  unfold natQc. rewrite Nat2Z.inj_succ. unfold Z.succ.
  rewrite !Q2Qc_inject_Z, Z2Qc_inj_add, Z2Qc_inj_1. reflexivity.
Qed.

Lemma computeAvg_finite (qs : list Qc) :
  qs <> [] -> computeAvg (map Fin qs) = Fin (sumQc qs / natQc (length qs))%Qc.
Proof.
  intros Hne. unfold computeAvg. change (ofZ 0) with (Fin 0%Qc).
  rewrite sum_of_finite, Qcplus_0_l, length_map.
  unfold jsdiv, ofNat, ofZ. rewrite isZero_ofZ.
  rewrite bool_decide_false by (destruct qs; [congruence | cbn; lia]).
  reflexivity.
Qed.

Lemma NaN_absorbs (arr : list jsnum) : 
  fold_left (fun acc value => jsadd acc value) arr NaN = NaN.
Proof. induction arr as [|x arr IH]; [reflexivity | exact IH]. Qed.

Lemma sum_with_NaN (arr : list jsnum) : forall acc,
  NaN ∈ arr -> fold_left (fun acc value => jsadd acc value) arr acc = NaN.
Proof.
  induction arr as [|x arr IH]; intros acc Hin; [inversion Hin|].
  cbn [fold_left]. apply elem_of_cons in Hin as [<-|Hin].
  - replace (jsadd acc NaN) with NaN by (destruct acc; reflexivity). apply NaN_absorbs.
  - apply IH, Hin.
Qed.

(** A run without step results has the average NaN (0 / 0), and one
    such run in a collection makes the average of the collection NaN:
    the report guards the averages of the successes and of the failures,
    not the average of all tests. *)
Theorem average_poisoned_by_empty_run testsData :
  Exists (fun testData => TestData.stepsData testData = []) testsData ->
  computeAvgResponseTimeForTests testsData = NaN
  /\ orElse (computeAvgResponseTimeForTests testsData) "N/A" = ShownText "N/A".
Proof.
  intros Hex.
  assert (H : computeAvgResponseTimeForTests testsData = NaN).
  { unfold computeAvgResponseTimeForTests, computeAvg. rewrite sum_with_NaN; [reflexivity|].
    apply Exists_exists in Hex as (testData & Hin & Hempty).
    apply list_elem_of_fmap. exists testData. split; [|exact Hin].
    unfold computeAvgResponseTimeForTest. rewrite Hempty. reflexivity. }
  split; [exact H|]. rewrite H. reflexivity.
Qed.

Lemma average_poisoned_by_empty_run_witness :
  Exists (fun testData => TestData.stepsData testData = [])
         [newTestData deadEnv; testDataFor (constEnv 200 50) [getStep] []]
  /\ computeAvgResponseTimeForTests
       [newTestData deadEnv; testDataFor (constEnv 200 50) [getStep] []] = NaN.
Proof.
  assert (H : Exists (fun testData => TestData.stepsData testData = [])
                     [newTestData deadEnv; testDataFor (constEnv 200 50) [getStep] []])
    by (left; reflexivity).
  split; [exact H|]. apply (average_poisoned_by_empty_run _ H).
Defined.

Lemma sumQc_bounds (qs : list Qc) (lo hi : Qc) :
  Forall (fun q => (lo <= q)%Qc /\ (q <= hi)%Qc) qs ->
  (natQc (length qs) * lo <= sumQc qs)%Qc /\ (sumQc qs <= natQc (length qs) * hi)%Qc.
Proof.
  induction 1 as [|q qs [Hlo Hhi] _ [IHlo IHhi]]; cbn [length sumQc fold_right].
  - change (natQc 0) with 0%Qc. rewrite !Qcmult_0_l. split; apply Qcle_refl.
  - fold (sumQc qs). rewrite natQc_S, !Qcmult_plus_distr_l, !Qcmult_1_l.
    rewrite (Qcplus_comm (natQc (length qs) * lo)), (Qcplus_comm (natQc (length qs) * hi)).
    split; apply Qcplus_le_compat; assumption.
Qed.

Lemma mean_bounds (qs : list Qc) (lo hi : Qc) :
  qs <> [] ->
  Forall (fun q => (lo <= q)%Qc /\ (q <= hi)%Qc) qs ->
  (lo <= sumQc qs / natQc (length qs))%Qc /\ (sumQc qs / natQc (length qs) <= hi)%Qc.
Proof.
  intros Hne Hall. destruct (sumQc_bounds qs lo hi Hall) as [Hlo Hhi].
  assert (Hpos : (0 < natQc (length qs))%Qc)
    by (apply natQc_pos; destruct qs; [congruence | discriminate]).
  assert (Hnz : natQc (length qs) <> 0%Qc)
    by (intros Hz; rewrite Hz in Hpos; exact (Qclt_not_le _ _ Hpos (Qcle_refl _))).
  split.
  - apply (Qcmult_lt_0_le_reg_r _ _ (natQc (length qs)) Hpos).
    unfold Qcdiv. rewrite <- Qcmult_assoc, Qcmult_inv_l, Qcmult_1_r by exact Hnz.
    rewrite Qcmult_comm. exact Hlo.
  - apply (Qcmult_lt_0_le_reg_r _ _ (natQc (length qs)) Hpos).
    unfold Qcdiv. rewrite <- Qcmult_assoc, Qcmult_inv_l, Qcmult_1_r by exact Hnz.
    rewrite (Qcmult_comm hi). exact Hhi.
Qed.

Lemma computeAvg_within (arr : list jsnum) lo hi :
  arr <> [] -> Forall (finiteWithin lo hi) arr -> finiteWithin lo hi (computeAvg arr).
Proof.
  intros Hne Hall.
  assert (Hqs : exists qs, arr = map Fin qs
                 /\ Forall (fun q => (Q2Qc (inject_Z lo) <= q)%Qc
                                     /\ (q <= Q2Qc (inject_Z hi))%Qc) qs).
  { clear Hne. induction Hall as [|x arr (q & -> & Hq) _ (qs & -> & Hqs)].
    - exists []. split; [reflexivity | constructor].
    - exists (q :: qs). split; [reflexivity | constructor; assumption]. }
  destruct Hqs as (qs & -> & Hqs).
  assert (Hqne : qs <> []) by (destruct qs; [exfalso; apply Hne; reflexivity | discriminate]).
  rewrite (computeAvg_finite qs Hqne).
  eexists. split; [reflexivity|]. apply (mean_bounds qs _ _ Hqne Hqs).
Qed.

(** When every run of a collection that is not empty has a step result
    and all the elapsed times lie between [lo] and [hi], the average
    response time of the collection is a finite number between [lo] and
    [hi], and so is the average of each run. *)
Theorem average_within_elapsed_times lo hi testsData :
  testsData <> [] ->
  Forall (timesWithin lo hi) testsData ->
  finiteWithin lo hi (computeAvgResponseTimeForTests testsData)
  /\ Forall (fun testData => finiteWithin lo hi (computeAvgResponseTimeForTest testData))
            testsData.
Proof.
  intros Hne Hall.
  assert (Hruns : Forall (fun testData =>
                            finiteWithin lo hi (computeAvgResponseTimeForTest testData))
                         testsData).
  { eapply Forall_impl; [exact Hall|]. intros testData [Hsteps Htimes].
    unfold computeAvgResponseTimeForTest. apply computeAvg_within.
    - destruct (TestData.stepsData testData); [congruence | discriminate].
    - apply Forall_fmap. eapply Forall_impl; [exact Htimes|].
      intros stepData [Hlo Hhi]. cbn. eexists. split; [reflexivity|].
      rewrite !Q2Qc_inject_Z.
      split; apply (proj1 (Z2Qc_inj_le _ _)); assumption. }
  split; [|exact Hruns].
  unfold computeAvgResponseTimeForTests. apply computeAvg_within.
  - destruct testsData; [congruence | discriminate].
  - apply Forall_fmap. exact Hruns.
Qed.

Lemma average_within_elapsed_times_witness :
  scenarioRuns <> []
  /\ Forall (timesWithin 50 70) scenarioRuns
  /\ finiteWithin 50 70 (computeAvgResponseTimeForTests scenarioRuns).
Proof.
  assert (Hne : scenarioRuns <> []) by discriminate.
  assert (Hall : Forall (timesWithin 50 70) scenarioRuns).
  { repeat constructor; try discriminate; cbn; lia. }
  split; [exact Hne|]. split; [exact Hall|].
  apply (average_within_elapsed_times 50 70 scenarioRuns Hne Hall).
Defined.

Lemma printReport_fields results report :
  printReport results = Some report ->
  results <> []
  /\ numOfPerformedTests report = length results
  /\ numOfSuccesses report = length (testsThatSucceeded results)
  /\ numOfFailures report = length (testsThatFailed results)
  /\ errorRate report
     = jsmul (jsdiv (ofNat (length (testsThatFailed results))) (ofNat (length results)))
             (ofZ 100)
  /\ match testsThatFailed results with
     | [] => reproductionHint report = None
     | firstTestThatFailed :: _ =>
         exists stepData,
           last (TestData.stepsData firstTestThatFailed) = Some stepData
           /\ reproductionHint report
              = Some (generateCurlFromStep (StepData.step stepData),
                      default "null" (StepData.error stepData))
     end.
Proof.
  unfold printReport. intros H.
  assert (Hne : results <> []).
  { intros ->. cbn in H. discriminate H. }
  split; [exact Hne|].
  destruct (testsThatFailed results) as [|firstTestThatFailed others] eqn:Hfailed.
  - cbn [mbind option_bind] in H.
    destruct (computeAvgResponseTimeForEachStep results);
      [cbn [mbind option_bind] in H | discriminate H].
    destruct (generateDistributionReportForErroredSteps _);
      [cbn [mbind option_bind] in H | discriminate H].
    destruct (generateDistributionReportForStatusCode _);
      [cbn [mbind option_bind] in H | discriminate H].
    injection H as <-. cbn. repeat split; reflexivity.
  - unfold getStepWithError, getStepDataWithError in H.
    destruct (last (TestData.stepsData firstTestThatFailed)) as [stepData|] eqn:Hlast;
      [cbn [mbind option_bind fmap option_fmap option_map] in H | discriminate H].
    destruct (computeAvgResponseTimeForEachStep results);
      [cbn [mbind option_bind] in H | discriminate H].
    destruct (generateDistributionReportForErroredSteps _);
      [cbn [mbind option_bind] in H | discriminate H].
    destruct (generateDistributionReportForStatusCode _);
      [cbn [mbind option_bind] in H | discriminate H].
    injection H as <-. cbn. repeat split; try reflexivity.
    exists stepData. split; [reflexivity|]. destruct (StepData.error stepData); reflexivity.
Qed.

Lemma succeeded_or_failed results :
  (length (testsThatSucceeded results) + length (testsThatFailed results))%nat
  = length results.
Proof.
  unfold testsThatSucceeded, testsThatFailed.
  induction results as [|result rest IH]; [reflexivity|].
  cbn [List.filter]. destruct (TestData.succeeded result); cbn [negb length]; lia.
Qed.

Lemma natQc_inj_0 n : natQc n = 0%Qc -> n = O.
Proof.
  unfold natQc. intros H.
  assert (Hz : ofZ (Z.of_nat n) = ofZ 0) by (unfold ofZ; rewrite H; reflexivity).
  apply ofZ_inj in Hz. lia.
Qed.

Lemma natQc_le a b : (a <= b)%nat -> (natQc a <= natQc b)%Qc.
Proof.
  intros H. unfold natQc. rewrite !Q2Qc_inject_Z.
  apply (proj1 (Z2Qc_inj_le _ _)). lia.
Qed.

Lemma rate_bounds (f t : nat) :
  t <> O -> (f <= t)%nat ->
  let q := (natQc f / natQc t * Q2Qc (inject_Z 100))%Qc in
  (0 <= q)%Qc /\ (q <= Q2Qc (inject_Z 100))%Qc /\ (q = 0%Qc <-> f = O).
Proof.
  intros Ht Hle q.
  assert (Hpos : (0 < natQc t)%Qc) by (apply natQc_pos, Ht).
  assert (Hnz : natQc t <> 0%Qc)
    by (intros Hz; rewrite Hz in Hpos; exact (Qclt_not_le _ _ Hpos (Qcle_refl _))).
  assert (Hinv : (0 < / natQc t)%Qc) by (apply Qcinv_pos, Hpos).
  assert (H100 : (0 < Q2Qc (inject_Z 100))%Qc) by reflexivity.
  assert (Hf : (0 <= natQc f)%Qc) by (change 0%Qc with (natQc 0); apply natQc_le; lia).
  assert (Hratio : (0 <= natQc f / natQc t)%Qc).
  { unfold Qcdiv. apply Qcmult_nonneg_nonneg; [exact Hf | apply Qclt_le_weak, Hinv]. }
  assert (Hone : (natQc f / natQc t <= 1)%Qc).
  { apply (Qcmult_lt_0_le_reg_r _ _ (natQc t) Hpos).
    unfold Qcdiv. rewrite <- Qcmult_assoc, Qcmult_inv_l, Qcmult_1_r, Qcmult_1_l by exact Hnz.
    apply natQc_le, Hle. }
  split; [|split].
  - apply Qcmult_nonneg_nonneg; [exact Hratio | apply Qclt_le_weak, H100].
  - unfold q. rewrite <- (Qcmult_1_l (Q2Qc (inject_Z 100))) at 2.
    apply Qcmult_le_compat_r; [exact Hone | apply Qclt_le_weak, H100].
  - unfold q. split.
    + intros Hq. apply Qcmult_integral in Hq as [Hq|Hq].
      * unfold Qcdiv in Hq. apply Qcmult_integral in Hq as [Hq|Hq].
        -- apply natQc_inj_0, Hq.
        -- rewrite Hq in Hinv. exfalso. exact (Qclt_not_le _ _ Hinv (Qcle_refl _)).
      * discriminate Hq.
    + intros ->. change (natQc 0) with 0%Qc. unfold Qcdiv. rewrite !Qcmult_0_l. reflexivity.
Qed.

(** In the report of a collection that is not empty (failed runs
    holding a step result, no step result named [hasOwnProperty]), the
    successes and the failures add up to the
    tests performed, and the error rate is the finite number
    failures / performed * 100: it lies between 0 and 100 and is 0
    exactly when no run failed. *)
Theorem printReport_error_rate results :
  results <> [] ->
  Forall (fun testData => TestData.stepsData testData <> []) (testsThatFailed results) ->
  Forall (stepNamesAvoid "hasOwnProperty") results ->
  exists report,
    printReport results = Some report
    /\ numOfPerformedTests report = length results
    /\ (numOfSuccesses report + numOfFailures report)%nat = numOfPerformedTests report
    /\ errorRate report
       = Fin (natQc (numOfFailures report) / natQc (numOfPerformedTests report)
              * Q2Qc (inject_Z 100))%Qc
    /\ finiteWithin 0 100 (errorRate report)
    /\ (errorRate report = Fin 0%Qc <-> numOfFailures report = O).
Proof.
  intros Hne Hsteps Havoid.
  destruct (printReport_defined results Hne Hsteps Havoid) as [report H].
  exists report. split; [exact H|].
  destruct (printReport_fields _ _ H) as (_ & Hperformed & Hsucc & Hfail & Hrate & _).
  pose proof (succeeded_or_failed results) as Hsum.
  assert (Hlen : length results <> O) by (destruct results; [congruence | discriminate]).
  assert (Hformula : errorRate report
                     = Fin (natQc (numOfFailures report)
                            / natQc (numOfPerformedTests report)
                            * Q2Qc (inject_Z 100))%Qc).
  { rewrite Hrate, Hfail, Hperformed.
    unfold ofNat at 1. rewrite jsdiv_ofZ_ofNat by exact Hlen. reflexivity. }
  destruct (rate_bounds (numOfFailures report) (numOfPerformedTests report))
    as (H0 & H100 & Hzero); [lia | lia |].
  split; [exact Hperformed|]. split; [lia|]. split; [exact Hformula|]. split.
  - rewrite Hformula. eexists. split; [reflexivity|]. split; [exact H0 | exact H100].
  - rewrite Hformula. split.
    + intros Heq. apply Hzero.
      apply (f_equal (fun x => match x with Fin q => q | _ => 1%Qc end)) in Heq. exact Heq.
    + intros Hz. f_equal. apply Hzero, Hz.
Qed.

Lemma printReport_error_rate_witness :
  failingRuns <> []
  /\ Forall (fun testData => TestData.stepsData testData <> []) (testsThatFailed failingRuns)
  /\ Forall (stepNamesAvoid "hasOwnProperty") failingRuns
  /\ exists report,
      printReport failingRuns = Some report
      /\ numOfPerformedTests report = length failingRuns
      /\ finiteWithin 0 100 (errorRate report).
Proof.
  assert (Hne : failingRuns <> []) by discriminate.
  assert (Hsteps : Forall (fun testData => TestData.stepsData testData <> [])
                          (testsThatFailed failingRuns)).
  { repeat constructor; discriminate. }
  assert (Havoid : Forall (stepNamesAvoid "hasOwnProperty") failingRuns).
  { repeat constructor; discriminate. }
  split; [exact Hne|]. split; [exact Hsteps|]. split; [exact Havoid|].
  destruct (printReport_error_rate failingRuns Hne Hsteps Havoid)
    as (report & Hreport & Hperformed & _ & _ & Hwithin & _).
  exists report. repeat split; assumption.
Defined.

(** The report of a collection that is not empty (failed runs
    holding a step result, no step result named [hasOwnProperty])
    carries a reproduction hint exactly when some run failed: it is then the curl command of the step of the last step
    result of the first failed run, with the error message of that step
    result. *)
Theorem printReport_hint results :
  results <> [] ->
  Forall (fun testData => TestData.stepsData testData <> []) (testsThatFailed results) ->
  Forall (stepNamesAvoid "hasOwnProperty") results ->
  exists report,
    printReport results = Some report
    /\ (reproductionHint report = None <-> testsThatFailed results = [])
    /\ (forall firstTestThatFailed others,
          testsThatFailed results = firstTestThatFailed :: others ->
          exists stepData,
            last (TestData.stepsData firstTestThatFailed) = Some stepData
            /\ reproductionHint report
               = Some (generateCurlFromStep (StepData.step stepData),
                       default "null" (StepData.error stepData))).
Proof.
  intros Hne Hsteps Havoid.
  destruct (printReport_defined results Hne Hsteps Havoid) as [report H].
  exists report. split; [exact H|].
  destruct (printReport_fields _ _ H) as (_ & _ & _ & _ & _ & Hhint).
  destruct (testsThatFailed results) as [|first others].
  - split; [split; auto|]. intros ? ? Heq. discriminate Heq.
  - destruct Hhint as (stepData & Hlast & Hhint). split.
    + rewrite Hhint. split; discriminate.
    + intros ? ? [= <- <-]. exists stepData. split; assumption.
Qed.

Lemma printReport_hint_witness :
  failingRuns <> []
  /\ Forall (fun testData => TestData.stepsData testData <> []) (testsThatFailed failingRuns)
  /\ Forall (stepNamesAvoid "hasOwnProperty") failingRuns
  /\ exists report,
      printReport failingRuns = Some report
      /\ (reproductionHint report = None <-> testsThatFailed failingRuns = []).
Proof.
  assert (Hne : failingRuns <> []) by discriminate.
  assert (Hsteps : Forall (fun testData => TestData.stepsData testData <> [])
                          (testsThatFailed failingRuns)).
  { repeat constructor; discriminate. }
  assert (Havoid : Forall (stepNamesAvoid "hasOwnProperty") failingRuns).
  { repeat constructor; discriminate. }
  split; [exact Hne|]. split; [exact Hsteps|]. split; [exact Havoid|].
  destruct (printReport_hint failingRuns Hne Hsteps Havoid) as (report & Hreport & Hiff & _).
  exists report. split; assumption.
Defined.

(** ** The keys of the status codes *)

Lemma pretty_N_go_not_n x : forall s,
  (forall s', s <> String "n" s') -> forall s', pretty_N_go x s <> String "n" s'.
Proof.
  induction (N.lt_wf_0 x) as [x _ IH]; intros s Hs.
  assert (x = 0 \/ 0 < x)%N as [->|Hpos] by lia.
  - rewrite pretty_N_go_0. exact Hs.
  - rewrite pretty_N_go_step by exact Hpos. apply IH.
    + apply N.div_lt; [exact Hpos | reflexivity].
    + intros s' H. injection H as Hchar _. revert Hchar.
      unfold pretty_N_char. repeat case_match; discriminate.
Qed.

Lemma pretty_Z_not_null (z : Z) : pretty z <> "null".
Proof.
  assert (HN : forall n : N, pretty n <> "null").
  { intros n. unfold pretty, pretty_N. destruct (decide (n = 0%N)); [discriminate|].
    apply pretty_N_go_not_n. intros s'. discriminate. }
  destruct z as [|p|p]; [discriminate | apply HN | discriminate].
Qed.

Lemma statusCodeKey_inj a b : statusCodeKey a = statusCodeKey b -> a = b.
Proof.
  unfold statusCodeKey. intros H. apply (inj (String.append "statusCode")) in H.
  destruct a as [x|], b as [y|]; cbn [showNullable] in H.
  - f_equal. apply (inj pretty), H.
  - exfalso. exact (pretty_Z_not_null x H).
  - exfalso. symmetry in H. exact (pretty_Z_not_null y H).
  - reflexivity.
Qed.

Lemma length_filter_iff {A} (P Q : A -> Prop) `{forall x, Decision (P x)}
    `{forall x, Decision (Q x)} (l : list A) :
  (forall x, P x <-> Q x) -> length (filter P l) = length (filter Q l).
Proof.
  intros HPQ. induction l as [|x l IH]; [reflexivity|].
  rewrite !filter_cons. destruct (decide (P x)) as [HP|HP].
  - rewrite decide_True by (apply HPQ, HP). cbn [length]. rewrite IH. reflexivity.
  - rewrite decide_False by (rewrite <- HPQ; exact HP). exact IH.
Qed.

(** Two status codes, or a status code and the absence of one, never
    share a key of the status-code tally; so for runs that each hold a
    step result the tally holds, under the key of a status code, the
    number of runs whose last step result observed exactly that code
    (under [statusCodenull], the number of those that got no response),
    and no entry where that number is zero. *)
Theorem countResponseCodes_by_code testsData :
  Forall (fun testData => TestData.stepsData testData <> []) testsData ->
  exists byCode,
    countResponseCodes testsData = Some byCode
    /\ (forall a b, statusCodeKey a = statusCodeKey b -> a = b)
    /\ forall statusCode,
        byCode !! statusCodeKey statusCode
        = entryFor
            (length (filter (fun testData =>
                               StepData.responseStatusCode <$> getStepDataWithError testData
                               = Some statusCode) testsData)).
Proof.
  intros Hsteps. destruct (failed_runs_have_keys _ Hsteps) as [_ Hcode].
  destruct (counts_of_runs _ _ Hcode) as (byCode & HbyCode & Hlook & _).
  rewrite <- countResponseCodes_eq in HbyCode.
  exists byCode. split; [exact HbyCode|]. split; [exact statusCodeKey_inj|].
  intros statusCode. rewrite Hlook. f_equal. unfold runsUnder.
  apply length_filter_iff. intros testData. unfold failedStatusCode.
  destruct (getStepDataWithError testData) as [stepData|]; cbn.
  - split; intros H%(inj Some); f_equal; [apply statusCodeKey_inj, H | rewrite H; reflexivity].
  - split; discriminate.
Qed.

Lemma countResponseCodes_by_code_witness :
  Forall (fun testData => TestData.stepsData testData <> []) (testsThatFailed failingRuns)
  /\ exists byCode,
      countResponseCodes (testsThatFailed failingRuns) = Some byCode
      /\ byCode !! statusCodeKey (Some 500) = Some 2%nat
      /\ byCode !! statusCodeKey None = Some 1%nat
      /\ byCode !! statusCodeKey (Some 404) = None.
Proof.
  assert (Hsteps : Forall (fun testData => TestData.stepsData testData <> [])
                          (testsThatFailed failingRuns)).
  { repeat constructor; discriminate. }
  split; [exact Hsteps|].
  destruct (countResponseCodes_by_code _ Hsteps) as (byCode & Hcount & _ & Hlook).
  exists byCode. split; [exact Hcount|].
  rewrite !Hlook. repeat split; reflexivity.
Defined.

(** ** From the load test to the report *)

Lemma waves_have_step_results lenv steps n m (ks : list Z) :
  steps <> [] ->
  Forall (fun testData => TestData.stepsData testData <> [])
         (concat (map (waveOf lenv steps n m) ks)).
Proof.
  intros Hne. induction ks as [|k ks IH]; cbn [map concat]; [constructor|].
  apply Forall_app. split; [apply waveOf_runs_have_step_results, Hne | exact IH].
Qed.

(** A run holds step results of registered steps only, so it avoids a
    name no registered step has. *)
Lemma testDataFor_avoids name env steps w :
  Forall (fun step => Step.name step <> name) steps ->
  stepNamesAvoid name (testDataFor env steps w).
Proof.
  intros Havoid. unfold stepNamesAvoid, testDataFor.
  destruct (walk env steps w) as [[stepsData w'] ok] eqn:Hwalk. cbn [TestData.stepsData].
  destruct (walk_shape _ _ _ _ _ _ Hwalk) as (Hsteps & _).
  change (Forall ((fun step => Step.name step <> name) ∘ StepData.step) stepsData).
  apply Forall_fmap.
  change (StepData.step <$> stepsData) with (map StepData.step stepsData).
  rewrite Hsteps. apply Forall_take, Havoid.
Qed.

Lemma waves_avoid name lenv steps n m (ks : list Z) :
  Forall (fun step => Step.name step <> name) steps ->
  Forall (stepNamesAvoid name) (concat (map (waveOf lenv steps n m) ks)).
Proof.
  intros Havoid. induction ks as [|k ks IH]; cbn [map concat]; [constructor|].
  apply Forall_app. split; [|exact IH].
  unfold waveOf, addFieldRepetition. rewrite map_map.
  apply Forall_forall. intros testData Hin.
  apply list_elem_of_In, in_map_iff in Hin as (i & <- & _).
  apply (testDataFor_avoids name (userEnv lenv k i) steps _ Havoid).
Qed.

(** With at least one registered step, none of them named
    [hasOwnProperty], and a valid configuration, the collection
    [runLoadTest] resolves to can be reported: [printReport] goes
    through on it (every run holds a step result, so no last step result
    is missing), and the report counts [numOfThreads * numOfRepetitions]
    performed tests, split into successes and failures. *)
Theorem runLoadTest_then_printReport lenv steps config :
  let n := default 64 (numOfThreads config) in
  let r := default 1 (numOfRepetitions config) in
  let m := default 8000 (maxTimeBeforeStartingInMs config) in
  steps <> [] -> 1 <= n -> 1 <= r -> 0 <= m ->
  Forall (fun step => Step.name step <> "hasOwnProperty") steps ->
  exists results report,
    runLoadTest lenv steps config = Some (Returns (Fulfilled results))
    /\ Forall (fun testData => TestData.stepsData testData <> []) results
    /\ printReport results = Some report
    /\ Z.of_nat (numOfPerformedTests report) = n * r
    /\ (numOfSuccesses report + numOfFailures report)%nat = numOfPerformedTests report.
Proof.
  intros n r m Hne Hn Hr Hm Hnames.
  set (results := concat (map (waveOf lenv steps n m) (repetitionsFrom 1 (Z.to_nat r)))).
  assert (Hrun : runLoadTest lenv steps config = Some (Returns (Fulfilled results))).
  { unfold runLoadTest. fold n r m.
    rewrite (runLoadTestFrom_waves lenv steps n r m Hne Hn Hr Hm) by lia. reflexivity. }
  assert (Hsteps : Forall (fun testData => TestData.stepsData testData <> []) results)
    by (apply waves_have_step_results, Hne).
  assert (Havoid : Forall (stepNamesAvoid "hasOwnProperty") results)
    by (apply waves_avoid, Hnames).
  assert (Hlen : Z.of_nat (length results) = n * r).
  { unfold results. rewrite length_concat_waves. unfold repetitionsFrom.
    rewrite length_map, length_seq. nia. }
  assert (Hsome : results <> []).
  { intros Hnil. rewrite Hnil in Hlen. cbn in Hlen. nia. }
  destruct (printReport_defined results Hsome (Forall_testsThatFailed _ _ Hsteps) Havoid)
    as [report Hreport].
  exists results, report.
  destruct (printReport_fields _ _ Hreport) as (_ & Hperformed & Hsucc & Hfail & _).
  split; [exact Hrun|]. split; [exact Hsteps|]. split; [exact Hreport|].
  split; [rewrite Hperformed; exact Hlen|].
  rewrite Hperformed, Hsucc, Hfail. apply succeeded_or_failed.
Qed.

Lemma runLoadTest_then_printReport_witness :
  exists results report,
    runLoadTest steadyLoad [getStep] smallConfig = Some (Returns (Fulfilled results))
    /\ printReport results = Some report
    /\ Z.of_nat (numOfPerformedTests report) = 3 * 2.
Proof.
  destruct (runLoadTest_then_printReport steadyLoad [getStep] smallConfig)
    as (results & report & Hrun & _ & Hreport & Hcount & _).
  - discriminate.
  - cbn. lia.
  - cbn. lia.
  - cbn. lia.
  - repeat constructor. discriminate.
  - exists results, report. repeat split; assumption.
Defined.

(** With the steps named [hasOwnProperty] and then anything else, the
    collection a load test resolves to cannot be reported: [printReport]
    throws. *)
Example printReport_throws_after_hasOwnProperty :
  exists results,
    runLoadTest steadyLoad [stepNamed "hasOwnProperty"; getStep] smallConfig
    = Some (Returns (Fulfilled results))
    /\ printReport results = None.
Proof. eexists. split; reflexivity. Qed.

Lemma no_failed_run results :
  Forall (fun testData => TestData.succeeded testData = true) results ->
  testsThatFailed results = [] /\ testsThatSucceeded results = results.
Proof.
  unfold testsThatFailed, testsThatSucceeded.
  induction 1 as [|result rest Hok _ [IHf IHs]]; [split; reflexivity|].
  cbn [List.filter]. rewrite Hok. cbn [negb]. rewrite IHf, IHs. split; reflexivity.
Qed.

(** When every run of a collection that is not empty succeeded (and no
    step result is named [hasOwnProperty]), the report is built and
    counts no failure, has the error rate 0, carries no
    reproduction hint, shows N/A for both failure distributions and for
    the average of the failures, and counts every run as a success. *)
Theorem printReport_without_failures results :
  results <> [] ->
  Forall (fun testData => TestData.succeeded testData = true) results ->
  Forall (stepNamesAvoid "hasOwnProperty") results ->
  exists report,
    printReport results = Some report
    /\ numOfFailures report = O
    /\ numOfSuccesses report = length results
    /\ errorRate report = Fin 0%Qc
    /\ reproductionHint report = None
    /\ stepFailureDistributionMsg report = "N/A"
    /\ errorCodeDistributionMsg report = "N/A"
    /\ avgResponseTime_failures report = ShownText "N/A".
Proof.
  intros Hne Hok Havoid. destruct (no_failed_run results Hok) as [Hfailed Hsucceeded].
  assert (Hsteps : Forall (fun testData => TestData.stepsData testData <> [])
                          (testsThatFailed results)) by (rewrite Hfailed; constructor).
  destruct (printReport_defined results Hne Hsteps Havoid) as [report H].
  exists report. split; [exact H|].
  destruct (printReport_fields _ _ H) as (_ & Hperformed & Hsucc & Hfail & Hrate & Hhint).
  destruct (printReport_distributions _ _ H) as (Hstep & Hcode & _).
  destruct (printReport_averages _ _ H) as (_ & _ & Havg).
  rewrite Hfailed in *. rewrite Hsucceeded in Hsucc.
  assert (Hlen : length results <> O) by (destruct results; [congruence | discriminate]).
  split; [exact Hfail|]. split; [exact Hsucc|]. split.
  { rewrite Hrate. cbn [length]. unfold ofNat at 1. rewrite jsdiv_ofZ_ofNat by exact Hlen.
    cbn [jsmul ofZ]. apply Fin_eq. reflexivity. }
  split; [exact Hhint|].
  assert (HstepNil : generateDistributionReportForErroredSteps [] = Some "N/A")
    by (vm_compute; reflexivity).
  assert (HcodeNil : generateDistributionReportForStatusCode [] = Some "N/A")
    by (vm_compute; reflexivity).
  rewrite HstepNil in Hstep. rewrite HcodeNil in Hcode.
  split; [injection Hstep as <-; reflexivity|].
  split; [injection Hcode as <-; reflexivity|].
  rewrite Havg. reflexivity.
Qed.

Lemma printReport_without_failures_witness :
  scenarioRuns <> []
  /\ Forall (fun testData => TestData.succeeded testData = true) scenarioRuns
  /\ Forall (stepNamesAvoid "hasOwnProperty") scenarioRuns
  /\ exists report,
      printReport scenarioRuns = Some report
      /\ numOfFailures report = O
      /\ errorRate report = Fin 0%Qc.
Proof.
  assert (Hne : scenarioRuns <> []) by discriminate.
  assert (Hok : Forall (fun testData => TestData.succeeded testData = true) scenarioRuns)
    by (repeat constructor).
  assert (Havoid : Forall (stepNamesAvoid "hasOwnProperty") scenarioRuns).
  { repeat constructor; discriminate. }
  split; [exact Hne|]. split; [exact Hok|]. split; [exact Havoid|].
  destruct (printReport_without_failures scenarioRuns Hne Hok Havoid)
    as (report & Hreport & Hfail & _ & Hrate & _).
  exists report. repeat split; assumption.
Defined.

(** The first run decides which steps the report averages: when a
    virtual user's run comes first in a collection and no registered
    step is named [hasOwnProperty], the averages are built and hold an
    entry for exactly the names of the registered steps that run reached
    (all of them when it succeeded), whatever the runs after it hold;
    only a step named [__proto__] never gets an entry. *)
Theorem per_step_keys_of_first_run env steps w rest :
  steps <> [] ->
  Forall (fun step => Step.name step <> "hasOwnProperty") steps ->
  exists first w' averages,
    runTest env steps w = (Fulfilled first, w')
    /\ computeAvgResponseTimeForEachStep (first :: rest) = Some averages
    /\ (forall stepName,
          is_Some (averages !! stepName)
          <-> stepName ∈ map Step.name (take (length (TestData.stepsData first)) steps)
              /\ stepName <> "__proto__")
    /\ (TestData.succeeded first = true ->
        forall step,
          step ∈ steps -> Step.name step <> "__proto__" ->
          is_Some (averages !! Step.name step)).
Proof.
  intros Hne Hnames. destruct (runTest_fulfils env steps w Hne) as (first & w' & Hrun).
  exists first, w'.
  pose proof Hrun as Hwalk. apply runTest_inv in Hwalk as [_ Hwalk].
  destruct (walk_shape _ _ _ _ _ _ Hwalk) as (Hpre & Hok & _).
  assert (Hreached : map stepNameOf (TestData.stepsData first)
                     = map Step.name (take (length (TestData.stepsData first)) steps)).
  { rewrite <- Hpre, map_map. reflexivity. }
  assert (Havoid : "hasOwnProperty" ∉ map stepNameOf (TestData.stepsData first)).
  { rewrite Hreached. intros Hin. apply list_elem_of_fmap in Hin as (step & Heq & Hin).
    assert (Htaken : Forall (fun step => Step.name step <> "hasOwnProperty")
                            (take (length (TestData.stepsData first)) steps))
      by (apply Forall_take, Hnames).
    rewrite Forall_forall in Htaken. apply (Htaken step Hin). symmetry. exact Heq. }
  destruct (averages_by_name first rest Havoid) as (averages & Havg & Hlook).
  exists averages. split; [exact Hrun|]. split; [exact Havg|].
  assert (Hkeys : forall stepName,
            is_Some (averages !! stepName)
            <-> stepName ∈ map Step.name (take (length (TestData.stepsData first)) steps)
                /\ stepName <> "__proto__").
  { intros stepName. rewrite Hlook, <- Hreached, <- elem_of_keptNames.
    destruct (decide _) as [Hin|Hnin].
    - split; [intros _; exact Hin | eauto].
    - split; [intros [? ?]; discriminate | intros Hin; contradiction]. }
  split; [exact Hkeys|].
  intros Hsucc step Hin Hproto. apply Hkeys. split; [|exact Hproto].
  destruct (Hok Hsucc) as [_ Hlen]. rewrite Hlen, firstn_all.
  apply list_elem_of_fmap. exists step. split; [reflexivity | exact Hin].
Qed.

Lemma per_step_keys_of_first_run_witness :
  [listStep; createStep] <> []
  /\ Forall (fun step => Step.name step <> "hasOwnProperty") [listStep; createStep]
  /\ exists first w' averages,
      runTest (constEnv 200 50) [listStep; createStep] [] = (Fulfilled first, w')
      /\ computeAvgResponseTimeForEachStep [first] = Some averages
      /\ is_Some (averages !! "Create").
Proof.
  assert (Hne : [listStep; createStep] <> []) by discriminate.
  assert (Hnames : Forall (fun step => Step.name step <> "hasOwnProperty")
                          [listStep; createStep]).
  { repeat constructor; discriminate. }
  split; [exact Hne|]. split; [exact Hnames|].
  destruct (per_step_keys_of_first_run (constEnv 200 50) [listStep; createStep] [] []
              Hne Hnames)
    as (first & w' & averages & Hrun & Havg & Hkeys & _).
  exists first, w', averages. split; [exact Hrun|]. split; [exact Havg|].
  apply Hkeys. injection Hrun as <- _. split; [|discriminate].
  cbn. apply elem_of_cons. right. apply elem_of_cons. left. reflexivity.
Defined.

Lemma mapM_failedStepName_Some testsData keys :
  mapM failedStepName testsData = Some keys ->
  Forall (fun testData => TestData.stepsData testData <> []) testsData.
Proof.
  intros H. apply mapM_Some in H.
  induction H as [|testData key rest keys Hkey _ IH]; constructor; [|exact IH].
  intros Hempty. unfold failedStepName, getStepDataWithError in Hkey.
  rewrite Hempty in Hkey. discriminate Hkey.
Qed.

Lemma sumZ_as_sumQc (l : list Z) :
  Q2Qc (inject_Z (sumZ l)) = sumQc (map (fun z => Q2Qc (inject_Z z)) l).
Proof.
  induction l as [|z l IH]; [reflexivity|].
  cbn [sumZ fold_right map sumQc]. fold (sumZ l). fold (sumQc (map (fun z => Q2Qc (inject_Z z)) l)).
  rewrite <- IH, !Q2Qc_inject_Z. apply Z2Qc_inj_add.
Qed.

Lemma elapsedIn_within lo hi stepName testData :
  Forall (fun stepData => lo <= timeOf stepData <= hi) (TestData.stepsData testData) ->
  is_Some (findStepData stepName testData) ->
  lo <= elapsedIn stepName testData <= hi.
Proof.
  intros Hall [stepData Hfind]. unfold elapsedIn. rewrite Hfind. cbn.
  unfold findStepData in Hfind. apply find_some in Hfind as [Hin _].
  rewrite Forall_forall in Hall. apply Hall, list_elem_of_In, Hin.
Qed.

Lemma meanElapsed_within lo hi stepName testsData :
  runsWith stepName testsData <> [] ->
  Forall (fun testData =>
            Forall (fun stepData => lo <= timeOf stepData <= hi)
                   (TestData.stepsData testData)) testsData ->
  finiteWithin lo hi (meanElapsed stepName testsData).
Proof.
  intros Hne Hall. unfold meanElapsed.
  set (runs := runsWith stepName testsData) in *.
  rewrite jsdiv_ofZ_ofNat by (destruct runs; [congruence | discriminate]).
  eexists. split; [reflexivity|].
  rewrite sumZ_as_sumQc, map_map.
  change (Q2Qc (inject_Z (Z.of_nat (length runs)))) with (natQc (length runs)).
  rewrite <- (length_map (fun x => Q2Qc (inject_Z (elapsedIn stepName x))) runs).
  apply mean_bounds.
  - destruct runs; [congruence | discriminate].
  - apply Forall_fmap, Forall_forall. intros testData Hin.
    unfold runs, runsWith in Hin. apply list_elem_of_filter in Hin as [Hfound Hin].
    rewrite Forall_forall in Hall.
    destruct (elapsedIn_within lo hi stepName testData (Hall _ Hin) Hfound) as [Hlo Hhi].
    cbn. rewrite !Q2Qc_inject_Z. split; apply (proj1 (Z2Qc_inj_le _ _)); assumption.
Qed.

(** The average of each step is never a division by zero: every step
    name of the first run is found in the first run at least, so each
    average the function returns (it returns when no step result is
    named [hasOwnProperty]) is a finite number, and it lies between
    [lo] and [hi] when all the elapsed times of the collection do. *)
Theorem per_step_averages_finite lo hi testsData :
  testsData <> [] ->
  Forall (fun testData =>
            Forall (fun stepData => lo <= timeOf stepData <= hi)
                   (TestData.stepsData testData)) testsData ->
  Forall (stepNamesAvoid "hasOwnProperty") testsData ->
  exists averages,
    computeAvgResponseTimeForEachStep testsData = Some averages
    /\ forall stepName average,
        averages !! stepName = Some average -> finiteWithin lo hi average.
Proof.
  intros Hne Hall Havoid. destruct testsData as [|first rest]; [congruence|]. clear Hne.
  inversion Havoid as [|? ? Hfirst _]; subst.
  destruct (averages_by_name first rest (proj1 (stepNamesAvoid_elem _ _) Hfirst))
    as (averages & Havg & Hlook).
  exists averages. split; [exact Havg|].
  intros stepName average. rewrite Hlook.
  destruct (decide _) as [Hin|Hnin]; [|discriminate].
  intros [= <-]. apply elem_of_keptNames in Hin as [Hin _].
  apply (meanElapsed_within lo hi stepName (first :: rest)
           (runsWith_first stepName first rest Hin) Hall).
Qed.

Lemma per_step_averages_finite_witness :
  failingRuns <> []
  /\ Forall (fun testData =>
               Forall (fun stepData => 0 <= timeOf stepData <= 100)
                      (TestData.stepsData testData)) failingRuns
  /\ Forall (stepNamesAvoid "hasOwnProperty") failingRuns
  /\ exists averages,
      computeAvgResponseTimeForEachStep failingRuns = Some averages
      /\ forall stepName average,
          averages !! stepName = Some average -> finiteWithin 0 100 average.
Proof.
  assert (Hne : failingRuns <> []) by discriminate.
  assert (Hall : Forall (fun testData =>
                           Forall (fun stepData => 0 <= timeOf stepData <= 100)
                                  (TestData.stepsData testData)) failingRuns).
  { repeat constructor; cbn; lia. }
  assert (Havoid : Forall (stepNamesAvoid "hasOwnProperty") failingRuns).
  { repeat constructor; discriminate. }
  split; [exact Hne|]. split; [exact Hall|]. split; [exact Havoid|].
  apply (per_step_averages_finite 0 100 failingRuns Hne Hall Havoid).
Defined.

(** ** The body of a request *)


Example zero_body_is_not_sent :
  ax_data (requestOf zeroBodyStep) = None
  /\ ax_data (requestOf createStep) = Some "{}"
  /\ generateCurlFromStep zeroBodyStep
     = "curl -i -X POST -H " ++ quoted "Content-Type: application/json"
       ++ " -H " ++ quoted "Accept-Type: application/json"
       ++ " " ++ quoted "http://localhost/items"
  /\ generateCurlFromStep createStep
     = "curl -i -X POST -H " ++ quoted "Content-Type: application/json"
       ++ " -H " ++ quoted "Accept-Type: application/json"
       ++ " -d '{}' " ++ quoted "http://localhost/items".
Proof. repeat split; vm_compute; reflexivity. Qed.

(** ** Step names and the dictionaries of the report *)

(** As long as the first run of a collection holds no step result named
    [hasOwnProperty], the averages of the steps are built: there is one
    for exactly the step names of the first run other than [__proto__];
    each is the mean of the elapsed times of the step results of that
    name over the runs that hold one (the first run is one of them), a
    run holding none counting for nothing; and when no run holds two
    step results of one name, it is the mean over all the step results
    of that name. *)
Theorem per_step_average_of_callable_names first rest :
  stepNamesAvoid "hasOwnProperty" first ->
  exists averages,
    computeAvgResponseTimeForEachStep (first :: rest) = Some averages
    /\ (forall stepName,
          is_Some (averages !! stepName)
          <-> stepName ∈ map stepNameOf (TestData.stepsData first)
              /\ stepName <> "__proto__")
    /\ (forall stepName,
          stepName ∈ map stepNameOf (TestData.stepsData first) ->
          stepName <> "__proto__" ->
          averages !! stepName = Some (meanElapsed stepName (first :: rest))
          /\ runsWith stepName (first :: rest) <> []
          /\ (Forall distinctStepNames (first :: rest) ->
              meanElapsed stepName (first :: rest)
              = meanOfStepResults stepName (first :: rest))).
Proof.
  intros Havoid.
  destruct (averages_by_name first rest (proj1 (stepNamesAvoid_elem _ _) Havoid))
    as (averages & Havg & Hlook).
  exists averages. split; [exact Havg|]. split.
  - intros stepName. rewrite Hlook, <- elem_of_keptNames.
    destruct (decide _) as [Hin|Hnin].
    + split; [intros _; exact Hin | eauto].
    + split; [intros [? ?]; discriminate | intros Hin; contradiction].
  - intros stepName Hin Hproto. split; [|split].
    + rewrite Hlook, decide_True by (apply elem_of_keptNames; auto). reflexivity.
    + apply runsWith_first, Hin.
    + apply mean_of_distinct_names.
Qed.

Lemma per_step_average_of_callable_names_witness :
  stepNamesAvoid "hasOwnProperty" (testDataFor (constEnv 500 50) [getStep] [])
  /\ exists averages,
      computeAvgResponseTimeForEachStep failingRuns = Some averages
      /\ averages !! "Google Page Loads"
         = Some (meanElapsed "Google Page Loads" failingRuns).
Proof.
  assert (Havoid : stepNamesAvoid "hasOwnProperty" (testDataFor (constEnv 500 50) [getStep] [])).
  { repeat constructor. discriminate. }
  split; [exact Havoid|].
  destruct (per_step_average_of_callable_names _
              [testDataFor deadEnv [getStep] [];
               testDataFor (constEnv 200 60) [getStep] [];
               testDataFor (constEnv 500 70) [getStep] []] Havoid)
    as (averages & Havg & _ & Hmean).
  exists averages. split; [exact Havg|].
  apply Hmean; [apply elem_of_cons; left; reflexivity | discriminate].
Defined.

(** For the failed runs of a collection, each holding a step result and
    none of them a step result named [hasOwnProperty], both tallies are
    built.  The tally of the step names holds, for each name but
    [__proto__], the number of failed runs whose last step result has
    that name, and nothing for [__proto__] or for a name no failed run
    has; its counts sum to the number of failed runs less those that
    failed on a step named [__proto__].  The tally of the status codes
    holds for each key the number of failed runs with that key and its
    counts sum to the number of failed runs.  Each report is N/A when its
    tally is empty (as when no run failed) and otherwise the lines
    key: count of the tally, one per key, in the sorted order of the
    keys. *)
Theorem failure_distributions_of_callable_names results :
  let failed := testsThatFailed results in
  Forall (fun testData => TestData.stepsData testData <> []) failed ->
  Forall (stepNamesAvoid "hasOwnProperty") failed ->
  exists byStep byCode,
    numOfEachStep failed = Some byStep
    /\ countResponseCodes failed = Some byCode
    /\ (forall name,
          byStep !! name
          = if decide (name = "__proto__") then None
            else entryFor (runsUnder failedStepName name failed))
    /\ (forall code, byCode !! code = entryFor (runsUnder failedStatusCode code failed))
    /\ (sumCounts byStep + runsUnder failedStepName "__proto__" failed)%nat = length failed
    /\ sumCounts byCode = length failed
    /\ generateDistributionReportForErroredSteps failed = Some (distributionText byStep)
    /\ generateDistributionReportForStatusCode failed = Some (distributionText byCode)
    /\ StronglySorted String.le (sortedKeys byStep) /\ NoDup (sortedKeys byStep)
    /\ StronglySorted String.le (sortedKeys byCode) /\ NoDup (sortedKeys byCode)
    /\ (forall key, key ∈ sortedKeys byStep <-> is_Some (byStep !! key))
    /\ (forall key, key ∈ sortedKeys byCode <-> is_Some (byCode !! key))
    /\ (failed = [] -> distributionText byStep = "N/A" /\ distributionText byCode = "N/A")
    /\ (failed <> [] -> sortedKeys byCode <> [])
    /\ (forall testData name,
          testData ∈ failed -> failedStepName testData = Some name ->
          name <> "__proto__" -> sortedKeys byStep <> []).
Proof.
  intros failed Hsteps Havoid.
  destruct (failed_runs_have_keys _ Hsteps) as [Hname Hcode].
  destruct (keys_of_runs _ _ Hname) as (names & Hnames & Hlen & Hocc).
  pose proof (failed_names_avoid _ _ _ Havoid Hnames) as Hcallable.
  pose proof (numOfEachStep_eq _ _ Hnames Hcallable) as HbyStep.
  destruct (oneMore_all (keptNames names) [] ∅ countsOf_nil) as [Hcounts Hsum].
  cbn [app] in Hcounts. rewrite sumCounts_empty, Nat.add_0_r in Hsum.
  set (byStep := fold_left (fun acc key => oneMore key acc) (keptNames names) ∅) in *.
  destruct (counts_of_runs _ _ Hcode) as (byCode & HbyCode & HlookCode & HsumCode & HnilCode).
  rewrite <- countResponseCodes_eq in HbyCode.
  assert (HlookStep : forall name,
            byStep !! name
            = if decide (name = "__proto__") then None
              else entryFor (runsUnder failedStepName name failed)).
  { intros name. rewrite (Hcounts name), occurrences_keptNames.
    destruct (decide (name = "__proto__")); [reflexivity|].
    rewrite Hocc. reflexivity. }
  exists byStep, byCode.
  split; [exact HbyStep|]. split; [exact HbyCode|].
  split; [exact HlookStep|]. split; [exact HlookCode|].
  split.
  { rewrite Hsum, <- Hocc, <- Hlen. apply length_keptNames. }
  split; [exact HsumCode|].
  split.
  { unfold generateDistributionReportForErroredSteps. rewrite HbyStep. cbn [mbind option_bind].
    f_equal. apply rendered_distribution. }
  split.
  { unfold generateDistributionReportForStatusCode. rewrite HbyCode. cbn [mbind option_bind].
    f_equal. apply rendered_distribution. }
  split; [apply sortedKeys_sorted|]. split; [apply sortedKeys_sorted|].
  split; [apply sortedKeys_sorted|]. split; [apply sortedKeys_sorted|].
  split; [intros key; apply sortedKeys_elem|].
  split; [intros key; apply sortedKeys_elem|].
  split; [|split].
  - intros Hnil. unfold distributionText.
    assert (Hempty : byStep = ∅).
    { apply map_eq. intros name. rewrite HlookStep, lookup_empty, Hnil.
      destruct (decide _); reflexivity. }
    rewrite (proj2 (sortedKeys_nil byStep) Hempty).
    rewrite (proj2 (sortedKeys_nil byCode) (proj1 HnilCode Hnil)). split; reflexivity.
  - intros Hne Hkeys. apply sortedKeys_nil in Hkeys. apply HnilCode in Hkeys. congruence.
  - intros testData name Hin Hfailed Hproto Hkeys.
    apply sortedKeys_nil in Hkeys.
    pose proof (HlookStep name) as Hlook.
    rewrite Hkeys, lookup_empty, decide_False in Hlook by exact Hproto.
    unfold entryFor in Hlook. destruct (decide _) as [Hzero|]; [|discriminate].
    unfold runsUnder in Hzero. apply length_zero_iff_nil in Hzero.
    assert (Hmember : testData ∈ filter (fun testData => failedStepName testData = Some name)
                                        failed)
      by (apply list_elem_of_filter; auto).
    rewrite Hzero in Hmember. inversion Hmember.
Qed.

Lemma failure_distributions_of_callable_names_witness :
  Forall (fun testData => TestData.stepsData testData <> []) (testsThatFailed failingRuns)
  /\ Forall (stepNamesAvoid "hasOwnProperty") (testsThatFailed failingRuns)
  /\ exists byStep byCode,
      numOfEachStep (testsThatFailed failingRuns) = Some byStep
      /\ countResponseCodes (testsThatFailed failingRuns) = Some byCode
      /\ byStep !! "Google Page Loads" = Some 3%nat
      /\ sumCounts byCode = length (testsThatFailed failingRuns).
Proof.
  assert (H : Forall (fun testData => TestData.stepsData testData <> [])
                     (testsThatFailed failingRuns)).
  { repeat constructor; discriminate. }
  assert (Havoid : Forall (stepNamesAvoid "hasOwnProperty") (testsThatFailed failingRuns)).
  { repeat constructor; discriminate. }
  split; [exact H|]. split; [exact Havoid|].
  destruct (failure_distributions_of_callable_names failingRuns H Havoid)
    as (byStep & byCode & HbyStep & HbyCode & HlookStep & _ & _ & HsumCode & _).
  exists byStep, byCode. split; [exact HbyStep|]. split; [exact HbyCode|].
  split; [rewrite HlookStep; reflexivity | exact HsumCode].
Defined.

(** *** When the dictionaries throw *)

Lemma shadowedCall_nil : ~ shadowedCall [].
Proof. intros (before & next & after & H). destruct before; discriminate H. Qed.

Lemma shadowedCall_single key : ~ shadowedCall [key].
Proof.
  intros (before & next & after & H).
  destruct before as [|? [|? ?]]; discriminate H.
Qed.

Lemma shadowedCall_here next keys : shadowedCall ("hasOwnProperty" :: next :: keys).
Proof. exists [], next, keys. reflexivity. Qed.

Lemma shadowedCall_cons key keys :
  key <> "hasOwnProperty" -> shadowedCall (key :: keys) <-> shadowedCall keys.
Proof.
  intros Hne. split.
  - intros (before & next & after & H). destruct before as [|key' before].
    + injection H as H _. congruence.
    + injection H as _ H. exists before, next, after. exact H.
  - intros (before & next & after & ->). exists (key :: before), next, after. reflexivity.
Qed.

Lemma avoiding_is_not_shadowing keys : "hasOwnProperty" ∉ keys -> ~ shadowedCall keys.
Proof.
  intros Hnotin (before & next & after & ->). apply Hnotin.
  apply elem_of_app. right. left.
Qed.

Lemma tally_shadowed key obj :
  is_Some (obj !! "hasOwnProperty") -> tally key obj = None.
Proof. intros H. unfold tally. rewrite (hasOwnProperty_shadowed _ _ H). reflexivity. Qed.

Lemma oneMore_same key obj : is_Some (oneMore key obj !! key).
Proof. unfold oneMore. destruct (obj !! key); rewrite lookup_insert_eq; eauto. Qed.

(** The [reduce] over the names goes through exactly when no name
    follows the name [hasOwnProperty]. *)
Lemma tally_fold_defined keys : forall obj,
  obj !! "hasOwnProperty" = None ->
  is_Some (fold_left (fun acc key => acc ← acc; tally key acc) keys (Some obj))
  <-> ~ shadowedCall keys.
Proof.
  induction keys as [|key keys IH]; intros obj Hcall.
  - split; [intros _; exact shadowedCall_nil | eauto].
  - cbn [fold_left mbind option_bind].
    destruct (decide (key = "hasOwnProperty")) as [->|Hne].
    + assert (Hproto : "hasOwnProperty" <> "__proto__") by discriminate.
      rewrite (tally_plain _ _ Hproto Hcall).
      destruct keys as [|next keys].
      * split; [intros _; apply shadowedCall_single | cbn; eauto].
      * cbn [fold_left mbind option_bind].
        rewrite (tally_shadowed next _ (oneMore_same _ _)), tally_thrown.
        split; [intros [? H]; discriminate H|].
        intros H. exfalso. apply H, shadowedCall_here.
    + rewrite (shadowedCall_cons _ _ Hne).
      destruct (decide (key = "__proto__")) as [->|Hproto].
      * rewrite (tally_proto _ Hcall). apply IH, Hcall.
      * rewrite (tally_plain _ _ Hproto Hcall). apply IH.
        rewrite oneMore_other by congruence. exact Hcall.
Qed.

Lemma mapM_omap {A B} (f : A -> option B) (l : list A) keys :
  mapM f l = Some keys -> omap f l = keys.
Proof.
  revert keys. induction l as [|x l IH]; intros keys; cbn [mapM omap list_omap].
  - intros [= <-]. reflexivity.
  - destruct (f x) as [y|]; [|discriminate]. cbn.
    destruct (mapM f l) as [ys|]; [|discriminate]. cbn.
    intros [= <-]. rewrite (IH ys eq_refl). reflexivity.
Qed.

(** The tally of the step names is built exactly when every run holds a
    step result and no run follows one whose last step result is named
    [hasOwnProperty]. *)
Lemma numOfEachStep_defined testsData :
  is_Some (numOfEachStep testsData)
  <-> Forall (fun testData => TestData.stepsData testData <> []) testsData
      /\ ~ shadowedCall (omap failedStepName testsData).
Proof.
  unfold numOfEachStep. rewrite mapM_failedStepName.
  destruct (mapM failedStepName testsData) as [names|] eqn:Hnames; cbn [mbind option_bind].
  - rewrite (mapM_omap _ _ _ Hnames).
    rewrite (tally_fold_defined names ∅ (lookup_empty _)).
    pose proof (mapM_failedStepName_Some _ _ Hnames). tauto.
  - split; [intros [? H]; discriminate H|].
    intros [Hsteps _]. destruct (failed_runs_have_keys _ Hsteps) as [Hname _].
    destruct (keys_of_runs _ _ Hname) as (names & Hsome & _). congruence.
Qed.

Lemma countStep_other stepName key testsData : forall counters,
  key <> stepName ->
  fst (countStep stepName testsData counters) !! key = fst counters !! key
  /\ snd (countStep stepName testsData counters) !! key = snd counters !! key.
Proof.
  unfold countStep.
  induction testsData as [|testData rest IH]; intros [executions total] Hne; [auto|].
  cbn [fold_left]. destruct (findStepData stepName testData); [|apply IH, Hne].
  destruct (IH (setNumber stepName (S (default 0%nat (executions !! stepName))) executions,
                setNumber stepName (default 0 (total !! stepName) + timeOf t) total) Hne)
    as [He Ht].
  rewrite He, Ht. cbn [fst snd]. unfold setNumber.
  destruct (String.eqb stepName "__proto__"); [auto|].
  rewrite !lookup_insert_ne by congruence. auto.
Qed.

Lemma countStep_own stepName testsData : forall counters,
  stepName <> "__proto__" ->
  is_Some (fst counters !! stepName) ->
  is_Some (fst (countStep stepName testsData counters) !! stepName).
Proof.
  unfold countStep.
  induction testsData as [|testData rest IH]; intros [executions total] Hproto Hown;
    [exact Hown|].
  cbn [fold_left]. destruct (findStepData stepName testData); [|apply IH; assumption].
  apply IH; [exact Hproto|]. cbn [fst].
  rewrite setNumber_plain by exact Hproto. rewrite lookup_insert_eq. eauto.
Qed.

Lemma stepCountersAt_shadowed testsData counters stepName :
  is_Some (fst counters !! "hasOwnProperty") ->
  stepCountersAt testsData counters stepName = None.
Proof.
  destruct counters as [executions total]. cbn [fst]. intros H.
  unfold stepCountersAt. rewrite (hasOwnProperty_shadowed _ _ H). reflexivity.
Qed.

Lemma stepCountersAt_callable testsData counters stepName :
  fst counters !! "hasOwnProperty" = None ->
  snd counters !! "hasOwnProperty" = None ->
  exists counters',
    stepCountersAt testsData counters stepName = Some counters'
    /\ (stepName = "hasOwnProperty" -> is_Some (fst counters' !! "hasOwnProperty"))
    /\ (stepName <> "hasOwnProperty" ->
        fst counters' !! "hasOwnProperty" = None
        /\ snd counters' !! "hasOwnProperty" = None).
Proof.
  destruct counters as [executions total]. cbn [fst snd]. intros He Ht.
  unfold stepCountersAt.
  rewrite (hasOwnProperty_callable _ _ He), (hasOwnProperty_callable _ _ Ht).
  eexists. split; [reflexivity|]. split.
  - intros ->. apply countStep_own; [discriminate|]. cbn [fst].
    rewrite He. rewrite setNumber_plain by discriminate. rewrite lookup_insert_eq. eauto.
  - intros Hne.
    destruct (countStep_other stepName "hasOwnProperty" testsData
                (if match executions !! stepName with Some _ => true | None => false end
                 then executions else setNumber stepName 0%nat executions,
                 if match total !! stepName with Some _ => true | None => false end
                 then total else setNumber stepName 0 total)) as [He' Ht'];
      [congruence|].
    rewrite He', Ht'. cbn [fst snd]. unfold setNumber.
    destruct (executions !! stepName), (total !! stepName),
      (String.eqb stepName "__proto__");
      rewrite ?lookup_insert_ne by congruence; auto.
Qed.

Lemma stepCounters_thrown testsData (stepNames : list string) :
  fold_left (fun counters stepName =>
               counters ← counters; stepCountersAt testsData counters stepName)
            stepNames None = None.
Proof. induction stepNames as [|stepName rest IH]; [reflexivity | exact IH]. Qed.

(** The loop over the step names goes through exactly when no name
    follows the name [hasOwnProperty]. *)
Lemma stepCounters_defined testsData stepNames :
  is_Some (stepCounters stepNames testsData) <-> ~ shadowedCall stepNames.
Proof.
  unfold stepCounters.
  assert (H : forall counters,
            fst counters !! "hasOwnProperty" = None ->
            snd counters !! "hasOwnProperty" = None ->
            is_Some (fold_left (fun counters stepName =>
                                  counters ← counters;
                                  stepCountersAt testsData counters stepName)
                               stepNames (Some counters))
            <-> ~ shadowedCall stepNames).
  { induction stepNames as [|stepName rest IH]; intros counters He Ht.
    - split; [intros _; exact shadowedCall_nil | eauto].
    - cbn [fold_left mbind option_bind].
      destruct (stepCountersAt_callable testsData counters stepName He Ht)
        as (counters' & -> & Hname & Hother).
      destruct (decide (stepName = "hasOwnProperty")) as [->|Hne].
      + destruct rest as [|next rest].
        * split; [intros _; apply shadowedCall_single | cbn; eauto].
        * cbn [fold_left mbind option_bind].
          rewrite (stepCountersAt_shadowed _ _ next (Hname eq_refl)), stepCounters_thrown.
          split; [intros [? H]; discriminate H|].
          intros H. exfalso. apply H, shadowedCall_here.
      + rewrite (shadowedCall_cons _ _ Hne).
        destruct (Hother Hne) as [He' Ht']. apply IH; assumption. }
  apply H; apply lookup_empty.
Qed.

(** The averages of the steps are computed exactly for the collections
    that are not empty and in whose first run no step result follows one
    named [hasOwnProperty]; otherwise the call throws a [TypeError]. *)
Lemma averages_defined testsData :
  is_Some (computeAvgResponseTimeForEachStep testsData)
  <-> testsData <> [] /\ ~ shadowedCall (firstRunNames testsData).
Proof.
  destruct testsData as [|first rest]; cbn [computeAvgResponseTimeForEachStep firstRunNames].
  - split; [intros [? H]; discriminate H | intros [H _]; congruence].
  - change (map (fun stepData => Step.name (StepData.step stepData))
                (TestData.stepsData first))
      with (map stepNameOf (TestData.stepsData first)).
    rewrite <- (stepCounters_defined (first :: rest)).
    destruct (stepCounters _ (first :: rest)) as [[executions total]|];
      cbn [mbind option_bind].
    + split; [intros _; split; [discriminate | eauto] | eauto].
    + split; [intros [? H]; discriminate H | intros [_ [? H]]; discriminate H].
Qed.

Lemma printReport_built results :
  results <> [] ->
  Forall (fun testData => TestData.stepsData testData <> []) (testsThatFailed results) ->
  is_Some (computeAvgResponseTimeForEachStep results) ->
  is_Some (numOfEachStep (testsThatFailed results)) ->
  is_Some (printReport results).
Proof.
  intros Hne Hsteps [averages Havg] [byStep HbyStep].
  destruct (failed_runs_have_keys _ Hsteps) as [_ Hcode].
  destruct (counts_of_runs _ _ Hcode) as (byCode & HbyCode & _).
  rewrite <- countResponseCodes_eq in HbyCode.
  unfold printReport.
  assert (Hhint : is_Some
            (match testsThatFailed results with
             | [] => Some None
             | firstTestThatFailed :: _ =>
                 stepWithError ← getStepWithError firstTestThatFailed;
                 stepDataWithError ← getStepDataWithError firstTestThatFailed;
                 Some (Some (generateCurlFromStep stepWithError,
                             showNullable (fun s => s) "null"
                               (StepData.error stepDataWithError)))
             end)).
  { destruct (testsThatFailed results) as [|firstTestThatFailed others]; [eauto|].
    inversion Hsteps as [|? ? Hfirst _]; subst.
    unfold getStepWithError, getStepDataWithError.
    destruct (last_is_Some _ Hfirst) as [sd ->]. cbn. eauto. }
  destruct Hhint as [hint ->]. cbn [mbind option_bind].
  rewrite Havg. cbn [mbind option_bind].
  unfold generateDistributionReportForErroredSteps, generateDistributionReportForStatusCode.
  rewrite HbyStep, HbyCode. cbn [mbind option_bind]. eauto.
Qed.

(** [printReport] goes through exactly on the collections that are not
    empty, whose failed runs all hold a step result, in whose first run
    no step result follows one named [hasOwnProperty], and where no
    failed run follows one that failed on a step named [hasOwnProperty];
    on every other collection it throws a [TypeError] (it reads
    [stepsData] of the first run and the last step result of each failed
    run, and it calls [hasOwnProperty] on its dictionaries of step
    names). *)
Theorem printReport_defined_iff results :
  is_Some (printReport results)
  <-> results <> []
      /\ Forall (fun testData => TestData.stepsData testData <> [])
                (testsThatFailed results)
      /\ ~ shadowedCall (firstRunNames results)
      /\ ~ shadowedCall (failedNames results).
Proof.
  unfold failedNames. split.
  - intros [report H].
    destruct (printReport_fields _ _ H) as (Hne & _).
    destruct (printReport_distributions _ _ H) as (Hstep & _ & Havg).
    split; [exact Hne|].
    assert (Htally : is_Some (numOfEachStep (testsThatFailed results))).
    { unfold generateDistributionReportForErroredSteps in Hstep.
      destruct (numOfEachStep (testsThatFailed results)); [eauto | discriminate Hstep]. }
    apply numOfEachStep_defined in Htally as [Hsteps Hfailed].
    split; [exact Hsteps|]. split; [|exact Hfailed].
    apply (averages_defined results). eauto.
  - intros (Hne & Hsteps & Hfirst & Hfailed).
    apply printReport_built; [exact Hne | exact Hsteps | |].
    + apply averages_defined. auto.
    + apply numOfEachStep_defined. auto.
Qed.

Lemma printReport_defined_iff_witness :
  is_Some (printReport failingRuns)
  /\ ~ is_Some (printReport [passedRunOf ["hasOwnProperty"; "Google Page Loads"]]).
Proof.
  split.
  - apply (proj2 (printReport_defined_iff failingRuns)).
    split; [discriminate|]. split; [repeat constructor; discriminate|]. split.
    + apply shadowedCall_single.
    + apply avoiding_is_not_shadowing. intros H.
      repeat (apply elem_of_cons in H as [H|H]; [discriminate H|]). inversion H.
  - intros H. apply (proj1 (printReport_defined_iff _)) in H as (_ & _ & H & _).
    apply H, shadowedCall_here.
Defined.
